(** * Phaser framework: reactive gesture and performance adaptation pipeline

  A shallow embedding of the framework's cross-cutting services and the
  properties of their specification:

  - [Rx]: the virtual-time behaviour of the RxJS operators the services
    are built from ([throttleTime], [bufferTime], one-shot [timer]);
  - [AdaptiveRenderer]: the adaptive quality controller
    (AdaptiveRenderer.ts);
  - [EnhancedResponsiveManager]: breakpoint classification;
  - [SaveManager]: the hash-checked save envelope;
  - [ReactiveEventBus]: the double-click detector;
  - [ReactiveEventBusPatterns]: the other patterns of the event bus
    (throttled and debounced input, long press, streaks, swipes, combos);
  - [ReactiveEventBusMonitor]: the frames-per-second monitor;
  - [GestureManager]: tap, double-tap, swipe and long-press recognition;
  - [GameStateManager]: the global game state and its announcements;
  - [GestureScene]: the tap detection of the gesture demo scene.

  Conventions.  Time is virtual and counted in milliseconds ([Z]); an
  event handler runs at the time stamp of its event.  When a timer is due
  at the very instant an event arrives, the timer callback runs first (it
  was queued earlier).  JavaScript numbers are modelled by [Z] where the
  program only ever stores integers and by [Q] where fractions occur. *)

From Stdlib Require Import ZArith QArith Qminmax Lia Bool List String Ascii.
From Stdlib Require Import DecimalString Sorted Lqa.
From stdpp Require Import gmap strings list.
Import ListNotations.

#[local] Open Scope Z_scope.

(** ** Comparisons on JavaScript numbers *)

Definition Qltb (x y : Q) : bool := negb (Qle_bool y x).
Definition Qgtb (x y : Q) : bool := Qltb y x.
Definition Qgeb (x y : Q) : bool := Qle_bool y x.

(** ** RxJS operators in virtual time *)

Module Rx.

(** [throttleTime(duration)] with the default configuration (leading
    edge only).  The state is the due time of the running throttle
    timer, if one was started.  A value passes when no timer is running;
    passing starts a timer of [duration] ms. *)
Definition throttleTime (duration now : Z) (timer : option Z)
  : bool * option Z :=
  match timer with
  | Some due =>
      if now <? due then (false, timer) else (true, Some (now + duration))
  | None => (true, Some (now + duration))
  end.

(** [bufferTime(span)] without a creation interval.  The state is the
    open buffer and the due time of the timer that will emit it; emitting
    opens the next buffer and restarts the timer, so the buffers cover
    consecutive windows of [span] ms counted from the subscription. *)
Record BufferTime (A : Type) := {
  buffer : list A;
  bufferDue : Z
}.
Arguments buffer {A} _.
Arguments bufferDue {A} _.

Definition bufferTime_subscribe {A} (span now : Z) : BufferTime A :=
  {| buffer := []; bufferDue := now + span |}.

(** Time moves on to [now]: every timer due by then fires.  The first
    emits the open buffer; nothing arrived before the later ones, which
    emit empty buffers.  Returns the emitted buffers with their times. *)
Definition bufferTime_advance {A} (span now : Z) (st : BufferTime A)
  : list (Z * list A) * BufferTime A :=
  if now <? bufferDue st then ([], st)
  else
    let more := (now - bufferDue st) / span in
    ((bufferDue st, buffer st)
       :: map (fun i => (bufferDue st + (Z.of_nat i + 1) * span, []))
            (seq 0 (Z.to_nat more)),
     {| buffer := []; bufferDue := bufferDue st + (more + 1) * span |}).

(** A value arrives and joins the open buffer. *)
Definition bufferTime_next {A} (x : A) (st : BufferTime A) : BufferTime A :=
  {| buffer := buffer st ++ [x]; bufferDue := bufferDue st |}.

(** A one-shot [timer(delay)] with a payload, as kept alive by a
    [switchMap]: [None] when no timer is pending.  [timer_advance] fires it
    if it is due. *)
Definition timer_advance {A} (now : Z) (t : option (A * Z))
  : option (Z * A) * option (A * Z) :=
  match t with
  | Some (x, due) => if now <? due then (None, t) else (Some (due, x), None)
  | None => (None, None)
  end.

End Rx.

(** ** AdaptiveRenderer.ts: the adaptive quality controller *)

Module AdaptiveRenderer.

Inductive Quality := low | medium | high | ultra.
Inductive ShadowQuality := shadow_off | shadow_low | shadow_high.
Inductive Thermal := normal | fair | serious | critical.
Inductive DeviceTier := tier_low | tier_mid | tier_high.

Record RenderSettings := {
  quality : Quality;
  targetFPS : Z;
  resolution : Q;
  antialiasing : bool;
  particleLimit : Z;
  shadowQuality : ShadowQuality;
  postProcessing : bool
}.

(** [batteryLevel?] and [thermal?] are optional fields. *)
Record AdaptivePerformanceMetrics := {
  fps : Q;
  frameTime : Q;
  memory : Q;
  drawCalls : Z;
  triangles : Z;
  batteryLevel : option Q;
  thermal : option Thermal
}.

(** The [thresholds] field of the class. *)
Definition fpsTargets_high : Q := 58.
Definition fpsTargets_medium : Q := 45.
Definition fpsTargets_low : Q := 30.
Definition memoryWarning : Q := 150.

Definition Quality_eqb (a b : Quality) : bool :=
  match a, b with
  | low, low | medium, medium | high, high | ultra, ultra => true
  | _, _ => false
  end.

Definition ShadowQuality_eqb (a b : ShadowQuality) : bool :=
  match a, b with
  | shadow_off, shadow_off | shadow_low, shadow_low
  | shadow_high, shadow_high => true
  | _, _ => false
  end.

Definition DeviceTier_eqb (a b : DeviceTier) : bool :=
  match a, b with
  | tier_low, tier_low | tier_mid, tier_mid | tier_high, tier_high => true
  | _, _ => false
  end.

(** [JSON.stringify(a) === JSON.stringify(b)] on two settings objects
    with the same key order: field-wise equality of the printed values. *)
Definition settings_eqb (a b : RenderSettings) : bool :=
  Quality_eqb (quality a) (quality b)
  && (targetFPS a =? targetFPS b)
  && Qeq_bool (resolution a) (resolution b)
  && Bool.eqb (antialiasing a) (antialiasing b)
  && (particleLimit a =? particleLimit b)
  && ShadowQuality_eqb (shadowQuality a) (shadowQuality b)
  && Bool.eqb (postProcessing a) (postProcessing b).

(** The six assignments made together by each rung of the fps ladder. *)
Definition withTier (q : Quality) (res : Q) (aa : bool) (limit : Z)
    (sh : ShadowQuality) (pp : bool) (s : RenderSettings) : RenderSettings :=
  {| quality := q; targetFPS := targetFPS s; resolution := res;
     antialiasing := aa; particleLimit := limit; shadowQuality := sh;
     postProcessing := pp |}.

Definition set_quality (q : Quality) (s : RenderSettings) :=
  {| quality := q; targetFPS := targetFPS s; resolution := resolution s;
     antialiasing := antialiasing s; particleLimit := particleLimit s;
     shadowQuality := shadowQuality s; postProcessing := postProcessing s |}.

Definition set_targetFPS (f : Z) (s : RenderSettings) :=
  {| quality := quality s; targetFPS := f; resolution := resolution s;
     antialiasing := antialiasing s; particleLimit := particleLimit s;
     shadowQuality := shadowQuality s; postProcessing := postProcessing s |}.

Definition set_particleLimit (n : Z) (s : RenderSettings) :=
  {| quality := quality s; targetFPS := targetFPS s;
     resolution := resolution s; antialiasing := antialiasing s;
     particleLimit := n; shadowQuality := shadowQuality s;
     postProcessing := postProcessing s |}.

Definition set_postProcessing (b : bool) (s : RenderSettings) :=
  {| quality := quality s; targetFPS := targetFPS s;
     resolution := resolution s; antialiasing := antialiasing s;
     particleLimit := particleLimit s; shadowQuality := shadowQuality s;
     postProcessing := b |}.

(** [metrics.thermal && ['serious', 'critical'].includes(metrics.thermal)] *)
Definition thermalThrottled (m : AdaptivePerformanceMetrics) : bool :=
  match thermal m with
  | Some serious | Some critical => true
  | _ => false
  end.

(** [metrics.batteryLevel && metrics.batteryLevel < 20]: a level of 0 is
    falsy, like an absent one.  The monitor of the class itself stores the
    promise returned by [getBattery()] in this field; compared with 20 it
    is [NaN], so it counts as an absent level too. *)
Definition batteryLow (m : AdaptivePerformanceMetrics) : bool :=
  match batteryLevel m with
  | Some b => negb (Qeq_bool b 0) && Qltb b 20
  | None => false
  end.

(** [calculateOptimalSettings(metrics, currentSettings)], with the
    [deviceTier] field of the instance as a parameter. *)
Definition calculateOptimalSettings (deviceTier : DeviceTier)
    (metrics : AdaptivePerformanceMetrics) (currentSettings : RenderSettings)
  : RenderSettings :=
  let newSettings := currentSettings in
  (* FPS-based adjustments *)
  let newSettings :=
    if Qltb (fps metrics) fpsTargets_low then
      withTier low 0.5 false 50 shadow_off false newSettings
    else if Qltb (fps metrics) fpsTargets_medium then
      withTier medium 0.7 false 100 shadow_low false newSettings
    else if Qgeb (fps metrics) fpsTargets_high then
      if DeviceTier_eqb deviceTier tier_high
         && negb (Quality_eqb (quality currentSettings) ultra)
      then withTier high 1.0 true 300 shadow_high true newSettings
      else newSettings
    else newSettings in
  (* Memory-based adjustments *)
  let newSettings :=
    if Qgtb (memory metrics) (memoryWarning * 0.8) then
      set_postProcessing false
        (set_particleLimit (Z.min (particleLimit newSettings) 50) newSettings)
    else newSettings in
  (* Thermal throttling *)
  let newSettings :=
    if thermalThrottled metrics then
      set_targetFPS 30 (set_quality low newSettings)
    else newSettings in
  (* Battery optimization *)
  let newSettings :=
    if batteryLow metrics then
      set_postProcessing false (set_targetFPS 30 (set_quality low newSettings))
    else newSettings in
  newSettings.

(** *** Device tier detection *)

Definition toLowerCase_char (c : ascii) : ascii :=
  let n := nat_of_ascii c in
  if ((65 <=? n) && (n <=? 90))%nat then ascii_of_nat (n + 32) else c.

Fixpoint toLowerCase (s : string) : string :=
  match s with
  | EmptyString => EmptyString
  | String c r => String (toLowerCase_char c) (toLowerCase r)
  end.

(** [hay.includes(needle)] *)
Definition includes (hay needle : string) : bool :=
  match String.index 0 needle hay with
  | Some _ => true
  | None => false
  end.

(** What [detectDeviceTier] reads from the browser: the strings returned
    by [gl.getParameter] when a WebGL context could be created, and
    [navigator.deviceMemory] when the browser reports it. *)
Record Browser := {
  webgl : option (string * string);     (* (VENDOR, RENDERER) *)
  deviceMemory : option Q
}.

Definition truthy (q : Q) : bool := negb (Qeq_bool q 0).

(** The two substring tests of the heuristic. *)
Definition highEndGPU (gpuInfo : string) : bool :=
  includes gpuInfo "adreno 6" || includes gpuInfo "mali-g7"
  || includes gpuInfo "apple a1".

Definition midRangeGPU (gpuInfo : string) : bool :=
  includes gpuInfo "adreno 5" || includes gpuInfo "mali-g"
  || includes gpuInfo "apple a".

(** [detectDeviceTier()], returning the value left in [this.deviceTier].
    Without a WebGL context the method returns early. *)
Definition detectDeviceTier (b : Browser) : DeviceTier :=
  match webgl b with
  | None => tier_low
  | Some (vendor, renderer) =>
      (* Simple heuristics *)
      let gpuInfo := toLowerCase (vendor ++ " " ++ renderer) in
      let deviceTier :=
        if highEndGPU gpuInfo then tier_high
        else if midRangeGPU gpuInfo then tier_mid
        else tier_low in
      (* Memory consideration *)
      match deviceMemory b with
      | Some dm =>
          if truthy dm && Qltb dm 3 then tier_low
          else if truthy dm && Qgeb dm 6 then tier_high
          else deviceTier
      | None => deviceTier
      end
  end.

(** *** The reactive controller

    [setupPerformanceReactions] wires two subscriptions on
    [performanceMetrics$]:

    - [combineLatest([performanceMetrics$.pipe(throttleTime(1000)),
      currentSettings$])], mapped through [calculateOptimalSettings],
      filtered by [distinctUntilChanged] and applied;
    - the emergency path, [filter(...)] then [throttleTime(5000)].

    Everything runs synchronously inside [next]; in particular
    [currentSettings$.next] re-enters the first subscription before
    [applyRenderSettings] returns. *)

(** What the controller needs from the game object. *)
Record Config := {
  deviceTier : DeviceTier;
  hasScale : bool;          (* [this.game.scale] *)
  hasWebGL : bool           (* [this.game.renderer] with a [gl] context *)
}.

(** Calls made on collaborators: [eventBus.emit] and [scale.setZoom]. *)
Inductive Effect :=
| scale_setZoom (scale : Q)
| renderer_antialiasingChanged (enabled : bool)
| particles_limitChanged (limit : Z)
| shadows_qualityChanged (q : ShadowQuality)
| renderer_settingsChanged (previous current : RenderSettings)
| renderer_emergencyMode (settings : RenderSettings).

Record State := {
  currentSettings : RenderSettings;            (* [currentSettings$.value] *)
  performanceMetrics : AdaptivePerformanceMetrics;
                                            (* [performanceMetrics$.value] *)
  throttle1s : option Z;        (* timer of [throttleTime(1000)] *)
  latestThrottled : option AdaptivePerformanceMetrics;
                                (* [combineLatest]: latest throttled sample *)
  lastCandidate : option RenderSettings;
                                (* [distinctUntilChanged]: previous value *)
  throttle5s : option Z;        (* timer of [throttleTime(5000)] *)
  effects : list (Z * Effect)   (* time-stamped, oldest first *)
}.

Definition set_currentSettings (s : RenderSettings) (st : State) : State :=
  {| currentSettings := s; performanceMetrics := performanceMetrics st;
     throttle1s := throttle1s st; latestThrottled := latestThrottled st;
     lastCandidate := lastCandidate st; throttle5s := throttle5s st;
     effects := effects st |}.

Definition set_performanceMetrics (m : AdaptivePerformanceMetrics)
    (st : State) : State :=
  {| currentSettings := currentSettings st; performanceMetrics := m;
     throttle1s := throttle1s st; latestThrottled := latestThrottled st;
     lastCandidate := lastCandidate st; throttle5s := throttle5s st;
     effects := effects st |}.

Definition set_throttled (timer : option Z) (m : AdaptivePerformanceMetrics)
    (st : State) : State :=
  {| currentSettings := currentSettings st;
     performanceMetrics := performanceMetrics st;
     throttle1s := timer; latestThrottled := Some m;
     lastCandidate := lastCandidate st; throttle5s := throttle5s st;
     effects := effects st |}.

Definition set_lastCandidate (c : RenderSettings) (st : State) : State :=
  {| currentSettings := currentSettings st;
     performanceMetrics := performanceMetrics st;
     throttle1s := throttle1s st; latestThrottled := latestThrottled st;
     lastCandidate := Some c; throttle5s := throttle5s st;
     effects := effects st |}.

Definition set_throttle5s (timer : option Z) (st : State) : State :=
  {| currentSettings := currentSettings st;
     performanceMetrics := performanceMetrics st;
     throttle1s := throttle1s st; latestThrottled := latestThrottled st;
     lastCandidate := lastCandidate st; throttle5s := timer;
     effects := effects st |}.

Definition emit (now : Z) (es : list Effect) (st : State) : State :=
  {| currentSettings := currentSettings st;
     performanceMetrics := performanceMetrics st;
     throttle1s := throttle1s st; latestThrottled := latestThrottled st;
     lastCandidate := lastCandidate st; throttle5s := throttle5s st;
     effects := effects st ++ map (pair now) es |}.

(** The body of the first subscription once [combineLatest] has a value
    from both sources: [map], [distinctUntilChanged], then the subscriber,
    here the continuation [apply]. *)
Definition onCombined (apply : RenderSettings -> State -> option State)
    (cfg : Config) (st : State) : option State :=
  match latestThrottled st with
  | None => Some st
  | Some metrics =>
      let newSettings :=
        calculateOptimalSettings (deviceTier cfg) metrics
          (currentSettings st) in
      let unchanged :=
        match lastCandidate st with
        | Some previous => settings_eqb previous newSettings
        | None => false
        end in
      if unchanged then Some st
      else apply newSettings (set_lastCandidate newSettings st)
  end.

(** The calls made by [applyRenderSettings] before it publishes. *)
Definition applyEffects (cfg : Config)
    (settings currentSettings : RenderSettings) : list Effect :=
  (if negb (Qeq_bool (resolution settings) (resolution currentSettings))
      && hasScale cfg
   then [scale_setZoom (resolution settings)] else [])
  ++ (if hasWebGL cfg
         && negb (Bool.eqb (antialiasing settings)
                    (antialiasing currentSettings))
      then [renderer_antialiasingChanged (antialiasing settings)] else [])
  ++ [particles_limitChanged (particleLimit settings);
      shadows_qualityChanged (shadowQuality settings);
      renderer_settingsChanged currentSettings settings].

(** [applyRenderSettings(settings)].  Its last statement,
    [currentSettings$.next(settings)], runs the first subscription again,
    which may call [applyRenderSettings] recursively; [fuel] bounds the
    depth of that recursion and [None] stands for its exhaustion. *)
Fixpoint applyRenderSettings (fuel : nat) (cfg : Config) (now : Z)
    (settings : RenderSettings) (st : State) : option State :=
  if settings_eqb settings (currentSettings st) then Some st
  else
    match fuel with
    | O => None
    | S fuel' =>
        let st := emit now (applyEffects cfg settings (currentSettings st)) st in
        let st := set_currentSettings settings st in
        onCombined (applyRenderSettings fuel' cfg now) cfg st
    end.

(** Nesting depth granted to every top-level call; three levels are
    always enough (see [applyRenderSettings_terminates]). *)
Definition depth : nat := 3.

Definition emergencySettings : RenderSettings :=
  {| quality := low; targetFPS := 30; resolution := 0.5;
     antialiasing := false; particleLimit := 25;
     shadowQuality := shadow_off; postProcessing := false |}.

(** [emergencyQualityReduction()] *)
Definition emergencyQualityReduction (cfg : Config) (now : Z) (st : State)
  : option State :=
  match applyRenderSettings depth cfg now emergencySettings st with
  | Some st => Some (emit now [renderer_emergencyMode emergencySettings] st)
  | None => None
  end.

(** The predicate of the emergency [filter]. *)
Definition emergency (metrics : AdaptivePerformanceMetrics) : bool :=
  Qltb (fps metrics) 20 || Qgtb (memory metrics) memoryWarning.

(** [performanceMetrics$.next(metrics)] at time [now]: the subject
    notifies its two subscribers in subscription order. *)
Definition onMetrics (cfg : Config) (now : Z)
    (metrics : AdaptivePerformanceMetrics) (st : State) : option State :=
  let st := set_performanceMetrics metrics st in
  let '(pass, timer) := Rx.throttleTime 1000 now (throttle1s st) in
  match
    (if pass
     then onCombined (applyRenderSettings depth cfg now) cfg
            (set_throttled timer metrics st)
     else Some st)
  with
  | None => None
  | Some st =>
      if emergency metrics then
        let '(pass, timer) := Rx.throttleTime 5000 now (throttle5s st) in
        if pass
        then emergencyQualityReduction cfg now (set_throttle5s timer st)
        else Some st
      else Some st
  end.

Definition getDefaultSettings : RenderSettings :=
  {| quality := medium; targetFPS := 60; resolution := 1.0;
     antialiasing := false; particleLimit := 150;
     shadowQuality := shadow_low; postProcessing := false |}.

Definition getInitialMetrics : AdaptivePerformanceMetrics :=
  {| fps := 60; frameTime := 16.67; memory := 0; drawCalls := 0;
     triangles := 0; batteryLevel := None; thermal := None |}.

(** The settings chosen by [adjustQualityBasedOnDevice]. *)
Definition initialSettings (tier : DeviceTier) : RenderSettings :=
  match tier with
  | tier_high =>
      {| quality := high; targetFPS := 60; resolution := 1.0;
         antialiasing := true; particleLimit := 300;
         shadowQuality := shadow_high; postProcessing := true |}
  | tier_mid =>
      {| quality := medium; targetFPS := 60; resolution := 0.8;
         antialiasing := false; particleLimit := 150;
         shadowQuality := shadow_low; postProcessing := false |}
  | tier_low =>
      {| quality := low; targetFPS := 30; resolution := 0.6;
         antialiasing := false; particleLimit := 50;
         shadowQuality := shadow_off; postProcessing := false |}
  end.

(** [getSettingsForQuality(quality)] *)
Definition getSettingsForQuality (q : Quality) (baseSettings : RenderSettings)
  : RenderSettings :=
  let '(res, aa, limit) :=
    match q with
    | low => (0.5%Q, false, 50)
    | medium => (0.7%Q, false, 150)
    | high => (0.9%Q, true, 250)
    | ultra => (1.0%Q, true, 400)
    end in
  {| quality := q; targetFPS := targetFPS baseSettings; resolution := res;
     antialiasing := aa; particleLimit := limit;
     shadowQuality := shadowQuality baseSettings;
     postProcessing := postProcessing baseSettings |}.

(** The constructor, run at time [now]: the two behaviour subjects hold
    their initial values; subscribing the first pipeline delivers the
    initial metrics through the throttle (starting its timer) and the
    default settings, so [combineLatest] fires once; the initial metrics
    do not pass the emergency filter; [adjustQualityBasedOnDevice] then
    publishes the tier's settings directly on [currentSettings$]. *)
Definition construct (cfg : Config) (now : Z) : option State :=
  let st :=
    {| currentSettings := getDefaultSettings;
       performanceMetrics := getInitialMetrics;
       throttle1s := Some (now + 1000);
       latestThrottled := Some getInitialMetrics;
       lastCandidate := None;
       throttle5s := None;
       effects := [] |} in
  match onCombined (applyRenderSettings depth cfg now) cfg st with
  | None => None
  | Some st =>
      onCombined (applyRenderSettings depth cfg now) cfg
        (set_currentSettings (initialSettings (deviceTier cfg)) st)
  end.

(** What can happen to a running controller. *)
Inductive Input :=
| Sample (metrics : AdaptivePerformanceMetrics)
    (* [performanceMetrics$.next], from the monitor or the memory poll *)
| VisibilityHidden               (* [visibilitychange] with [document.hidden] *)
| WindowBlur                     (* [blur] *)
| ForceQuality (q : Quality).    (* [forceQuality(q)] *)

Definition step (cfg : Config) (now : Z) (i : Input) (st : State)
  : option State :=
  match i with
  | Sample metrics => onMetrics cfg now metrics st
  | VisibilityHidden =>
      applyRenderSettings depth cfg now
        (set_targetFPS 10 (currentSettings st)) st
  | WindowBlur =>
      applyRenderSettings depth cfg now
        (set_targetFPS 15 (currentSettings st)) st
  | ForceQuality q =>
      applyRenderSettings depth cfg now
        (getSettingsForQuality q (currentSettings st)) st
  end.

(** A run over time-stamped inputs. *)
Fixpoint run (cfg : Config) (inputs : list (Z * Input)) (st : State)
  : option State :=
  match inputs with
  | [] => Some st
  | (now, i) :: rest =>
      match step cfg now i st with
      | Some st => run cfg rest st
      | None => None
      end
  end.

(** The emergency firings on record: when, and with which settings. *)
Definition emergencyFirings (st : State) : list (Z * RenderSettings) :=
  omap (fun e => match e with
                 | (t, renderer_emergencyMode s) => Some (t, s)
                 | _ => None
                 end) (effects st).

End AdaptiveRenderer.

(** Vocabulary for the properties of the controller. *)

Module AdaptiveRendererSpec.
Import AdaptiveRenderer.

(** The fields assigned by the rungs of the fps ladder. *)
Definition ladderFields (s : RenderSettings) :=
  (quality s, resolution s, antialiasing s, particleLimit s,
   shadowQuality s, postProcessing s).

(** The ladder of [calculateOptimalSettings] with the outcome of its
    tests on the sample as parameters (see [calculateOptimalSettings_ladder]). *)
Definition ladder (belowLow belowMedium aboveHigh memoryHigh hot batteryLow : bool)
    (deviceTier : DeviceTier) (currentSettings : RenderSettings)
  : RenderSettings :=
  let newSettings := currentSettings in
  let newSettings :=
    if belowLow then
      withTier low 0.5 false 50 shadow_off false newSettings
    else if belowMedium then
      withTier medium 0.7 false 100 shadow_low false newSettings
    else if aboveHigh then
      if DeviceTier_eqb deviceTier tier_high
         && negb (Quality_eqb (quality currentSettings) ultra)
      then withTier high 1.0 true 300 shadow_high true newSettings
      else newSettings
    else newSettings in
  let newSettings :=
    if memoryHigh then
      set_postProcessing false
        (set_particleLimit (Z.min (particleLimit newSettings) 50) newSettings)
    else newSettings in
  let newSettings :=
    if hot then set_targetFPS 30 (set_quality low newSettings)
    else newSettings in
  let newSettings :=
    if batteryLow then
      set_postProcessing false (set_targetFPS 30 (set_quality low newSettings))
    else newSettings in
  newSettings.

Definition withFps (f : Q) (m : AdaptivePerformanceMetrics) :=
  {| fps := f; frameTime := frameTime m; memory := memory m;
     drawCalls := drawCalls m; triangles := triangles m;
     batteryLevel := batteryLevel m; thermal := thermal m |}.

(** Time stamps of the samples that meet the emergency condition. *)
Definition emergencySampleTimes (inputs : list (Z * Input)) : list Z :=
  omap (fun '(t, i) =>
          match i with
          | Sample m => if emergency m then Some t else None
          | _ => None
          end) inputs.

(** The rate limit in the words of the specification: a trigger at [t]
    fires unless the path already fired less than [interval] ms before. *)
Fixpoint atMostOncePer (interval : Z) (last : option Z) (ts : list Z)
  : list Z :=
  match ts with
  | [] => []
  | t :: rest =>
      let suppressed :=
        match last with
        | Some l => t <? l + interval
        | None => false
        end in
      if suppressed then atMostOncePer interval last rest
      else t :: atMostOncePer interval (Some t) rest
  end.

(** No window [[a, a + interval)] contains two of the times [ts]. *)
Definition oncePerWindow (interval : Z) (ts : list Z) : Prop :=
  forall a,
    (length (filter (fun t : Z => (a <= t < a + interval)%Z) ts) <= 1)%nat.

(** Whether a sample arriving at [now] fires the emergency path. *)
Definition fires (now : Z) (m : AdaptivePerformanceMetrics) (st : State)
  : bool :=
  emergency m && fst (Rx.throttleTime 5000 now (throttle5s st)).

(** The target frame rate held is at most [bound]. *)
Definition capped (bound : Z) (st : State) : Prop :=
  targetFPS (currentSettings st) <= bound.

(** The settings published on [currentSettings$] by
    [applyRenderSettings], oldest first, with the time of each
    publication: the [current] field of every 'renderer:settingsChanged'
    event. *)
Definition settingsPublished (st : State) : list (Z * RenderSettings) :=
  omap (fun e => match e with
                 | (t, renderer_settingsChanged _ current) => Some (t, current)
                 | _ => None
                 end) (effects st).

(** The lowest rung of the fps ladder, on settings with the target frame
    rate [target]. *)
Definition lowRung (target : Z) : RenderSettings :=
  {| quality := low; targetFPS := target; resolution := 0.5;
     antialiasing := false; particleLimit := 50;
     shadowQuality := shadow_off; postProcessing := false |}.

(** The highest rung of the fps ladder after the memory step, on settings
    with the target frame rate [target]. *)
Definition highRung (target limit : Z) (post : bool) : RenderSettings :=
  {| quality := high; targetFPS := target; resolution := 1.0;
     antialiasing := true; particleLimit := limit;
     shadowQuality := shadow_high; postProcessing := post |}.

(** A good frame rate with 200 MB of heap in use, and a good frame rate
    with 100 MB. *)
Definition memoryPressure : AdaptivePerformanceMetrics :=
  {| fps := 60; frameTime := 16.67; memory := 200; drawCalls := 0;
     triangles := 0; batteryLevel := None; thermal := None |}.

Definition smoothSample : AdaptivePerformanceMetrics :=
  {| fps := 60; frameTime := 16.67; memory := 100; drawCalls := 0;
     triangles := 0; batteryLevel := None; thermal := None |}.

(** A sample with thermal state [serious], after which forcing the
    quality [ultra] re-enters [applyRenderSettings] three levels deep. *)
Definition hotSample : AdaptivePerformanceMetrics :=
  {| fps := 60; frameTime := 16; memory := 0; drawCalls := 0; triangles := 0;
     batteryLevel := None; thermal := Some serious |}.

End AdaptiveRendererSpec.

(** ** EnhancedResponsiveManager.ts: breakpoint classification *)

Module EnhancedResponsiveManager.

(** The keys of [Enhanced2025Breakpoints], which are also the labels
    returned by [detectBreakpoint]. *)
Inductive Breakpoint :=
| mobile_xs | mobile_sm | mobile_md | mobile_lg
| tablet_sm | tablet_md | tablet_lg | tablet_xl | tablet_pro | tablet_pro_xl
| desktop_sm | desktop_md | desktop_lg | desktop_xl | desktop_xxl.

(** A breakpoint table gives a width to every key: [bp k] is [bp.k]. *)
Definition Enhanced2025Breakpoints := Breakpoint -> Q.

(** The initial value of the [breakpoints] field. *)
Definition breakpoints : Enhanced2025Breakpoints := fun k =>
  match k with
  | mobile_xs => 320
  | mobile_sm => 375
  | mobile_md => 414
  | mobile_lg => 480
  | tablet_sm => 600
  | tablet_md => 768
  | tablet_lg => 834
  | tablet_xl => 1024
  | tablet_pro => 1194
  | tablet_pro_xl => 1366
  | desktop_sm => 1280
  | desktop_md => 1440
  | desktop_lg => 1680
  | desktop_xl => 1920
  | desktop_xxl => 2560
  end%Q.

(** The constructor's [{ ...this.breakpoints, ...customBreakpoints }]. *)
Definition withCustom (custom : Breakpoint -> option Q)
  : Enhanced2025Breakpoints :=
  fun k => match custom k with Some w => w | None => breakpoints k end.

(** [detectBreakpoint(width)] on the table [bp]. *)
Definition detectBreakpoint (bp : Enhanced2025Breakpoints) (width : Q)
  : Breakpoint :=
  if Qgeb width (bp desktop_xxl) then desktop_xxl
  else if Qgeb width (bp desktop_xl) then desktop_xl
  else if Qgeb width (bp desktop_lg) then desktop_lg
  else if Qgeb width (bp desktop_md) then desktop_md
  else if Qgeb width (bp desktop_sm) then desktop_sm
  else if Qgeb width (bp tablet_pro_xl) then tablet_pro_xl
  else if Qgeb width (bp tablet_pro) then tablet_pro
  else if Qgeb width (bp tablet_xl) then tablet_xl
  else if Qgeb width (bp tablet_lg) then tablet_lg
  else if Qgeb width (bp tablet_md) then tablet_md
  else if Qgeb width (bp tablet_sm) then tablet_sm
  else if Qgeb width (bp mobile_lg) then mobile_lg
  else if Qgeb width (bp mobile_md) then mobile_md
  else if Qgeb width (bp mobile_sm) then mobile_sm
  else mobile_xs.

(** The property the classifier is specified to have: the result is
    met by the width and no key with a larger threshold is. *)
Definition widestMatch (bp : Enhanced2025Breakpoints) (width : Q)
    (result : Breakpoint) : Prop :=
  (bp result <= width)%Q /\
  forall k, (bp k <= width)%Q -> (bp k <= bp result)%Q.

(** The thresholds do not decrease along the keys in the order in which
    [detectBreakpoint] tests them, from [mobile_xs] up to [desktop_xxl]. *)
Definition ladderOrdered (bp : Enhanced2025Breakpoints) : Prop :=
  (bp mobile_xs <= bp mobile_sm /\ bp mobile_sm <= bp mobile_md
   /\ bp mobile_md <= bp mobile_lg /\ bp mobile_lg <= bp tablet_sm
   /\ bp tablet_sm <= bp tablet_md /\ bp tablet_md <= bp tablet_lg
   /\ bp tablet_lg <= bp tablet_xl /\ bp tablet_xl <= bp tablet_pro
   /\ bp tablet_pro <= bp tablet_pro_xl /\ bp tablet_pro_xl <= bp desktop_sm
   /\ bp desktop_sm <= bp desktop_md /\ bp desktop_md <= bp desktop_lg
   /\ bp desktop_lg <= bp desktop_xl /\ bp desktop_xl <= bp desktop_xxl)%Q.

(** *** Scale factors *)

(** [DeviceInfo['type']] *)
Inductive DeviceType := mobile | tablet | desktop | tv.

(** [getBreakpointScale(breakpoint)] on the labels of [detectBreakpoint];
    no entry of [scaleMap] is zero, so the fallback [|| 1.0] is not taken
    for them. *)
Definition getBreakpointScale (breakpoint : Breakpoint) : Q :=
  match breakpoint with
  | mobile_xs => 0.65
  | mobile_sm => 0.7
  | mobile_md => 0.75
  | mobile_lg => 0.8
  | tablet_sm => 0.85
  | tablet_md => 0.9
  | tablet_lg => 0.95
  | tablet_xl => 1.0
  | tablet_pro => 1.05
  | tablet_pro_xl => 1.1
  | desktop_sm => 1.0
  | desktop_md => 1.0
  | desktop_lg => 1.0
  | desktop_xl => 1.0
  | desktop_xxl => 1.0
  end%Q.

(** [calculateScaleFactor(deviceInfo, breakpoint)], with the two fields
    of [deviceInfo] it reads. *)
Definition calculateScaleFactor (pixelRatio : Q) (type : DeviceType)
    (breakpoint : Breakpoint) : Q :=
  let baseScale := getBreakpointScale breakpoint in
  (* Adjust for high DPI displays *)
  if Qgtb pixelRatio 2
     && match type with mobile => true | _ => false end
  then baseScale * 0.9
  else if Qgtb pixelRatio 1.5
          && match type with tablet => true | _ => false end
  then baseScale * 0.95
  else baseScale.

End EnhancedResponsiveManager.

(** ** SaveManager.ts: the hash-checked save envelope *)

Module SaveManager.

(** JavaScript values, as far as the save layer looks into them. *)
#[warnings="-register-all"]
Inductive value :=
| VUndefined
| VNull
| VBool (b : bool)
| VNum (n : Z)
| VStr (s : string)
| VArr (items : list value)
| VObj (fields : list (string * value)).

(** The built-ins of the JavaScript runtime that the class calls.  A
    result [None] stands for a call that yields no usable result:
    [JSON.stringify] returning [undefined] or throwing, [JSON.parse]
    throwing [SyntaxError], [btoa]/[atob] throwing on characters they do
    not accept, [Number(s)] being [NaN]. *)
Record Runtime := {
  JSON_stringify : value -> option string;
  JSON_parse : string -> option value;
  btoa : string -> option string;
  atob : string -> option string;
  ToNumber : string -> option Q
}.

(** [localStorage], the clock behind [Date.now()], and the events emitted
    on the event bus (oldest first). *)
Record World := {
  localStorage : gmap string string;
  now : Z;
  emitted : list (string * value)
}.

(** The constructor arguments that matter here. *)
Record Config := {
  storageKey : string;
  useCompression : bool
}.

Definition setItem (key text : string) (w : World) : World :=
  {| localStorage := <[key := text]> (localStorage w);
     now := now w; emitted := emitted w |}.

Definition eventBus_emit (event : string) (payload : value) (w : World)
  : World :=
  {| localStorage := localStorage w; now := now w;
     emitted := emitted w ++ [(event, payload)] |}.

(** The members of [GameEvents] used by the class. *)
Definition SAVE_GAME : string := "save:game".
Definition LOAD_GAME : string := "load:game".

Fixpoint lookupField (key : string) (fields : list (string * value))
  : value :=
  match fields with
  | [] => VUndefined
  | (k, v) :: rest => if String.eqb k key then v else lookupField key rest
  end.

(** [v.key] for one of the keys [version], [timestamp], [data], [hash]:
    reading a property of [undefined] or [null] throws [TypeError] (here
    [None]); primitives and arrays have no such property. *)
Definition getProp (v : value) (key : string) : option value :=
  match v with
  | VUndefined | VNull => None
  | VObj fields => Some (lookupField key fields)
  | VBool _ | VNum _ | VStr _ | VArr _ => Some VUndefined
  end.

(** Truthiness, as tested by [!x]. *)
Definition toBoolean (v : value) : bool :=
  match v with
  | VUndefined | VNull => false
  | VBool b => b
  | VNum n => negb (n =? 0)
  | VStr s => negb (String.eqb s "")
  | VArr _ | VObj _ => true
  end.

(** [v === s] for a string [s]. *)
Definition strictEqualsString (v : value) (s : string) : bool :=
  match v with
  | VStr t => String.eqb t s
  | _ => false
  end.

(** *** The checksum *)

(** [ToInt32]: wrap into the signed 32-bit range. *)
Definition toInt32 (z : Z) : Z := (z + 2 ^ 31) mod 2 ^ 32 - 2 ^ 31.

(** One turn of the loop of [generateHash]:
    [hash = ((hash << 5) - hash) + char; hash = hash & hash]. *)
Definition hashChar (hash : Z) (c : ascii) : Z :=
  let char := Z.of_nat (nat_of_ascii c) in
  let hash := toInt32 (Z.shiftl hash 5) - hash + char in
  toInt32 hash.

Fixpoint hashLoop (str : string) (hash : Z) : Z :=
  match str with
  | EmptyString => hash
  | String c rest => hashLoop rest (hashChar hash c)
  end.

Definition digit36 (d : Z) : ascii :=
  if d <? 10 then ascii_of_nat (48 + Z.to_nat d)
  else ascii_of_nat (87 + Z.to_nat d).

(** The base-36 digits of [n >= 0] in front of [acc].  At most [fuel + 1]
    digits are produced; seven digits cover every 32-bit magnitude
    (36 ^ 7 > 2 ^ 32). *)
Fixpoint digits36 (fuel : nat) (n : Z) (acc : string) : string :=
  let acc := String (digit36 (n mod 36)) acc in
  match fuel with
  | O => acc
  | S fuel' => if n / 36 =? 0 then acc else digits36 fuel' (n / 36) acc
  end.

(** [n.toString(36)] for a 32-bit integer. *)
Definition toString36 (n : Z) : string :=
  if n <? 0 then String "-" (digits36 6 (- n) EmptyString)
  else digits36 6 n EmptyString.

(** [generateHash(data)]; [None] when [JSON.stringify(data)] gives no
    string, in which case [str.length] throws. *)
Definition generateHash (rt : Runtime) (data : value) : option string :=
  match JSON_stringify rt data with
  | Some str => Some (toString36 (hashLoop str 0))
  | None => None
  end.

(** [verifyIntegrity(saveData)] *)
Definition verifyIntegrity (rt : Runtime) (saveData : value) : option bool :=
  match getProp saveData "hash" with
  | None => None
  | Some hash =>
      if negb (toBoolean hash) then Some true   (* No hash, skip verification *)
      else
        match getProp saveData "data" with
        | None => None
        | Some data =>
            match generateHash rt data with
            | None => None
            | Some expectedHash => Some (strictEqualsString hash expectedHash)
            end
        end
  end.

Definition getVersion : string := "1.0.0".

(** The first element of [s.split('.')]. *)
Fixpoint firstSegment (s : string) : string :=
  match s with
  | EmptyString => EmptyString
  | String c rest =>
      if Ascii.eqb c "."%char then EmptyString
      else String c (firstSegment rest)
  end.

(** [a === b] on two results of [Number]; [NaN] equals nothing. *)
Definition numberEquals (a b : option Q) : bool :=
  match a, b with
  | Some x, Some y => Qeq_bool x y
  | _, _ => false
  end.

(** [isVersionCompatible(version)]; calling [split] on anything but a
    string throws. *)
Definition isVersionCompatible (rt : Runtime) (version : value)
  : option bool :=
  match version with
  | VStr version =>
      let current := ToNumber rt (firstSegment getVersion) in
      let saved := ToNumber rt (firstSegment version) in
      (* Major version must match *)
      Some (numberEquals current saved)
  | _ => None
  end.

(** [migrate(saveData)] *)
Definition migrate (saveData : value) : option value :=
  getProp saveData "data".

(** The envelope built by [save]. *)
Definition envelope (timestamp : Z) (data : value) (hash : string) : value :=
  VObj [("version", VStr getVersion); ("timestamp", VNum timestamp);
        ("data", data); ("hash", VStr hash)].

Definition compress (rt : Runtime) (text : string) : option string :=
  btoa rt text.

Definition decompress (rt : Runtime) (text : string) : option string :=
  atob rt text.

(** The [try] block of [save]. *)
Definition save_try (cfg : Config) (rt : Runtime) (data : value) (w : World)
  : option World :=
  match generateHash rt data with
  | None => None
  | Some hash =>
      let saveData := envelope (now w) data hash in
      match JSON_stringify rt saveData with
      | None => None
      | Some serialized =>
          match (if useCompression cfg then compress rt serialized
                 else Some serialized) with
          | None => None
          | Some serialized =>
              let w := setItem (storageKey cfg) serialized w in
              Some (eventBus_emit SAVE_GAME saveData w)
          end
      end
  end.

(** [save(data)]: the value the promise resolves to, and the world after. *)
Definition save (cfg : Config) (rt : Runtime) (data : value) (w : World)
  : bool * World :=
  match save_try cfg rt data w with
  | Some w' => (true, w')
  | None => (false, w)
  end.

(** The [try] block of [load]. *)
Definition load_try (cfg : Config) (rt : Runtime) (w : World)
  : option (value * World) :=
  match localStorage w !! storageKey cfg with
  | None => Some (VNull, w)
  | Some serialized =>
      if String.eqb serialized "" then Some (VNull, w)
      else
        match (if useCompression cfg then decompress rt serialized
               else Some serialized) with
        | None => None
        | Some serialized =>
            match JSON_parse rt serialized with
            | None => None
            | Some saveData =>
                (* Verify integrity *)
                match verifyIntegrity rt saveData with
                | None => None
                | Some false => Some (VNull, w)
                | Some true =>
                    (* Check version compatibility *)
                    match getProp saveData "version" with
                    | None => None
                    | Some version =>
                        match isVersionCompatible rt version with
                        | None => None
                        | Some false =>
                            match migrate saveData with
                            | Some data => Some (data, w)
                            | None => None
                            end
                        | Some true =>
                            let w := eventBus_emit LOAD_GAME saveData w in
                            match getProp saveData "data" with
                            | Some data => Some (data, w)
                            | None => None
                            end
                        end
                    end
                end
            end
        end
  end.

(** [load()]: every exception of the [try] block is caught and answered
    with [null]. *)
Definition load (cfg : Config) (rt : Runtime) (w : World) : value * World :=
  match load_try cfg rt w with
  | Some result => result
  | None => (VNull, w)
  end.



(** *** The other storage operations *)

Definition removeItem (key : string) (w : World) : World :=
  {| localStorage := base.delete key (localStorage w);
     now := now w; emitted := emitted w |}.

(** [delete()] *)
Definition delete (cfg : Config) (w : World) : bool * World :=
  (true, removeItem (storageKey cfg) w).

(** [exists()]: [localStorage.getItem(key) !== null]. *)
Definition exists_ (cfg : Config) (w : World) : bool :=
  match localStorage w !! storageKey cfg with
  | Some _ => true
  | None => false
  end.

(** [exportSave()]: the text handed to the [Blob] that is offered for
    download, if any. *)
Definition exportSave (cfg : Config) (w : World) : option string :=
  match localStorage w !! storageKey cfg with
  | None => None
  | Some saveData =>
      if String.eqb saveData "" then None   (* No save data to export *)
      else Some saveData
  end.

(** [importSave(file)], with the outcome of [file.text()]: the text, or
    [None] when reading the file fails. *)
Definition importSave (cfg : Config) (file : option string) (w : World)
  : bool * World :=
  match file with
  | Some text => (true, setItem (storageKey cfg) text w)
  | None => (false, w)
  end.

End SaveManager.

(** Vocabulary for the properties of the checksum. *)

Module SaveManagerSpec.

(** The polynomial [c0 * 31^(n-1) + ... + c(n-1)] over the character
    codes of [str], on top of [acc * 31^n]. *)
Fixpoint polynomial31 (str : string) (acc : Z) : Z :=
  match str with
  | EmptyString => acc
  | String c rest => polynomial31 rest (31 * acc + Z.of_nat (nat_of_ascii c))
  end.

(** The value of a base-36 digit [0-9a-z]. *)
Definition digitValue (c : ascii) : Z :=
  let n := Z.of_nat (nat_of_ascii c) in
  if n <? 58 then n - 48 else n - 87.

Fixpoint value36 (s : string) (acc : Z) : Z :=
  match s with
  | EmptyString => acc
  | String c rest => value36 rest (acc * 36 + digitValue c)
  end.

(** Reading a number back from its base-36 text, as [parseInt(s, 36)]
    does on the texts [toString(36)] produces. *)
Definition parseInt36 (s : string) : Z :=
  match s with
  | String "-" rest => - value36 rest 0
  | _ => value36 s 0
  end.


End SaveManagerSpec.

(** A small implementation of the runtime built-ins on a fragment of JSON
    (integers, strings without escapes, no white space), to run the save
    layer on concrete payloads. *)

Module MiniJSON.
Import SaveManager.

Definition dquote : ascii := ascii_of_nat 34.

Definition quote (s : string) : string :=
  String dquote (s ++ String dquote EmptyString).

Fixpoint join (sep : string) (parts : list string) : string :=
  match parts with
  | [] => EmptyString
  | [p] => p
  | p :: rest => (p ++ sep ++ join sep rest)%string
  end.

Definition printZ (n : Z) : string :=
  DecimalString.NilZero.string_of_int (Z.to_int n).

Fixpoint stringify (v : value) : option string :=
  match v with
  | VUndefined => None
  | VNull => Some "null"
  | VBool true => Some "true"
  | VBool false => Some "false"
  | VNum n => Some (printZ n)
  | VStr s => Some (quote s)
  | VArr items =>
      let item i := match stringify i with Some t => t | None => "null" end in
      Some ("[" ++ join "," (map item items) ++ "]")%string
  | VObj fields =>
      let field (kv : string * value) :=
        match stringify (snd kv) with
        | Some t => [(quote (fst kv) ++ ":" ++ t)%string]
        | None => []
        end in
      Some ("{" ++ join "," (concat (map field fields)) ++ "}")%string
  end.

Definition isDigit (c : ascii) : bool :=
  let n := nat_of_ascii c in ((48 <=? n) && (n <=? 57))%nat.

Fixpoint span (p : ascii -> bool) (s : string) : string * string :=
  match s with
  | EmptyString => (EmptyString, EmptyString)
  | String c rest =>
      if p c then let '(a, b) := span p rest in (String c a, b)
      else (EmptyString, s)
  end.

(** The text of a string literal whose opening quote was consumed. *)
Definition readString (s : string) : option (string * string) :=
  let '(body, rest) := span (fun c => negb (Ascii.eqb c dquote)) s in
  match rest with
  | String _ rest => Some (body, rest)
  | EmptyString => None
  end.

Fixpoint digitsValue (ds : string) (acc : Z) : Z :=
  match ds with
  | EmptyString => acc
  | String c rest => digitsValue rest (acc * 10 + Z.of_nat (nat_of_ascii c) - 48)
  end.

Definition readNumber (s : string) : option (Z * string) :=
  let '(negative, s) :=
    match s with
    | String c rest => if Ascii.eqb c "-"%char then (true, rest) else (false, s)
    | EmptyString => (false, s)
    end in
  let '(ds, rest) := span isDigit s in
  match ds with
  | EmptyString => None
  | _ => Some (if negative then - digitsValue ds 0 else digitsValue ds 0, rest)
  end.

Fixpoint stripPrefix (p s : string) : option string :=
  match p, s with
  | EmptyString, _ => Some s
  | String a p', String b s' => if Ascii.eqb a b then stripPrefix p' s' else None
  | _, _ => None
  end.

(** [item (, item)* ]] *)
Fixpoint parseItems (fuel : nat) (item : string -> option (value * string))
    (s : string) : option (list value * string) :=
  match fuel with
  | O => None
  | S fuel =>
      match item s with
      | Some (v, String c rest) =>
          if Ascii.eqb c ","%char then
            match parseItems fuel item rest with
            | Some (vs, rest) => Some (v :: vs, rest)
            | None => None
            end
          else if Ascii.eqb c "]"%char then Some ([v], rest)
          else None
      | _ => None
      end
  end.

(** [key : item (, key : item)* }] *)
Fixpoint parseFields (fuel : nat) (item : string -> option (value * string))
    (s : string) : option (list (string * value) * string) :=
  match fuel with
  | O => None
  | S fuel =>
      match s with
      | String q s =>
          if Ascii.eqb q dquote then
            match readString s with
            | Some (key, String colon s) =>
                if Ascii.eqb colon ":"%char then
                  match item s with
                  | Some (v, String c rest) =>
                      if Ascii.eqb c ","%char then
                        match parseFields fuel item rest with
                        | Some (kvs, rest) => Some ((key, v) :: kvs, rest)
                        | None => None
                        end
                      else if Ascii.eqb c "}"%char then Some ([(key, v)], rest)
                      else None
                  | _ => None
                  end
                else None
            | _ => None
            end
          else None
      | EmptyString => None
      end
  end.

Fixpoint parseValue (fuel : nat) (s : string) : option (value * string) :=
  match fuel with
  | O => None
  | S fuel =>
      match stripPrefix "null" s, stripPrefix "true" s, stripPrefix "false" s,
            stripPrefix "[]" s, stripPrefix "{}" s with
      | Some rest, _, _, _, _ => Some (VNull, rest)
      | _, Some rest, _, _, _ => Some (VBool true, rest)
      | _, _, Some rest, _, _ => Some (VBool false, rest)
      | _, _, _, Some rest, _ => Some (VArr [], rest)
      | _, _, _, _, Some rest => Some (VObj [], rest)
      | None, None, None, None, None =>
          match s with
          | EmptyString => None
          | String c rest =>
              if Ascii.eqb c dquote then
                match readString rest with
                | Some (t, rest) => Some (VStr t, rest)
                | None => None
                end
              else if Ascii.eqb c "["%char then
                match parseItems (String.length s) (parseValue fuel) rest with
                | Some (vs, rest) => Some (VArr vs, rest)
                | None => None
                end
              else if Ascii.eqb c "{"%char then
                match parseFields (String.length s) (parseValue fuel) rest with
                | Some (kvs, rest) => Some (VObj kvs, rest)
                | None => None
                end
              else
                match readNumber s with
                | Some (n, rest) => Some (VNum n, rest)
                | None => None
                end
          end
      end
  end.

Definition parse (s : string) : option value :=
  match parseValue (String.length s) s with
  | Some (v, EmptyString) => Some v
  | _ => None
  end.

(** [Number(s)] on a run of decimal digits. *)
Definition number (s : string) : option Q :=
  match span isDigit s with
  | (String c ds, EmptyString) => Some (inject_Z (digitsValue (String c ds) 0))
  | _ => None
  end.

(** A runtime without [btoa]/[atob]. *)
Definition runtime : Runtime :=
  {| JSON_stringify := stringify; JSON_parse := parse;
     btoa := fun _ => None; atob := fun _ => None; ToNumber := number |}.

(** A save manager with the default options, an empty storage, and a
    small game state. *)
Definition demoConfig : Config :=
  {| storageKey := "game-save"; useCompression := false |}.

Definition demoWorld : World :=
  {| localStorage := ∅; now := 1700000000000; emitted := [] |}.

Definition demoData : value :=
  VObj [("score", VNum 42); ("name", VStr "ann");
        ("items", VArr [VNum 1; VNull; VBool true; VNum (-3)])].

Definition text_of (v : value) : string :=
  match stringify v with
  | Some t => t
  | None => EmptyString
  end.

Definition demoHash : string :=
  match generateHash runtime demoData with
  | Some h => h
  | None => EmptyString
  end.

(** An envelope from which the [hash] field was deleted. *)
Definition demoStripped : value :=
  VObj [("version", VStr getVersion); ("timestamp", VNum 1700000000000);
        ("data", demoData)].

Definition demoStrippedWorld : World :=
  setItem (storageKey demoConfig) (text_of demoStripped) demoWorld.

End MiniJSON.

(** ** ReactiveEventBus.ts: the double-click detector *)

Module ReactiveEventBus.

Section DoubleClick.
Context {A : Type}.

(** An event on the bus: [emit(eventName, data)]. *)
Definition BusEvent : Type := string * A.

(** [filter(events => events.length === 2)] then [map(events => events[1])]
    on one emitted buffer. *)
Definition secondOfTwo (events : list A) : option A :=
  if (length events =? 2)%nat then events !! 1%nat else None.

Definition derive (buffers : list (Z * list A)) : list (Z * A) :=
  omap (fun '(t, events) => pair t <$> secondOfTwo events) buffers.

(** The subscription returned by [doubleClick(eventName, timeWindow)]:
    the state of its [bufferTime]. *)
Definition doubleClick_subscribe (timeWindow now : Z) : Rx.BufferTime A :=
  Rx.bufferTime_subscribe timeWindow now.

(** Time moves on to [now]. *)
Definition doubleClick_advance (timeWindow now : Z) (st : Rx.BufferTime A)
  : list (Z * A) * Rx.BufferTime A :=
  let '(buffers, st) := Rx.bufferTime_advance timeWindow now st in
  (derive buffers, st).

(** [emit(name, data)] at time [now]; only [stream(eventName)] feeds the
    detector. *)
Definition doubleClick_emit (eventName : string) (timeWindow now : Z)
    (e : BusEvent) (st : Rx.BufferTime A) : list (Z * A) * Rx.BufferTime A :=
  let '(out, st) := doubleClick_advance timeWindow now st in
  (out, if String.eqb (fst e) eventName then Rx.bufferTime_next (snd e) st
        else st).

Fixpoint doubleClick_run (eventName : string) (timeWindow : Z)
    (events : list (Z * BusEvent)) (st : Rx.BufferTime A)
  : list (Z * A) * Rx.BufferTime A :=
  match events with
  | [] => ([], st)
  | (now, e) :: rest =>
      let '(out, st) := doubleClick_emit eventName timeWindow now e st in
      let '(out', st) := doubleClick_run eventName timeWindow rest st in
      (out ++ out', st)
  end.

(** What a subscriber of [doubleClick(eventName, timeWindow)], subscribed
    at [start], has received by the time [horizon], with the time of each
    derived event. *)
Definition doubleClick (eventName : string) (timeWindow start : Z)
    (events : list (Z * BusEvent)) (horizon : Z) : list (Z * A) :=
  let '(out, st) :=
    doubleClick_run eventName timeWindow events
      (doubleClick_subscribe timeWindow start) in
  out ++ fst (doubleClick_advance timeWindow horizon st).

End DoubleClick.

(** Events named [name] at the given times, each carrying its own time. *)
Definition clicks (name : string) (times : list Z) : list (Z * (string * Z)) :=
  map (fun t => (t, (name, t))) times.

End ReactiveEventBus.

(** The detector as a function of fixed windows.  Time is cut into
    consecutive windows of [timeWindow] ms counted from the subscription
    at [start]; window [k] lasts from [start + k * timeWindow] up to, but
    not including, its close. *)

Module ReactiveEventBusSpec.

Section FixedWindows.
Context {A : Type}.

(** The number of the window into which the time [t] falls, and the time
    at which window [k] closes. *)
Definition windowOf (timeWindow start t : Z) : Z := (t - start) / timeWindow.

Definition closeOf (timeWindow start k : Z) : Z := start + (k + 1) * timeWindow.

(** The payloads emitted on the channel [eventName] during window [k]. *)
Definition arrivals (eventName : string) (timeWindow start k : Z)
    (events : list (Z * (string * A))) : list A :=
  map (fun e => snd (snd e))
    (List.filter
       (fun e => String.eqb (fst (snd e)) eventName
                 && (windowOf timeWindow start (fst e) =? k))
       events).

(** A window with exactly two arrivals yields the second of them. *)
Definition collapse (arrived : list A) : option A :=
  match arrived with
  | [_; second] => Some second
  | _ => None
  end.

(** One derived event, at its close, for every window closed by [horizon]
    during which exactly two events arrived; nothing for the others. *)
Definition fixedWindows (eventName : string) (timeWindow start : Z)
    (events : list (Z * (string * A))) (horizon : Z) : list (Z * A) :=
  omap (fun k => pair (closeOf timeWindow start k)
                   <$> collapse (arrivals eventName timeWindow start k events))
    (seqZ 0 (windowOf timeWindow start horizon)).

(** What the buffer [st], open during window [j], contributes to window
    [k]: its content when [k] is that window. *)
Definition pending (st : Rx.BufferTime A) (j k : Z) : list A :=
  if k =? j then Rx.buffer st else [].

End FixedWindows.

End ReactiveEventBusSpec.
(** ** ReactiveEventBus.ts: the other reactive patterns

    Each pattern is a pipeline on [stream(eventName)].  The events are
    those emitted on the bus after the pattern was subscribed, with their
    times; a pattern sees the events of its own channels only. *)

Module ReactiveEventBusPatterns.

Section Patterns.
Context {A : Type}.

(** The values [stream(eventName)] delivers. *)
Definition stream (eventName : string) (events : list (Z * (string * A)))
  : list (Z * A) :=
  omap (fun e => if String.eqb (fst (snd e)) eventName
                 then Some (fst e, snd (snd e)) else None) events.

(** *** [throttledInput]: [throttleTime(interval)], leading edge only *)

Fixpoint throttleTime_run (duration : Z) (values : list (Z * A))
    (timer : option Z) : list (Z * A) :=
  match values with
  | [] => []
  | (now, x) :: rest =>
      let '(pass, timer) := Rx.throttleTime duration now timer in
      (if pass then [(now, x)] else [])
      ++ throttleTime_run duration rest timer
  end.

Definition throttledInput (eventName : string) (interval : Z)
    (events : list (Z * (string * A))) : list (Z * A) :=
  throttleTime_run interval (stream eventName events) None.

(** *** [debouncedInput]: [debounceTime(delay)]

    The operator keeps the latest value and one timer, restarted by
    every value; the timer emits the value it finds. *)

Fixpoint debounceTime_run (dueTime : Z) (values : list (Z * A))
    (pending : option (A * Z)) : list (Z * A) * option (A * Z) :=
  match values with
  | [] => ([], pending)
  | (now, x) :: rest =>
      let '(fired, _) := Rx.timer_advance now pending in
      let '(out, pending) :=
        debounceTime_run dueTime rest (Some (x, now + dueTime)) in
      (option_list fired ++ out, pending)
  end.

(** What a subscriber has received by the time [horizon]. *)
Definition debouncedInput (eventName : string) (delay : Z)
    (events : list (Z * (string * A))) (horizon : Z) : list (Z * A) :=
  let '(out, pending) :=
    debounceTime_run delay (stream eventName events) None in
  out ++ option_list (fst (Rx.timer_advance horizon pending)).

(** *** [createStreakDetector]: [scan], [filter], [distinctUntilChanged] *)

Fixpoint streak_run (streakLength : Z) (values : list (Z * A))
    (streak : Z) (previous : option Z) : list (Z * Z) :=
  match values with
  | [] => []
  | (now, _) :: rest =>
      let streak := streak + 1 in
      if streakLength <=? streak then
        if match previous with
           | Some p => p =? streak
           | None => false
           end
        then streak_run streakLength rest streak previous
        else (now, streak) :: streak_run streakLength rest streak (Some streak)
      else streak_run streakLength rest streak previous
  end.

Definition createStreakDetector (eventName : string) (streakLength : Z)
    (events : list (Z * (string * A))) : list (Z * Z) :=
  streak_run streakLength (stream eventName events) 0 None.

(** *** [longPress]: [switchMap] to a [timer] cut off by the end stream *)

Inductive Press :=
| press_start (data : A)      (* on [`${eventName}:start`] *)
| press_end.                  (* on [`${eventName}:end`] *)

Definition presses (eventName : string) (events : list (Z * (string * A)))
  : list (Z * Press) :=
  omap (fun e =>
          if String.eqb (fst (snd e)) (eventName ++ ":start")
          then Some (fst e, press_start (snd (snd e)))
          else if String.eqb (fst (snd e)) (eventName ++ ":end")
          then Some (fst e, press_end)
          else None) events.

Fixpoint longPress_run (duration : Z) (values : list (Z * Press))
    (timer : option (A * Z)) : list (Z * A) * option (A * Z) :=
  match values with
  | [] => ([], timer)
  | (now, p) :: rest =>
      let '(fired, timer) := Rx.timer_advance now timer in
      let timer :=
        match p with
        | press_start data => Some (data, now + duration)
        | press_end => None
        end in
      let '(out, timer) := longPress_run duration rest timer in
      (option_list fired ++ out, timer)
  end.

Definition longPress (eventName : string) (duration : Z)
    (events : list (Z * (string * A))) (horizon : Z) : list (Z * A) :=
  let '(out, timer) := longPress_run duration (presses eventName events) None in
  out ++ option_list (fst (Rx.timer_advance horizon timer)).

End Patterns.

(** *** [swipeGesture] and [calculateSwipe] *)

(** The payload of ['touch:start'] and ['touch:end']; coordinates in
    whole pixels, time stamps in whole milliseconds. *)
Record TouchEvent := {
  x : Z;
  y : Z;
  timestamp : Z
}.

Inductive Direction := up | down | left | right.

(** [velocity < 0.5] for [velocity = Math.sqrt(d2) / deltaTime], decided
    without the square root and the quotient.  For a positive
    [deltaTime] the test is [4 * d2 < deltaTime^2].  A [deltaTime] of zero
    makes the quotient [Infinity], or [NaN] when nothing moved, and
    neither is below 0.5; a negative one makes it negative or [-0]. *)
Definition velocityBelowHalf (d2 deltaTime : Z) : bool :=
  if 0 <? deltaTime then 4 * d2 <? deltaTime * deltaTime
  else deltaTime <? 0.

(** [calculateSwipe(start, end)]: the direction of the swipe, or [None]
    for [null].  The result also carries the velocity, the quotient that
    [velocityBelowHalf] decides. *)
Definition calculateSwipe (start end_ : TouchEvent) : option Direction :=
  let deltaX := x end_ - x start in
  let deltaY := y end_ - y start in
  let deltaTime := timestamp end_ - timestamp start in
  if 300 <? deltaTime then None   (* Too slow *)
  else if velocityBelowHalf (deltaX * deltaX + deltaY * deltaY) deltaTime
  then None   (* Too slow *)
  else if Z.abs deltaY <? Z.abs deltaX
  then Some (if 0 <? deltaX then right else left)
  else Some (if 0 <? deltaY then down else up).

Inductive Touching :=
| touch_start (e : TouchEvent)     (* on ['touch:start'] *)
| touch_end (e : TouchEvent).      (* on ['touch:end'] *)

Definition touching (events : list (Z * (string * TouchEvent)))
  : list (Z * Touching) :=
  omap (fun e =>
          if String.eqb (fst (snd e)) "touch:start"
          then Some (fst e, touch_start (snd (snd e)))
          else if String.eqb (fst (snd e)) "touch:end"
          then Some (fst e, touch_end (snd (snd e)))
          else None) events.

(** The [switchMap] holds the start event while its inner subscription,
    ended by [take(1)], waits for a touch end. *)
Fixpoint swipeGesture_run (values : list (Z * Touching))
    (inner : option TouchEvent) : list (Z * Direction) :=
  match values with
  | [] => []
  | (now, touch_start startEvent) :: rest =>
      swipeGesture_run rest (Some startEvent)
  | (now, touch_end endEvent) :: rest =>
      match inner with
      | Some startEvent =>
          match calculateSwipe startEvent endEvent with
          | Some swipe => [(now, swipe)]
          | None => []
          end ++ swipeGesture_run rest None
      | None => swipeGesture_run rest None
      end
  end.

Definition swipeGesture (events : list (Z * (string * TouchEvent)))
  : list (Z * Direction) :=
  swipeGesture_run (touching events) None.

(** *** [combo]: [buffer] closed by the debounced ['combo-reset'] stream

    For a combo of at least one name: [merge] of no stream at all
    completes at once, and the pipeline with it. *)

Definition comboReset : string := "combo-reset".

(** The open buffer of [buffer] and the timer of the [debounceTime] on
    its closing notifier. *)
Record Combo := {
  sequence : list string;
  resetDue : option Z
}.

(** The two filters: the length of the sequence, then
    [eventNames.every((event, index) => sequence[index] === event)]. *)
Definition matches (eventNames sequence : list string) : bool :=
  (length sequence =? length eventNames)%nat
  && forallb (fun ie => match sequence !! fst ie with
                        | Some s => String.eqb s (snd ie)
                        | None => false
                        end)
       (imap pair eventNames).

(** Time moves on to [now]: a due notifier closes the buffer. *)
Definition combo_advance (eventNames : list string) (now : Z) (st : Combo)
  : list (Z * list string) * Combo :=
  match resetDue st with
  | Some due =>
      if now <? due then ([], st)
      else ((if matches eventNames (sequence st)
             then [(due, sequence st)] else []),
            {| sequence := []; resetDue := None |})
  | None => ([], st)
  end.

(** [emit(name)] at time [now].  [merge(...streams)] subscribes to the
    subject of [name] once for every occurrence of [name] in
    [eventNames], and each subscription delivers the name; an emission on
    ['combo-reset'] restarts the timer of the notifier. *)
Definition combo_emit (eventNames : list string) (timeWindow now : Z)
    (name : string) (st : Combo) : list (Z * list string) * Combo :=
  let '(out, st) := combo_advance eventNames now st in
  (out,
   {| sequence :=
        sequence st ++ repeat name (count_occ string_dec eventNames name);
      resetDue :=
        if String.eqb name comboReset then Some (now + timeWindow)
        else resetDue st |}).

Fixpoint combo_run (eventNames : list string) (timeWindow : Z)
    (events : list (Z * string)) (st : Combo)
  : list (Z * list string) * Combo :=
  match events with
  | [] => ([], st)
  | (now, name) :: rest =>
      let '(out, st) := combo_emit eventNames timeWindow now name st in
      let '(out', st) := combo_run eventNames timeWindow rest st in
      (out ++ out', st)
  end.

(** What a subscriber of [combo(eventNames, timeWindow)] has received by
    the time [horizon]. *)
Definition combo (eventNames : list string) (timeWindow : Z)
    (events : list (Z * string)) (horizon : Z) : list (Z * list string) :=
  let '(out, st) :=
    combo_run eventNames timeWindow events
      {| sequence := []; resetDue := None |} in
  out ++ fst (combo_advance eventNames horizon st).

End ReactiveEventBusPatterns.

(** Vocabulary for the properties of the patterns. *)

Module ReactiveEventBusPatternsSpec.

Section Lookahead.
Context {A : Type}.

(** The time of the next value, or [horizon] after the last one. *)
Definition nextTime {B} (rest : list (Z * B)) (horizon : Z) : Z :=
  match rest with
  | (t, _) :: _ => t
  | [] => horizon
  end.

(** The values that are followed by a pause of [delay] ms, each delivered
    at the end of its pause. *)
Fixpoint followedByPause (delay horizon : Z) (values : list (Z * A))
  : list (Z * A) :=
  match values with
  | [] => []
  | (t, x) :: rest =>
      (if t + delay <=? nextTime rest horizon then [(t + delay, x)] else [])
      ++ followedByPause delay horizon rest
  end.

(** The presses that last [duration] ms without a further start or end,
    each reported when it has lasted that long. *)
Fixpoint heldFor (duration horizon : Z)
    (values : list (Z * ReactiveEventBusPatterns.Press (A := A)))
  : list (Z * A) :=
  match values with
  | [] => []
  | (t, ReactiveEventBusPatterns.press_start data) :: rest =>
      (if t + duration <=? nextTime rest horizon
       then [(t + duration, data)] else [])
      ++ heldFor duration horizon rest
  | (t, ReactiveEventBusPatterns.press_end) :: rest =>
      heldFor duration horizon rest
  end.

End Lookahead.

Definition isStart (v : Z * ReactiveEventBusPatterns.Touching) : bool :=
  match snd v with
  | ReactiveEventBusPatterns.touch_start _ => true
  | ReactiveEventBusPatterns.touch_end _ => false
  end.

End ReactiveEventBusPatternsSpec.
(** ** ReactiveEventBus.ts: the performance monitor

    [createPerformanceMonitor()] counts the animation frames of each
    second.  Times, read from [performance.now()], are whole
    milliseconds here. *)

Module ReactiveEventBusMonitor.

(** [Math.round(a / b)] for a positive [b]: the nearest whole number,
    halves going up. *)
Definition roundDiv (a b : Z) : Z := (2 * a + b) / (2 * b).

(** The variables [lastTime] and [frameCount] of one subscription. *)
Record Monitor := {
  lastTime : Z;
  frameCount : Z
}.

(** [memory]: [Math.round(usedJSHeapSize / 1024 / 1024)] where the
    browser reports [performance.memory], else 0. *)
Definition memoryMB (usedJSHeapSize : option Z) : Z :=
  match usedJSHeapSize with
  | Some bytes => roundDiv bytes (1024 * 1024)
  | None => 0
  end.

(** [measureFrame()] at time [currentTime]: what it passes to
    [observer.next], if anything, as [(fps, memory)]. *)
Definition measureFrame (currentTime : Z) (usedJSHeapSize : option Z)
    (st : Monitor) : option (Z * Z) * Monitor :=
  let frameCount := frameCount st + 1 in
  if 1000 <=? currentTime - lastTime st then
    let fps := roundDiv (frameCount * 1000) (currentTime - lastTime st) in
    let memory := memoryMB usedJSHeapSize in
    (Some (fps, memory), {| lastTime := currentTime; frameCount := 0 |})
  else (None, {| lastTime := lastTime st; frameCount := frameCount |}).

(** Subscribing at time [now] sets [lastTime] and calls [measureFrame]
    once, which counts a first frame and requests the next one. *)
Definition subscribe (now : Z) : Monitor :=
  {| lastTime := now; frameCount := 1 |}.

(** The animation frames that follow, each with its time and the heap
    size read in it; the reports come with the time of their frame. *)
Fixpoint frames_run (frames : list (Z * option Z)) (st : Monitor)
  : list (Z * (Z * Z)) * Monitor :=
  match frames with
  | [] => ([], st)
  | (currentTime, heap) :: rest =>
      let '(report, st) := measureFrame currentTime heap st in
      let '(out, st) := frames_run rest st in
      (match report with
       | Some r => [(currentTime, r)]
       | None => []
       end ++ out, st)
  end.

(** [count] frames, one every [period] ms after [start]. *)
Definition steady (start period : Z) (heap : option Z) (count : nat)
  : list (Z * option Z) :=
  map (fun i => (start + Z.of_nat i * period, heap)) (seq 1 count).

End ReactiveEventBusMonitor.

(** ** GestureManager.ts: tap, double-tap, swipe and long-press detection

    The four single-finger detectors are independent pipelines over the
    same touch events.  Each is modelled by the state its operators hold
    between events: the inner subscription of a [switchMap] with the due
    time of its timer, or the buffer of [bufferTime].  Pinch detection
    listens to two-finger starts only, emits scale ratios and shares no
    state with the others; it is not part of this model. *)

Module GestureManager.

(** A DOM [Touch]. *)
Record Touch := {
  identifier : Z;
  clientX : Z;
  clientY : Z
}.

Record TouchPoint := {
  id : Z;
  x : Z;
  y : Z;
  timestamp : Z
}.

(** The DOM touch events the manager listens to.  [touches] is never
    empty on [touchstart] and [touchmove], [changedTouches] never on
    [touchend]; the constructors carry the first element apart. *)
Inductive TouchEvent :=
| touchstart (timeStamp : Z) (touch0 : Touch) (others : list Touch)
| touchmove (timeStamp : Z) (touch0 : Touch) (others : list Touch)
| touchend (timeStamp : Z) (touches : list Touch) (changed0 : Touch).

Definition timeStamp (e : TouchEvent) : Z :=
  match e with
  | touchstart t _ _ | touchmove t _ _ | touchend t _ _ => t
  end.

(** The [config] field. *)
Record Config := {
  tapTimeout : Z;
  doubleTapInterval : Z;
  longPressDelay : Z;
  swipeMinDistance : Z;
  swipeMaxTime : Z;
  pinchMinDistance : Z
}.

Definition config : Config :=
  {| tapTimeout := 300; doubleTapInterval := 300; longPressDelay := 500;
     swipeMinDistance := 50; swipeMaxTime := 300; pinchMinDistance := 10 |}.

(** The corner of [element.getBoundingClientRect()]. *)
Record Rect := {
  rect_left : Z;
  rect_top : Z
}.

(** [getTouchPoint(touch)], called at time [now]. *)
Definition getTouchPoint (rect : Rect) (now : Z) (touch : Touch) : TouchPoint :=
  {| id := identifier touch;
     x := clientX touch - rect_left rect;
     y := clientY touch - rect_top rect;
     timestamp := now |}.

(** [getDistance] takes a square root; its comparisons with a bound are
    decided on the squares. *)
Definition distance2 (touch1 touch2 : TouchPoint) : Z :=
  let deltaX := x touch2 - x touch1 in
  let deltaY := y touch2 - y touch1 in
  deltaX * deltaX + deltaY * deltaY.

(** [getDistance(a, b) < bound] *)
Definition distanceBelow (a b : TouchPoint) (bound : Z) : bool :=
  (0 <? bound) && (distance2 a b <? bound * bound).

(** [getDistance(a, b) > bound] *)
Definition distanceAbove (a b : TouchPoint) (bound : Z) : bool :=
  (bound <? 0) || (bound * bound <? distance2 a b).

Inductive GestureType :=
| tap | double_tap | long_press | swipe | pinch | rotate.

Inductive Direction := up | down | left | right.

(** The [data] payloads of the four gestures.  A swipe also reports its
    distance and velocity, a square root and a quotient of the fields
    kept here. *)
Inductive GestureData :=
| TapInfo (position : TouchPoint) (duration : Z)
| DoubleTapInfo (position : TouchPoint) (interval : Z)
| LongPressInfo (position : TouchPoint) (duration : Z)
| SwipeInfo (direction : Direction) (deltaX deltaY duration : Z).

(** A [GestureEvent]; [emitted] is its [timestamp] field. *)
Record GestureEvent := {
  type : GestureType;
  data : GestureData;
  touches : list TouchPoint;
  emitted : Z
}.

(** The value mapped out by [tap$]. *)
Record TapData := {
  startEvent : TouchEvent;
  endEvent : TouchEvent;
  touch : TouchPoint
}.

Record State := {
  tapInner : option (TouchEvent * Z);
    (* [tap$]: the start event of the live inner subscription and the due
       time of its [takeUntil(timer(tapTimeout))] *)
  tapTimer : option (TapData * Z);
    (* single tap: the pending [timer(doubleTapInterval)] *)
  tapBuffer : Rx.BufferTime TapData;
    (* double tap: [bufferTime(doubleTapInterval)] *)
  swipeInner : option (TouchPoint * Z * Z);
    (* swipe: start touch, start time stamp, due time of
       [takeUntil(timer(swipeMaxTime))] *)
  longPressTimer : option (TouchPoint * Z)
    (* long press: start touch and the pending [timer(longPressDelay)] *)
}.

(** [emitGesture(type, data, touches)] at time [now]. *)
Definition emitGesture (now : Z) (type : GestureType) (data : GestureData)
    (touches : list TouchPoint) : GestureEvent :=
  {| type := type; data := data; touches := touches; emitted := now |}.

(** The subscriber of the single-tap pipeline. *)
Definition tapGesture (now : Z) (tapData : TapData) : GestureEvent :=
  emitGesture now tap
    (TapInfo (touch tapData)
       (timeStamp (endEvent tapData) - timeStamp (startEvent tapData)))
    [touch tapData].

(** The double-tap pipeline after [bufferTime]: the two filters and the
    subscriber. *)
Definition doubleTapGesture (now : Z) (taps : list TapData)
  : option GestureEvent :=
  match taps with
  | [tap0; tap1] =>
      if distanceBelow (touch tap0) (touch tap1) 50 then
        Some (emitGesture now double_tap
                (DoubleTapInfo (touch tap1)
                   (timeStamp (endEvent tap1) - timeStamp (endEvent tap0)))
                [touch tap1])
      else None
  | _ => None
  end.

(** The subscriber of the long-press pipeline. *)
Definition longPressGesture (cfg : Config) (now : Z) (touch : TouchPoint)
  : GestureEvent :=
  emitGesture now long_press (LongPressInfo touch (longPressDelay cfg)) [touch].

(** The subscriber of the swipe pipeline. *)
Definition swipeGesture (now : Z) (start end_ : TouchPoint) (duration : Z)
  : GestureEvent :=
  let deltaX := x end_ - x start in
  let deltaY := y end_ - y start in
  let direction :=
    if Z.abs deltaY <? Z.abs deltaX
    then (if 0 <? deltaX then right else left)
    else (if 0 <? deltaY then down else up) in
  emitGesture now swipe (SwipeInfo direction deltaX deltaY duration)
    [start; end_].

(** Gesture events are kept in the order of their time stamps. *)
Fixpoint insertByTime (g : GestureEvent) (l : list GestureEvent)
  : list GestureEvent :=
  match l with
  | [] => [g]
  | h :: rest =>
      if emitted g <? emitted h then g :: l else h :: insertByTime g rest
  end.

Definition byTime (l : list GestureEvent) : list GestureEvent :=
  foldr insertByTime [] l.

(** The constructor at time [now]: only [bufferTime] starts a timer. *)
Definition construct (cfg : Config) (now : Z) : State :=
  {| tapInner := None; tapTimer := None;
     tapBuffer := Rx.bufferTime_subscribe (doubleTapInterval cfg) now;
     swipeInner := None; longPressTimer := None |}.

(** Time moves on to [now]: the timers due by then fire.  The two
    [takeUntil] timers end their inner subscriptions silently; the tap
    timer, the buffer timer and the long-press timer call their
    subscribers. *)
Definition advance (cfg : Config) (now : Z) (st : State)
  : list GestureEvent * State :=
  let tapInner' :=
    match tapInner st with
    | Some (_, due) => if now <? due then tapInner st else None
    | None => None
    end in
  let '(tapFired, tapTimer') := Rx.timer_advance now (tapTimer st) in
  let '(buffers, tapBuffer') :=
    Rx.bufferTime_advance (doubleTapInterval cfg) now (tapBuffer st) in
  let swipeInner' :=
    match swipeInner st with
    | Some (_, _, due) => if now <? due then swipeInner st else None
    | None => None
    end in
  let '(longPressFired, longPressTimer') :=
    Rx.timer_advance now (longPressTimer st) in
  (byTime
     (match tapFired with
      | Some (due, tapData) => [tapGesture due tapData]
      | None => []
      end
      ++ omap (fun '(due, taps) => doubleTapGesture due taps) buffers
      ++ match longPressFired with
         | Some (due, touch) => [longPressGesture cfg due touch]
         | None => []
         end),
   {| tapInner := tapInner'; tapTimer := tapTimer'; tapBuffer := tapBuffer';
      swipeInner := swipeInner'; longPressTimer := longPressTimer' |}).

(** [tap$] emits [tapData]: the single-tap [switchMap] replaces its timer
    and the buffer of the double-tap pipeline takes the value. *)
Definition onTap (cfg : Config) (now : Z) (tapData : TapData) (st : State)
  : State :=
  {| tapInner := tapInner st;
     tapTimer := Some (tapData, now + doubleTapInterval cfg);
     tapBuffer := Rx.bufferTime_next tapData (tapBuffer st);
     swipeInner := swipeInner st; longPressTimer := longPressTimer st |}.

(** A [touchstart] with [e.touches.length === 1]: the three [switchMap]s
    drop their inner subscriptions and start new ones. *)
Definition onSingleStart (cfg : Config) (rect : Rect) (e : TouchEvent)
    (touch0 : Touch) (st : State) : State :=
  let now := timeStamp e in
  let startTouch := getTouchPoint rect now touch0 in
  {| tapInner := Some (e, now + tapTimeout cfg);
     tapTimer := tapTimer st;
     tapBuffer := tapBuffer st;
     swipeInner := Some (startTouch, now, now + swipeMaxTime cfg);
     longPressTimer := Some (startTouch, now + longPressDelay cfg) |}.

(** The first touch point of the start event, read at time [now]. *)
Definition startTouchOf (rect : Rect) (now : Z) (e : TouchEvent) : TouchPoint :=
  match e with
  | touchstart _ touch0 _ | touchmove _ touch0 _ | touchend _ _ touch0 =>
      getTouchPoint rect now touch0
  end.

(** A [touchend]: the tap filter, the swipe filter and subscriber, and the
    [takeUntil(touchEnd$)] of the long press. *)
Definition onEnd (cfg : Config) (rect : Rect) (e : TouchEvent)
    (changed0 : Touch) (st : State) : list GestureEvent * State :=
  let now := timeStamp e in
  let endTouch := getTouchPoint rect now changed0 in
  let st :=
    match tapInner st with
    | Some (startEvent, _) =>
        if distanceBelow (startTouchOf rect now startEvent) endTouch 10
        then onTap cfg now
               {| startEvent := startEvent; endEvent := e; touch := endTouch |}
               st
        else st
    | None => st
    end in
  let swipes :=
    match swipeInner st with
    | Some (startTouch, startTime, _) =>
        if negb (distanceBelow startTouch endTouch (swipeMinDistance cfg))
        then [swipeGesture now startTouch endTouch (now - startTime)]
        else []
    | None => []
    end in
  (swipes,
   {| tapInner := tapInner st; tapTimer := tapTimer st;
      tapBuffer := tapBuffer st; swipeInner := swipeInner st;
      longPressTimer := None |}).

(** A [touchmove]: the second [takeUntil] of the long press. *)
Definition onMove (rect : Rect) (e : TouchEvent) (touch0 : Touch) (st : State)
  : State :=
  match longPressTimer st with
  | Some (startTouch, _) =>
      if distanceAbove startTouch (getTouchPoint rect (timeStamp e) touch0) 10
      then {| tapInner := tapInner st; tapTimer := tapTimer st;
              tapBuffer := tapBuffer st; swipeInner := swipeInner st;
              longPressTimer := None |}
      else st
  | None => st
  end.

(** One DOM event: first the timers due by its time stamp, then its
    listeners. *)
Definition onEvent (cfg : Config) (rect : Rect) (e : TouchEvent) (st : State)
  : list GestureEvent * State :=
  let '(fired, st) := advance cfg (timeStamp e) st in
  match e with
  | touchstart _ touch0 [] => (fired, onSingleStart cfg rect e touch0 st)
  | touchstart _ _ (_ :: _) => (fired, st)
  | touchmove _ touch0 _ => (fired, onMove rect e touch0 st)
  | touchend _ _ changed0 =>
      let '(swipes, st) := onEnd cfg rect e changed0 st in
      (fired ++ swipes, st)
  end.

Fixpoint run (cfg : Config) (rect : Rect) (events : list TouchEvent)
    (st : State) : list GestureEvent * State :=
  match events with
  | [] => ([], st)
  | e :: rest =>
      let '(out, st) := onEvent cfg rect e st in
      let '(out', st) := run cfg rect rest st in
      (out ++ out', st)
  end.

(** What a subscriber of [getGestureEvents()] has received by the time
    [horizon], for a manager in state [st]. *)
Definition observe (cfg : Config) (rect : Rect) (events : list TouchEvent)
    (horizon : Z) (st : State) : list GestureEvent :=
  let '(out, st) := run cfg rect events st in
  out ++ fst (advance cfg horizon st).

(** The same for a manager constructed at time [start]. *)
Definition recognize (cfg : Config) (rect : Rect) (start : Z)
    (events : list TouchEvent) (horizon : Z) : list GestureEvent :=
  observe cfg rect events horizon (construct cfg start).

(** Vocabulary for the properties. *)

Definition isSingleStart (e : TouchEvent) : bool :=
  match e with
  | touchstart _ _ [] => true
  | _ => false
  end.

(** A pointer-up, or a move further than 10 px from [startTouch]. *)
Definition disqualifies (rect : Rect) (startTouch : TouchPoint)
    (e : TouchEvent) : bool :=
  match e with
  | touchend _ _ _ => true
  | touchmove now touch0 _ =>
      distanceAbove startTouch (getTouchPoint rect now touch0) 10
  | touchstart _ _ _ => false
  end.

Definition GestureType_eqb (a b : GestureType) : bool :=
  match a, b with
  | tap, tap | double_tap, double_tap | long_press, long_press
  | swipe, swipe | pinch, pinch | rotate, rotate => true
  | _, _ => false
  end.

(** The events of one type among [l]. *)
Definition ofType (t : GestureType) (l : list GestureEvent)
  : list GestureEvent :=
  List.filter (fun g => GestureType_eqb (type g) t) l.

(** A finger put down at [p] at time [s] and lifted at [q] at time [e]. *)
Definition contact (s e : Z) (p q : Touch) : list TouchEvent :=
  [touchstart s p []; touchend e [] q].

(** A tap that took less than [tapTimeout]. *)
Definition shortTap (cfg : Config) (tapData : TapData) : Prop :=
  timeStamp (endEvent tapData) - timeStamp (startEvent tapData)
  < tapTimeout cfg.

(** What the data of a gesture event say about the gesture. *)
Definition sound (cfg : Config) (g : GestureEvent) : Prop :=
  match data g with
  | TapInfo _ duration => type g = tap /\ duration < tapTimeout cfg
  | DoubleTapInfo _ _ => type g = double_tap
  | LongPressInfo _ duration =>
      type g = long_press /\ duration = longPressDelay cfg
  | SwipeInfo _ deltaX deltaY duration =>
      type g = swipe /\ duration < swipeMaxTime cfg
      /\ (0 < swipeMinDistance cfg ->
          swipeMinDistance cfg * swipeMinDistance cfg
          <= deltaX * deltaX + deltaY * deltaY)
  end.

(** The timers of the inner subscriptions are those set at their start
    events, and the taps on hold are short. *)
Definition timersSet (cfg : Config) (st : State) : Prop :=
  (forall e due, tapInner st = Some (e, due) ->
                 due = timeStamp e + tapTimeout cfg)
  /\ (forall tapData due, tapTimer st = Some (tapData, due) ->
                          shortTap cfg tapData)
  /\ Forall (shortTap cfg) (Rx.buffer (tapBuffer st))
  /\ (forall p t due, swipeInner st = Some (p, t, due) ->
                      due = t + swipeMaxTime cfg).

(** No inner subscription has outlived its timer at time [now]. *)
Definition inTime (now : Z) (st : State) : Prop :=
  (forall e due, tapInner st = Some (e, due) -> now < due)
  /\ (forall p t due, swipeInner st = Some (p, t, due) -> now < due).

(** *** Contacts with move events *)

Definition isMove (e : TouchEvent) : bool :=
  match e with
  | touchmove _ _ _ => true
  | _ => false
  end.

(** The events [moves] are [touchmove] events between the times [s] and
    [e]. *)
Definition movesBetween (s e : Z) (moves : list TouchEvent) : Prop :=
  Forall (fun m => isMove m = true /\ s <= timeStamp m <= e) moves.

(** A finger put down at [p] at time [s], moved about, and lifted at [q]
    at time [e]. *)
Definition contactMoving (s e : Z) (p q : Touch) (moves : list TouchEvent)
  : list TouchEvent :=
  touchstart s p [] :: moves ++ [touchend e [] q].

(** The state with the long-press timer cancelled. *)
Definition cancelLongPress (st : State) : State :=
  {| tapInner := tapInner st; tapTimer := tapTimer st;
     tapBuffer := tapBuffer st; swipeInner := swipeInner st;
     longPressTimer := None |}.

(** Nothing is emitted up to the time [hi]: the tap timer and the
    long-press timer are due later, and so is the close of the tap buffer
    unless it is empty. *)
Definition quiet (hi : Z) (st : State) : Prop :=
  match tapTimer st with
  | Some (_, due) => hi < due
  | None => True
  end
  /\ (Rx.buffer (tapBuffer st) = [] \/ hi < Rx.bufferDue (tapBuffer st))
  /\ match longPressTimer st with
     | Some (_, due) => hi < due
     | None => True
     end.

End GestureManager.
(** ** GameStateManager.ts: the global game state

    The state is kept in a [BehaviorSubject]; every method computes a new
    state object and publishes it with [updateState].  Two subscriptions
    made in the constructor react to each published state by emitting on
    the event bus.  Numbers are whole numbers here, as the callers in the
    repository pass them, and the arithmetic on them is exact. *)

Module GameStateManager.

Record Position := {
  x : Z;
  y : Z
}.

Record Player := {
  id : string;
  level : Z;
  experience : Z;
  health : Z;
  maxHealth : Z;
  mana : Z;
  maxMana : Z;
  position : Position;
  inventory : list SaveManager.value
}.

Record Progress := {
  currentLevel : string;
  unlockedLevels : list string;
  achievements : list string;
  score : Z;
  highScore : Z
}.

Record Notification := {
  notificationId : string;       (* [id] *)
  type : string;
  message : string
}.

Record UI := {
  activeMenus : list string;
  notifications : list Notification;
  modal : option string          (* [string | null] *)
}.

Record Performance := {
  fps : Z;
  memory : Z;
  loadTime : Z
}.

Inductive Orientation := portrait | landscape.

Record Mobile := {
  orientation : Orientation;
  isTouch : bool;
  vibrationEnabled : bool
}.

Record GameState := {
  scene : string;
  loading : bool;
  paused : bool;
  player : Player;
  progress : Progress;
  ui : UI;
  performance : Performance;
  mobile : Mobile
}.

(** [Partial<GameState>]: the keys that are present. *)
Record Updates := {
  scene' : option string;
  loading' : option bool;
  paused' : option bool;
  player' : option Player;
  progress' : option Progress;
  ui' : option UI;
  performance' : option Performance;
  mobile' : option Mobile
}.

Definition noUpdates : Updates :=
  {| scene' := None; loading' := None; paused' := None; player' := None;
     progress' := None; ui' := None; performance' := None; mobile' := None |}.

(** [mergeState(current, updates)].  A primitive value replaces the old
    one.  An object value is spread over the old object,
    [{ ...merged[key], ...value }]; a value of the key's type has every
    field of that object, so the result is the value. *)
Definition mergeState (current : GameState) (updates : Updates) : GameState :=
  {| scene := default (scene current) (scene' updates);
     loading := default (loading current) (loading' updates);
     paused := default (paused current) (paused' updates);
     player := default (player current) (player' updates);
     progress := default (progress current) (progress' updates);
     ui := default (ui current) (ui' updates);
     performance := default (performance current) (performance' updates);
     mobile := default (mobile current) (mobile' updates) |}.

(** The calls of [eventBus.emit] made by the class. *)
Inductive Event :=
| game_autoSave (level experience : Z) (progress : Progress)
| player_healthCritical (current max : Z)
| state_updated (previous current : GameState)
| game_paused
| game_resumed
| player_levelUp (newLevel experience : Z)
| achievement_unlocked (achievementId : string)
| score_newHighScore (newHighScore : Z).

(** The manager: [state$.value], the previous value kept by the
    [distinctUntilChanged] of [orientationChange()], and the events
    emitted so far (oldest first). *)
Record Manager := {
  state : GameState;
  lastOrientation : option Orientation;
  emitted : list Event
}.

Definition emit (e : Event) (m : Manager) : Manager :=
  {| state := state m; lastOrientation := lastOrientation m;
     emitted := emitted m ++ [e] |}.

(** [health.percentage <= 20] for
    [percentage = (health / maxHealth) * 100].  With [maxHealth] zero the
    quotient is [Infinity], [NaN] or [-Infinity]; only the last, for a
    negative health, is at most 20. *)
Definition healthCritical (p : Player) : bool :=
  if maxHealth p =? 0 then health p <? 0
  else if 0 <? maxHealth p then 5 * health p <=? maxHealth p
  else maxHealth p <=? 5 * health p.

(** The two subscriptions of [setupStateReactions] on [state$].  Both go
    through [selectNested], whose selector builds a new object for every
    state; [distinctUntilChanged] compares objects by identity, so it lets
    every one of them pass.  The payload of ['player:healthCritical'] also
    carries the percentage. *)
Definition reactions (s : GameState) : list Event :=
  [game_autoSave (level (player s)) (experience (player s)) (progress s)]
  ++ (if healthCritical (player s)
      then [player_healthCritical (health (player s)) (maxHealth (player s))]
      else []).

(** [state$.next(newState)] *)
Definition next (newState : GameState) (m : Manager) : Manager :=
  {| state := newState; lastOrientation := lastOrientation m;
     emitted := emitted m ++ reactions newState |}.

(** [updateState(updates)] *)
Definition updateState (updates : Updates) (m : Manager) : Manager :=
  let currentState := state m in
  let newState := mergeState currentState updates in
  let m := next newState m in
  emit (state_updated currentState newState) m.

Definition getInitialState (hasTouch : bool) : GameState :=
  {| scene := "MainMenu"; loading := false; paused := false;
     player := {| id := "player"; level := 1; experience := 0;
                  health := 100; maxHealth := 100; mana := 50; maxMana := 50;
                  position := {| x := 0; y := 0 |}; inventory := [] |};
     progress := {| currentLevel := "level1"; unlockedLevels := ["level1"];
                    achievements := []; score := 0; highScore := 0 |};
     ui := {| activeMenus := []; notifications := []; modal := None |};
     performance := {| fps := 60; memory := 0; loadTime := 0 |};
     mobile := {| orientation := portrait; isTouch := hasTouch;
                  vibrationEnabled := true |} |}.

(** The constructor, with the outcome of ['ontouchstart' in window]:
    subscribing to the behaviour subject delivers the initial state to
    the two reactions. *)
Definition construct (hasTouch : bool) : Manager :=
  {| state := getInitialState hasTouch; lastOrientation := None;
     emitted := reactions (getInitialState hasTouch) |}.

(** *** UI state *)

Definition withModal (modal : option string) (u : UI) : UI :=
  {| activeMenus := activeMenus u; notifications := notifications u;
     modal := modal |}.

Definition withNotifications (l : list Notification) (u : UI) : UI :=
  {| activeMenus := activeMenus u; notifications := l; modal := modal u |}.

Definition updateUI (u : UI) : Updates :=
  {| scene' := None; loading' := None; paused' := None; player' := None;
     progress' := None; ui' := Some u; performance' := None;
     mobile' := None |}.

Definition showModal (modalId : string) (m : Manager) : Manager :=
  updateState (updateUI (withModal (Some modalId) (ui (state m)))) m.

Definition hideModal (m : Manager) : Manager :=
  updateState (updateUI (withModal None (ui (state m)))) m.

(** [addNotification(notification)] at time [now]: the id is
    [`notif_${Date.now()}`]. *)
Definition addNotification (now : Z) (type message : string) (m : Manager)
  : Manager :=
  let currentNotifications := notifications (ui (state m)) in
  let newNotification :=
    {| notificationId := "notif_" ++ MiniJSON.printZ now;
       type := type; message := message |} in
  updateState
    (updateUI (withNotifications (currentNotifications ++ [newNotification])
                 (ui (state m)))) m.

Definition removeNotification (id : string) (m : Manager) : Manager :=
  let currentNotifications := notifications (ui (state m)) in
  updateState
    (updateUI
       (withNotifications
          (List.filter (fun n => negb (String.eqb (notificationId n) id))
             currentNotifications)
          (ui (state m)))) m.

(** *** Game actions *)

(** [changeScene(sceneKey)] up to its [await], and its continuation
    100 ms later. *)
Definition changeScene (sceneKey : string) (m : Manager) : Manager :=
  updateState
    {| scene' := Some sceneKey; loading' := Some true; paused' := None;
       player' := None; progress' := None; ui' := None;
       performance' := None; mobile' := None |} m.

Definition changeScene_loaded (m : Manager) : Manager :=
  updateState
    {| scene' := None; loading' := Some false; paused' := None;
       player' := None; progress' := None; ui' := None;
       performance' := None; mobile' := None |} m.

Definition updatePaused (b : bool) : Updates :=
  {| scene' := None; loading' := None; paused' := Some b; player' := None;
     progress' := None; ui' := None; performance' := None; mobile' := None |}.

Definition pauseGame (m : Manager) : Manager :=
  emit game_paused (updateState (updatePaused true) m).

Definition resumeGame (m : Manager) : Manager :=
  emit game_resumed (updateState (updatePaused false) m).

Definition updatePlayer (p : Player) : Updates :=
  {| scene' := None; loading' := None; paused' := None; player' := Some p;
     progress' := None; ui' := None; performance' := None; mobile' := None |}.

Definition withHealth (h : Z) (p : Player) : Player :=
  {| id := id p; level := level p; experience := experience p; health := h;
     maxHealth := maxHealth p; mana := mana p; maxMana := maxMana p;
     position := position p; inventory := inventory p |}.

Definition withMana (v : Z) (p : Player) : Player :=
  {| id := id p; level := level p; experience := experience p;
     health := health p; maxHealth := maxHealth p; mana := v;
     maxMana := maxMana p; position := position p;
     inventory := inventory p |}.

Definition withPosition (pos : Position) (p : Player) : Player :=
  {| id := id p; level := level p; experience := experience p;
     health := health p; maxHealth := maxHealth p; mana := mana p;
     maxMana := maxMana p; position := pos; inventory := inventory p |}.

Definition withExperience (e l : Z) (p : Player) : Player :=
  {| id := id p; level := l; experience := e; health := health p;
     maxHealth := maxHealth p; mana := mana p; maxMana := maxMana p;
     position := position p; inventory := inventory p |}.

Definition updatePlayerHealth (health : Z) (m : Manager) : Manager :=
  let currentPlayer := player (state m) in
  updateState
    (updatePlayer
       (withHealth (Z.max 0 (Z.min health (maxHealth currentPlayer)))
          currentPlayer)) m.

Definition updatePlayerMana (mana : Z) (m : Manager) : Manager :=
  let currentPlayer := player (state m) in
  updateState
    (updatePlayer
       (withMana (Z.max 0 (Z.min mana (maxMana currentPlayer)))
          currentPlayer)) m.

Definition updatePlayerPosition (x y : Z) (m : Manager) : Manager :=
  let currentPlayer := player (state m) in
  updateState
    (updatePlayer (withPosition {| x := x; y := y |} currentPlayer)) m.

Definition addExperience (exp : Z) (m : Manager) : Manager :=
  let currentPlayer := player (state m) in
  let newExperience := experience currentPlayer + exp in
  let newLevel := newExperience / 100 + 1 in     (* [Math.floor] *)
  let m :=
    updateState
      (updatePlayer
         (withExperience newExperience (Z.max (level currentPlayer) newLevel)
            currentPlayer)) m in
  if level currentPlayer <? newLevel
  then emit (player_levelUp newLevel newExperience) m
  else m.

Definition updateProgress (p : Progress) : Updates :=
  {| scene' := None; loading' := None; paused' := None; player' := None;
     progress' := Some p; ui' := None; performance' := None;
     mobile' := None |}.

Definition withAchievements (l : list string) (p : Progress) : Progress :=
  {| currentLevel := currentLevel p; unlockedLevels := unlockedLevels p;
     achievements := l; score := score p; highScore := highScore p |}.

Definition withScore (s h : Z) (p : Progress) : Progress :=
  {| currentLevel := currentLevel p; unlockedLevels := unlockedLevels p;
     achievements := achievements p; score := s; highScore := h |}.

(** [achievements.includes(achievementId)] *)
Definition includes (l : list string) (s : string) : bool :=
  existsb (String.eqb s) l.

Definition unlockAchievement (achievementId : string) (m : Manager)
  : Manager :=
  let currentProgress := progress (state m) in
  if negb (includes (achievements currentProgress) achievementId) then
    let m :=
      updateState
        (updateProgress
           (withAchievements
              (achievements currentProgress ++ [achievementId])
              currentProgress)) m in
    emit (achievement_unlocked achievementId) m
  else m.

Definition updateScore (score : Z) (m : Manager) : Manager :=
  let currentProgress := progress (state m) in
  let newHighScore := Z.max (highScore currentProgress) score in
  let m :=
    updateState (updateProgress (withScore score newHighScore currentProgress))
      m in
  if highScore currentProgress <? newHighScore
  then emit (score_newHighScore newHighScore) m
  else m.

(** *** The subscriptions on the performance monitor and on
    [orientationChange()] *)

Definition onPerformance (fps memory : Z) (m : Manager) : Manager :=
  updateState
    {| scene' := None; loading' := None; paused' := None; player' := None;
       progress' := None; ui' := None;
       performance' :=
         Some {| fps := fps; memory := memory;
                 loadTime := loadTime (performance (state m)) |};
       mobile' := None |} m.

Definition Orientation_eqb (a b : Orientation) : bool :=
  match a, b with
  | portrait, portrait | landscape, landscape => true
  | _, _ => false
  end.

(** An [orientationchange] event of the window, with the orientation
    read when it is handled. *)
Definition onOrientationChange (o : Orientation) (m : Manager) : Manager :=
  let unchanged :=
    match lastOrientation m with
    | Some previous => Orientation_eqb previous o
    | None => false
    end in
  if unchanged then m
  else
    let m := {| state := state m; lastOrientation := Some o;
                emitted := emitted m |} in
    updateState
      {| scene' := None; loading' := None; paused' := None; player' := None;
         progress' := None; ui' := None; performance' := None;
         mobile' :=
           Some {| orientation := o; isTouch := isTouch (mobile (state m));
                   vibrationEnabled := vibrationEnabled (mobile (state m)) |} |}
      m.

(** [reset()] *)
Definition reset (hasTouch : bool) (m : Manager) : Manager :=
  next (getInitialState hasTouch) m.

(** What can happen to a manager, short of calling [updateState] or
    [loadFromStorage] with arbitrary updates. *)
Inductive Action :=
| ShowModal (modalId : string)
| HideModal
| AddNotification (now : Z) (type message : string)
| RemoveNotification (id : string)
| ChangeScene (sceneKey : string)
| ChangeSceneLoaded
| PauseGame
| ResumeGame
| UpdatePlayerHealth (health : Z)
| UpdatePlayerMana (mana : Z)
| UpdatePlayerPosition (x y : Z)
| AddExperience (exp : Z)
| UnlockAchievement (achievementId : string)
| UpdateScore (score : Z)
| PerformanceSample (fps memory : Z)
| OrientationChange (o : Orientation)
| Reset (hasTouch : bool).

Definition step (a : Action) (m : Manager) : Manager :=
  match a with
  | ShowModal modalId => showModal modalId m
  | HideModal => hideModal m
  | AddNotification now type message => addNotification now type message m
  | RemoveNotification id => removeNotification id m
  | ChangeScene sceneKey => changeScene sceneKey m
  | ChangeSceneLoaded => changeScene_loaded m
  | PauseGame => pauseGame m
  | ResumeGame => resumeGame m
  | UpdatePlayerHealth health => updatePlayerHealth health m
  | UpdatePlayerMana mana => updatePlayerMana mana m
  | UpdatePlayerPosition x y => updatePlayerPosition x y m
  | AddExperience exp => addExperience exp m
  | UnlockAchievement achievementId => unlockAchievement achievementId m
  | UpdateScore score => updateScore score m
  | PerformanceSample fps memory => onPerformance fps memory m
  | OrientationChange o => onOrientationChange o m
  | Reset hasTouch => reset hasTouch m
  end.

Definition run (actions : list Action) (m : Manager) : Manager :=
  foldl (fun m a => step a m) m actions.

End GameStateManager.

(** Vocabulary for the properties of the game state. *)

Module GameStateManagerSpec.
Import GameStateManager.

(** What every state reached through the actions satisfies. *)
Definition wellFormed (s : GameState) : Prop :=
  0 <= health (player s) <= maxHealth (player s)
  /\ 0 <= mana (player s) <= maxMana (player s)
  /\ 1 <= level (player s)
  /\ experience (player s) / 100 + 1 <= level (player s)
  /\ 0 <= highScore (progress s)
  /\ score (progress s) <= highScore (progress s)
  /\ NoDup (achievements (progress s)).





Definition autoSaves (events : list Event) : list Event :=
  List.filter (fun e => match e with
                        | game_autoSave _ _ _ => true
                        | _ => false
                        end) events.

Definition healthAlarms (events : list Event) : list Event :=
  List.filter (fun e => match e with
                        | player_healthCritical _ _ => true
                        | _ => false
                        end) events.

(** Whether the action publishes a new state: all do, except unlocking
    an achievement that is already unlocked and an orientation event that
    does not change the orientation last seen. *)
Definition publishes (a : Action) (m : Manager) : bool :=
  match a with
  | UnlockAchievement achievementId =>
      negb (includes (achievements (progress (state m))) achievementId)
  | OrientationChange o =>
      match lastOrientation m with
      | Some previous => negb (Orientation_eqb previous o)
      | None => true
      end
  | _ => true
  end.


(** The events emitted by an action. *)
Definition emittedBy (a : Action) (m : Manager) : list Event :=
  drop (length (emitted m)) (emitted (step a m)).

End GameStateManagerSpec.
(** ** The gesture demo scene: single and double taps

    [detectTap] tells taps apart with the fields [lastTapTime] and
    [tapCount] and one [setTimeout] per first tap. *)

Module GestureScene.

Record TouchPoint := {
  id : Z;
  x : Z;
  y : Z;
  startX : Z;
  startY : Z;
  time : Z
}.

(** The gestures [detectTap] reports through [addGestureInfo], with the
    touch point their details are printed from. *)
Inductive GestureInfo :=
| SingleTap (touchPoint : TouchPoint)
| DoubleTap (touchPoint : TouchPoint).

(** The two fields and the pending [setTimeout] callbacks, each with its
    due time and the touch point it has captured, oldest first; [shown]
    are the reports so far with their times. *)
Record Scene := {
  lastTapTime : Z;
  tapCount : Z;
  timeouts : list (Z * TouchPoint);
  shown : list (Z * GestureInfo)
}.

Definition initial : Scene :=
  {| lastTapTime := 0; tapCount := 0; timeouts := []; shown := [] |}.

(** The callback of [setTimeout(..., 300)], run at its due time. *)
Definition onTimeout (due : Z) (touchPoint : TouchPoint) (s : Scene) : Scene :=
  {| lastTapTime := lastTapTime s;
     tapCount := 0;
     timeouts := timeouts s;
     shown := shown s ++ (if tapCount s =? 1
                          then [(due, SingleTap touchPoint)] else []) |}.

(** Time moves on to [now]: the callbacks due by then run, oldest
    first. *)
Fixpoint runTimeouts (now : Z) (pending : list (Z * TouchPoint)) (s : Scene)
  : Scene :=
  match pending with
  | [] => {| lastTapTime := lastTapTime s; tapCount := tapCount s;
             timeouts := []; shown := shown s |}
  | (due, touchPoint) :: rest =>
      if due <=? now then runTimeouts now rest (onTimeout due touchPoint s)
      else {| lastTapTime := lastTapTime s; tapCount := tapCount s;
              timeouts := pending; shown := shown s |}
  end.

Definition advance (now : Z) (s : Scene) : Scene :=
  runTimeouts now (timeouts s) s.

(** [detectTap(touchPoint)] called at time [currentTime]. *)
Definition detectTap (currentTime : Z) (touchPoint : TouchPoint) (s : Scene)
  : Scene :=
  let s := advance currentTime s in
  let timeDiff := currentTime - lastTapTime s in
  if (timeDiff <? 500) && (tapCount s =? 1) then
    {| lastTapTime := lastTapTime s;
       tapCount := 0;
       timeouts := timeouts s;
       shown := shown s ++ [(currentTime, DoubleTap touchPoint)] |}
  else
    {| lastTapTime := currentTime;
       tapCount := 1;
       timeouts := timeouts s ++ [(currentTime + 300, touchPoint)];
       shown := shown s |}.

(** The reports shown by the time [horizon] for the given calls of
    [detectTap] on a new scene. *)
Definition taps (calls : list (Z * TouchPoint)) (horizon : Z)
  : list (Z * GestureInfo) :=
  shown (advance horizon
           (foldl (fun s c => detectTap (fst c) (snd c) s) initial calls)).

End GestureScene.

(** * Properties *)

(** ** Facts about the number comparisons and the operators *)

Lemma Qltb_lt (x y : Q) : Qltb x y = true <-> (x < y)%Q.
Proof.
unfold Qltb. rewrite negb_true_iff. split.
- intros H. apply Qnot_le_lt. intros Hle.
  apply Qle_bool_iff in Hle. congruence.
- intros H. destruct (Qle_bool y x) eqn:E; [|reflexivity].
  apply Qle_bool_iff in E. exfalso. eapply Qlt_not_le; eassumption.
Qed.

Lemma Qltb_weaken (x y z : Q) :
Qltb x y = true -> (y <= z)%Q -> Qltb x z = true.
Proof.
rewrite !Qltb_lt. intros H1 H2. eapply Qlt_le_trans; eassumption.
Qed.

Lemma filter_none {A} (P : A -> Prop) `{forall x, Decision (P x)} (l : list A) :
Forall (fun x => ~ P x) l -> filter P l = [].
Proof.
induction 1 as [|x l Hx _ IH]; [done|].
rewrite filter_cons. by case_decide.
Qed.

Module RxFacts.
Import Rx.

Lemma throttleTime_open duration now timer :
  (forall due, timer = Some due -> due <= now) ->
  throttleTime duration now timer = (true, Some (now + duration)).
Proof.
  unfold throttleTime. destruct timer as [due|]; [|done].
  intros H. destruct (Z.ltb_spec now due); [|done].
  specialize (H due eq_refl). lia.
Qed.

Lemma throttleTime_closed duration now due :
  now < due -> throttleTime duration now (Some due) = (false, Some due).
Proof.
  unfold throttleTime. intros H. destruct (Z.ltb_spec now due); [done|lia].
Qed.

End RxFacts.

(** ** The adaptive quality controller *)

Module AdaptiveRendererFacts.
Import AdaptiveRenderer AdaptiveRendererSpec.

(** *** The candidate computed by [calculateOptimalSettings] *)

Lemma settings_eqb_refl s : settings_eqb s s = true.
Proof.
  unfold settings_eqb.
  rewrite !Z.eqb_refl, !eqb_reflx.
  assert (Qeq_bool (resolution s) (resolution s) = true) as ->
    by (apply Qeq_bool_iff; reflexivity).
  destruct (quality s), (shadowQuality s); reflexivity.
Qed.

Lemma calculateOptimalSettings_ladder tier m s :
  calculateOptimalSettings tier m s
  = ladder (Qltb (fps m) fpsTargets_low) (Qltb (fps m) fpsTargets_medium)
      (Qgeb (fps m) fpsTargets_high)
      (Qgtb (memory m) (memoryWarning * 0.8))
      (thermalThrottled m) (batteryLow m) tier s.
Proof. reflexivity. Qed.

(** Normalises a ladder whose tests have been decided. *)
Ltac run_ladder :=
  cbv -[Z.min]; rewrite ?Z.min_id, <- ?Z.min_assoc, ?Z.min_id.

(** Applying the ladder to its own output a third time changes nothing:
    the only test on the current settings, [quality !== 'ultra'], can
    change its answer at most once. *)
Lemma calculateOptimalSettings_settles tier m s :
  let calc := calculateOptimalSettings tier m in
  calc (calc (calc s)) = calc (calc s).
Proof.
  cbv zeta. rewrite !calculateOptimalSettings_ladder.
  generalize (Qltb (fps m) fpsTargets_low), (Qltb (fps m) fpsTargets_medium),
    (Qgeb (fps m) fpsTargets_high), (Qgtb (memory m) (memoryWarning * 0.8)),
    (thermalThrottled m), (batteryLow m).
  destruct s as [q f r a p sh pp].
  intros [] [] [] [] [] []; destruct tier, q; run_ladder; reflexivity.
Qed.

(** *** Termination of the feedback between [applyRenderSettings] and
    [currentSettings$] *)

Section Feedback.
Context (cfg : Config) (now : Z).

(** A fixed point of the ladder that is also the previous candidate:
    one level suffices. *)
Lemma apply_fixed fuel s st :
  (forall m, latestThrottled st = Some m ->
             calculateOptimalSettings (deviceTier cfg) m s = s) ->
  lastCandidate st = Some s ->
  is_Some (applyRenderSettings (S fuel) cfg now s st).
Proof.
  intros Hfix Hlast. cbn [applyRenderSettings].
  destruct (settings_eqb s (currentSettings st)); [by eexists|].
  unfold onCombined; cbn.
  destruct (latestThrottled st) as [m|] eqn:Hm; [|by eexists].
  rewrite (Hfix m eq_refl), Hlast, settings_eqb_refl. by eexists.
Qed.

Lemma apply_settling fuel s st :
  (forall m, latestThrottled st = Some m ->
     let c := calculateOptimalSettings (deviceTier cfg) m in
     c (c s) = c s) ->
  is_Some (applyRenderSettings (S (S fuel)) cfg now s st).
Proof.
  intros Hfix. cbn [applyRenderSettings].
  destruct (settings_eqb s (currentSettings st)); [by eexists|].
  unfold onCombined at 1; cbn [latestThrottled set_currentSettings emit
    lastCandidate currentSettings].
  destruct (latestThrottled st) as [m|] eqn:Hm; [|by eexists].
  match goal with |- context [if ?b then _ else _] => destruct b end;
    [by eexists|].
  apply apply_fixed; cbn; [|done].
  intros m' Hm'. rewrite Hm in Hm'. injection Hm' as <-.
  apply (Hfix m eq_refl).
Qed.

(** Three levels are enough for any requested settings. *)
Lemma applyRenderSettings_terminates fuel s st :
  is_Some (applyRenderSettings (S (S (S fuel))) cfg now s st).
Proof.
  cbn [applyRenderSettings].
  destruct (settings_eqb s (currentSettings st)); [by eexists|].
  unfold onCombined at 1; cbn [latestThrottled set_currentSettings emit
    lastCandidate currentSettings].
  destruct (latestThrottled st) as [m|] eqn:Hm; [|by eexists].
  match goal with |- context [if ?b then _ else _] => destruct b end;
    [by eexists|].
  apply apply_settling; cbn.
  intros m' Hm'. rewrite Hm in Hm'. injection Hm' as <-.
  apply calculateOptimalSettings_settles.
Qed.

Lemma onCombined_terminates st :
  is_Some (onCombined (applyRenderSettings depth cfg now) cfg st).
Proof.
  unfold onCombined.
  destruct (latestThrottled st) as [m|] eqn:Hm; [|by eexists].
  match goal with |- context [if ?b then _ else _] => destruct b end;
    [by eexists|].
  apply applyRenderSettings_terminates.
Qed.

End Feedback.

Lemma emergencyQualityReduction_terminates cfg now st :
  is_Some (emergencyQualityReduction cfg now st).
Proof.
  unfold emergencyQualityReduction, depth.
  destruct (applyRenderSettings_terminates cfg now 0 emergencySettings st)
    as [st' ->]. by eexists.
Qed.

Lemma onMetrics_terminates cfg now m st :
  is_Some (onMetrics cfg now m st).
Proof.
  unfold onMetrics.
  destruct (Rx.throttleTime 1000 now _) as [pass timer].
  assert (is_Some (if pass
            then onCombined (applyRenderSettings depth cfg now) cfg
                   (set_throttled timer m (set_performanceMetrics m st))
            else Some (set_performanceMetrics m st))) as [st1 ->].
  { destruct pass; [apply onCombined_terminates|by eexists]. }
  destruct (emergency m); [|by eexists].
  destruct (Rx.throttleTime 5000 now _) as [[] ?]; [|by eexists].
  apply emergencyQualityReduction_terminates.
Qed.

Lemma step_terminates cfg now i st : is_Some (step cfg now i st).
Proof.
  destruct i; cbn [step];
    [apply onMetrics_terminates|apply applyRenderSettings_terminates..].
Qed.

Lemma run_terminates cfg inputs st : is_Some (run cfg inputs st).
Proof.
  revert st. induction inputs as [|[now i] rest IH]; intros st; cbn.
  - by eexists.
  - destruct (step_terminates cfg now i st) as [st' ->]. apply IH.
Qed.

Lemma construct_terminates cfg now : is_Some (construct cfg now).
Proof.
  unfold construct.
  match goal with
  | |- context [onCombined ?k cfg ?st] =>
      destruct (onCombined_terminates cfg now st) as [st1 ->]
  end.
  apply onCombined_terminates.
Qed.

(** *** The emergency path *)

Lemma emergencyFirings_emit now es st :
  emergencyFirings (emit now es st)
  = emergencyFirings st
    ++ omap (fun e => match e with
                      | renderer_emergencyMode s => Some (now, s)
                      | _ => None
                      end) es.
Proof.
  unfold emergencyFirings, emit; cbn. rewrite omap_app. f_equal.
  induction es as [|e es IH]; [done|]. cbn. rewrite IH. by destruct e.
Qed.

Lemma emergencyFirings_applyEffects now cfg s c st :
  emergencyFirings (emit now (applyEffects cfg s c) st) = emergencyFirings st.
Proof.
  rewrite emergencyFirings_emit. unfold applyEffects.
  repeat match goal with |- context [if ?b then _ else _] => destruct b end;
    cbn; apply app_nil_r.
Qed.

(** The first subscription never touches the emergency throttle nor
    records an emergency. *)
Lemma applyRenderSettings_frame cfg now fuel s st st' :
  applyRenderSettings fuel cfg now s st = Some st' ->
  throttle5s st' = throttle5s st /\
  emergencyFirings st' = emergencyFirings st.
Proof.
  revert s st. induction fuel as [|fuel IH]; intros s st; cbn.
  - destruct (settings_eqb _ _); [|done]. by intros [= <-].
  - destruct (settings_eqb _ _); [by intros [= <-]|].
    unfold onCombined; cbn.
    destruct (latestThrottled st) as [m|].
    + match goal with |- context [if ?b then _ else _] => destruct b end.
      * intros [= <-]; cbn. split; [done|].
        apply (emergencyFirings_applyEffects now cfg s (currentSettings st) st).
      * intros H. apply IH in H as [-> ->]; cbn. split; [done|].
        apply (emergencyFirings_applyEffects now cfg s (currentSettings st) st).
    + intros [= <-]; cbn. split; [done|].
      apply (emergencyFirings_applyEffects now cfg s (currentSettings st) st).
Qed.

Lemma onCombined_frame cfg now st st' :
  onCombined (applyRenderSettings depth cfg now) cfg st = Some st' ->
  throttle5s st' = throttle5s st /\
  emergencyFirings st' = emergencyFirings st.
Proof.
  unfold onCombined. destruct (latestThrottled st) as [m|].
  - match goal with |- context [if ?b then _ else _] => destruct b end.
    + by intros [= <-].
    + intros H. by apply applyRenderSettings_frame in H as [-> ->].
  - by intros [= <-].
Qed.

Lemma onMetrics_emergency cfg now m st st' :
  onMetrics cfg now m st = Some st' ->
  if fires now m st
  then throttle5s st' = Some (now + 5000) /\
       emergencyFirings st'
       = emergencyFirings st ++ [(now, emergencySettings)]
  else throttle5s st' = throttle5s st /\
       emergencyFirings st' = emergencyFirings st.
Proof.
  unfold onMetrics, fires.
  destruct (Rx.throttleTime 1000 now _) as [pass timer].
  match goal with
  | |- context [match ?x with Some _ => _ | None => _ end] =>
      destruct x as [st1|] eqn:H1; [|done]
  end.
  assert (throttle5s st1 = throttle5s st /\
          emergencyFirings st1 = emergencyFirings st) as [Ht Hf].
  { destruct pass.
    - by apply onCombined_frame in H1 as [-> ->].
    - by injection H1 as <-. }
  rewrite <- Ht, <- Hf.
  destruct (emergency m); cbn [andb]; [|by intros [= <-]].
  destruct (Rx.throttleTime 5000 now (throttle5s st1)) as [pass5 timer5] eqn:H5.
  cbn [fst]. destruct pass5; [|by intros [= <-]].
  unfold emergencyQualityReduction.
  destruct (applyRenderSettings _ _ _ _ _) as [st2|] eqn:H2; [|done].
  intros [= <-]. apply applyRenderSettings_frame in H2 as [H2t H2f].
  rewrite emergencyFirings_emit, H2f; cbn. split; [|done].
  rewrite H2t; cbn.
  unfold Rx.throttleTime in H5.
  destruct (throttle5s st1) as [due|]; [|congruence].
  destruct (now <? due); congruence.
Qed.

Lemma step_emergency cfg now i st st' :
  step cfg now i st = Some st' ->
  match i with
  | Sample m =>
      if fires now m st
      then throttle5s st' = Some (now + 5000) /\
           emergencyFirings st'
           = emergencyFirings st ++ [(now, emergencySettings)]
      else throttle5s st' = throttle5s st /\
           emergencyFirings st' = emergencyFirings st
  | _ => throttle5s st' = throttle5s st /\
         emergencyFirings st' = emergencyFirings st
  end.
Proof.
  destruct i; cbn [step];
    [apply onMetrics_emergency|apply applyRenderSettings_frame..].
Qed.

(** The run refines the rate limit of the specification. *)
Lemma run_emergency cfg inputs st st' last :
  throttle5s st = (fun l => l + 5000) <$> last ->
  run cfg inputs st = Some st' ->
  emergencyFirings st'
  = emergencyFirings st
    ++ map (fun t => (t, emergencySettings))
         (atMostOncePer 5000 last (emergencySampleTimes inputs)).
Proof.
  revert st last. induction inputs as [|[now i] rest IH]; intros st last Hth.
  - intros [= <-]; cbn. by rewrite app_nil_r.
  - cbn [run]. destruct (step cfg now i st) as [st1|] eqn:Hstep; [|done].
    intros Hrun. apply step_emergency in Hstep.
    unfold emergencySampleTimes; cbn [omap list_omap].
    fold (emergencySampleTimes rest).
    destruct i as [m| | |];
      try (destruct Hstep as [Ht Hf]; rewrite <- Hf;
           apply (IH st1 last); [by rewrite Ht|done]).
    unfold fires in Hstep. destruct (emergency m); cbn [andb] in Hstep.
    + cbn [atMostOncePer]. rewrite Hth in Hstep.
      destruct last as [l|]; cbn in Hstep |- *.
      * destruct (Z.ltb_spec now (l + 5000)); cbn in Hstep.
        -- destruct Hstep as [Ht Hf]. rewrite <- Hf.
           apply (IH st1 (Some l)); done.
        -- destruct Hstep as [Ht Hf].
           rewrite (IH st1 (Some now) Ht Hrun), Hf, <- app_assoc. done.
      * destruct Hstep as [Ht Hf].
        rewrite (IH st1 (Some now) Ht Hrun), Hf, <- app_assoc. done.
    + destruct Hstep as [Ht Hf]. rewrite <- Hf.
      apply (IH st1 last); [by rewrite Ht|done].
Qed.

Lemma construct_emergency cfg now st :
  construct cfg now = Some st ->
  throttle5s st = None /\ emergencyFirings st = [].
Proof.
  unfold construct.
  match goal with
  | |- context [match ?x with Some _ => _ | None => _ end] =>
      destruct x as [st1|] eqn:H1; [|done]
  end.
  intros H2. apply onCombined_frame in H1 as [H1t H1f].
  apply onCombined_frame in H2 as [H2t H2f]. cbn in *. by rewrite H2t, H2f.
Qed.

(** The rate limit keeps firings at least [interval] apart. *)
Lemma atMostOncePer_after interval last ts t l :
  0 <= interval -> last = Some l ->
  In t (atMostOncePer interval last ts) -> l + interval <= t.
Proof.
  intros Hi. revert last l. induction ts as [|x ts IH]; intros last l ->; cbn;
    [done|].
  destruct (Z.ltb_spec x (l + interval)).
  - by apply IH.
  - intros [->|Hin]; [lia|].
    specialize (IH (Some x) x eq_refl Hin). lia.
Qed.

Lemma atMostOncePer_oncePerWindow interval last ts :
  0 <= interval -> oncePerWindow interval (atMostOncePer interval last ts).
Proof.
  intros Hi a. revert last. induction ts as [|x ts IH]; intros last; cbn;
    [lia|].
  match goal with |- context [if ?b then _ else _] => destruct b end;
    [apply IH|].
  rewrite filter_cons. case_decide as Hx; [|apply IH].
  cbn. enough (filter (fun t : Z => a <= t < a + interval)
                 (atMostOncePer interval (Some x) ts) = []) as -> by done.
  apply filter_none, Forall_forall. intros t Ht. apply list_elem_of_In in Ht.
  apply (atMostOncePer_after interval (Some x) ts t x Hi eq_refl) in Ht.
  lia.
Qed.

End AdaptiveRendererFacts.

(** ** Claims about the adaptive quality controller *)

Module AdaptiveRendererClaims.
Import AdaptiveRenderer AdaptiveRendererSpec AdaptiveRendererFacts.

(** C1 does not hold as stated: with the same sample (fps 50) and the
    same device tier, two different current settings give two different
    candidates, because [calculateOptimalSettings] starts from a copy of
    the current settings and the rungs for 45 <= fps leave it alone. *)
Lemma candidate_depends_on_current_settings :
  let sample := withFps 50 getInitialMetrics in
  let c1 := calculateOptimalSettings tier_high sample (initialSettings tier_high) in
  let c2 := calculateOptimalSettings tier_high sample (initialSettings tier_low) in
  quality c1 = high /\ quality c2 = low /\ c1 <> c2.
Proof. cbv zeta. split; [|split]; [reflexivity..|discriminate]. Qed.

(** C1, amended: below 45 fps the rung of the ladder overwrites every
    field except [targetFPS], so the candidate's quality, resolution,
    antialiasing, particle limit, shadow quality and post-processing
    depend on the sample and the device tier only, and two evaluations
    whose current settings agree on [targetFPS] give the same
    candidate. *)
Theorem candidate_fixed_below_medium_fps tier m s1 s2 :
  (fps m < 45)%Q ->
  ladderFields (calculateOptimalSettings tier m s1)
  = ladderFields (calculateOptimalSettings tier m s2) /\
  (targetFPS s1 = targetFPS s2 ->
   calculateOptimalSettings tier m s1 = calculateOptimalSettings tier m s2).
Proof.
  intros Hfps%Qltb_lt. rewrite !calculateOptimalSettings_ladder.
  change fpsTargets_medium with 45%Q. rewrite Hfps.
  generalize (Qltb (fps m) fpsTargets_low), (Qgeb (fps m) fpsTargets_high),
    (Qgtb (memory m) (memoryWarning * 0.8)),
    (thermalThrottled m), (batteryLow m).
  intros [] ? [] [] []; cbv -[Z.min];
    (split; [reflexivity|intros H; rewrite ?H; reflexivity]).
Qed.

Lemma candidate_fixed_below_medium_fps_witness :
  let m := withFps 25 getInitialMetrics in
  let s1 := initialSettings tier_high in
  let s2 := getSettingsForQuality ultra (initialSettings tier_mid) in
  (fps m < 45)%Q /\
  (ladderFields (calculateOptimalSettings tier_high m s1)
   = ladderFields (calculateOptimalSettings tier_high m s2) /\
   (targetFPS s1 = targetFPS s2 ->
    calculateOptimalSettings tier_high m s1
    = calculateOptimalSettings tier_high m s2)).
Proof.
  cbv zeta. split; [reflexivity|].
  apply (candidate_fixed_below_medium_fps tier_high
           (withFps 25 getInitialMetrics)). reflexivity.
Defined.

(** C2: for every sample with fps < 30 (fps = 25 in particular), every
    device tier and every current settings, the candidate computed by the
    controller has quality low. *)
Theorem low_fps_forces_low_quality tier m s :
  (fps m < 30)%Q -> quality (calculateOptimalSettings tier m s) = low.
Proof.
  intros Hfps%Qltb_lt. rewrite calculateOptimalSettings_ladder.
  change fpsTargets_low with 30%Q. rewrite Hfps.
  generalize (Qgtb (memory m) (memoryWarning * 0.8)),
    (thermalThrottled m), (batteryLow m).
  intros [] [] []; reflexivity.
Qed.

Lemma low_fps_forces_low_quality_witness :
  (fps (withFps 25 getInitialMetrics) < 30)%Q /\
  quality (calculateOptimalSettings tier_high (withFps 25 getInitialMetrics)
             (initialSettings tier_high)) = low.
Proof.
  split; [reflexivity|].
  apply (low_fps_forces_low_quality tier_high
           (withFps 25 getInitialMetrics)). reflexivity.
Defined.

(** C6 does not hold as stated: a GPU that matches none of the substring
    heuristics, on a browser that reports no device memory, ends in the
    low tier, not the middle one. *)
Lemma unknown_gpu_is_not_mid_tier :
  let b := {| webgl := Some ("Intel Inc.", "Intel Iris OpenGL Engine");
              deviceMemory := None |} in
  let gpuInfo := toLowerCase ("Intel Inc." ++ " " ++ "Intel Iris OpenGL Engine") in
  highEndGPU gpuInfo = false /\ midRangeGPU gpuInfo = false /\
  detectDeviceTier b = tier_low /\ detectDeviceTier b <> tier_mid.
Proof. cbv zeta. vm_compute. repeat split; discriminate. Qed.

(** C6, amended: a GPU whose vendor and renderer string matches none of
    the known substrings is assigned the low tier when no device memory
    is reported (or when the reported memory is at least 3 and below 6,
    which overrides nothing). *)
Theorem unknown_gpu_is_low_tier vendor renderer dm :
  let gpuInfo := toLowerCase (vendor ++ " " ++ renderer) in
  highEndGPU gpuInfo = false ->
  midRangeGPU gpuInfo = false ->
  dm = None \/ (exists q, dm = Some q /\ (3 <= q)%Q /\ (q < 6)%Q) ->
  detectDeviceTier {| webgl := Some (vendor, renderer); deviceMemory := dm |}
  = tier_low.
Proof.
  intros gpuInfo Hhigh Hmid Hdm. unfold detectDeviceTier; cbn.
  fold gpuInfo. rewrite Hhigh, Hmid.
  destruct Hdm as [->|(q & -> & H3 & H6)]; [reflexivity|].
  destruct (truthy q); cbn; [|reflexivity].
  destruct (Qltb q 3) eqn:E3.
  - reflexivity.
  - destruct (Qgeb q 6) eqn:E6; [|reflexivity].
    unfold Qgeb in E6. apply Qle_bool_iff in E6.
    exfalso. eapply Qlt_not_le; eassumption.
Qed.

Lemma unknown_gpu_is_low_tier_witness :
  let gpuInfo := toLowerCase ("Intel Inc." ++ " " ++ "Intel Iris OpenGL Engine") in
  highEndGPU gpuInfo = false /\ midRangeGPU gpuInfo = false /\
  (@None Q = None \/ (exists q, @None Q = Some q /\ (3 <= q)%Q /\ (q < 6)%Q)) /\
  detectDeviceTier {| webgl := Some ("Intel Inc.", "Intel Iris OpenGL Engine");
                      deviceMemory := None |} = tier_low.
Proof.
  cbv zeta. split; [reflexivity|]. split; [reflexivity|].
  split; [left; reflexivity|].
  apply (unknown_gpu_is_low_tier "Intel Inc." "Intel Iris OpenGL Engine" None);
    [reflexivity|reflexivity|left; reflexivity].
Defined.

(** The rate limit of the emergency path: it fires exactly for the samples
    with fps < 20 or memory above the warning threshold that arrive when
    it has not fired in the previous 5000 ms, so no 5-second window
    contains two firings; two fps = 10 samples one second apart fire it
    exactly once. *)
Lemma emergency_path_rate_limited cfg t0 inputs :
  exists st0 st,
    construct cfg t0 = Some st0 /\
    run cfg inputs st0 = Some st /\
    emergencyFirings st
    = map (fun t => (t, emergencySettings))
        (atMostOncePer 5000 None (emergencySampleTimes inputs)) /\
    oncePerWindow 5000 (map fst (emergencyFirings st)) /\
    (forall t m1 m2,
       exists st2,
         run cfg [(t, Sample (withFps 10 m1));
                  (t + 1000, Sample (withFps 10 m2))] st0 = Some st2 /\
         emergencyFirings st2 = [(t, emergencySettings)]).
Proof.
  destruct (construct_terminates cfg t0) as [st0 H0].
  destruct (run_terminates cfg inputs st0) as [st Hrun].
  destruct (construct_emergency cfg t0 st0 H0) as [Hth Hnone].
  exists st0, st. split; [done|]. split; [done|].
  assert (forall ins st', run cfg ins st0 = Some st' ->
            emergencyFirings st'
            = map (fun t => (t, emergencySettings))
                (atMostOncePer 5000 None (emergencySampleTimes ins))) as Hspec.
  { intros ins st' Hins.
    rewrite (run_emergency cfg ins st0 st' None Hth Hins), Hnone. done. }
  split; [by apply Hspec|]. split.
  - rewrite (Hspec inputs st Hrun), map_map; cbn. rewrite map_id.
    by apply atMostOncePer_oncePerWindow.
  - intros t m1 m2.
    destruct (run_terminates cfg
                [(t, Sample (withFps 10 m1));
                 (t + 1000, Sample (withFps 10 m2))] st0) as [st2 H2].
    exists st2. split; [done|]. rewrite (Hspec _ _ H2).
    change (emergencySampleTimes _) with [t; t + 1000].
    cbn [atMostOncePer].
    replace (t + 1000 <? t + 5000) with true
      by (symmetry; apply Z.ltb_lt; lia).
    reflexivity.
Qed.

(** C3 fails on the code: the override does not last.  On a high-tier
    device constructed at time 0, a sample with a good frame rate and
    200 MB of heap at time 1008 fires the emergency path, which publishes
    the emergency settings (quality low) and announces them; but the
    publication re-runs the regular subscription, whose candidate for the
    sample, with quality high, replaces them before
    [emergencyQualityReduction] returns.  The same happens to a sample
    with fps 10 at 2050 that the one-second throttle holds back from the
    regular path: the candidate is then computed from the good sample
    that passed at 2010. *)
Lemma emergency_override_undone :
  let cfg := {| deviceTier := tier_high; hasScale := true; hasWebGL := true |} in
  (exists st0 st,
     construct cfg 0 = Some st0 /\
     run cfg [(1008, Sample memoryPressure)] st0 = Some st /\
     emergency memoryPressure = true /\
     emergencyFirings st = [(1008, emergencySettings)] /\
     settingsPublished st
     = settingsPublished st0
       ++ [(1008, highRung 60 50 false); (1008, emergencySettings);
           (1008, highRung 30 50 false)] /\
     currentSettings st = highRung 30 50 false /\
     quality (currentSettings st) = high) /\
  (exists st0 st,
     construct cfg 0 = Some st0 /\
     run cfg [(1008, Sample smoothSample); (2010, Sample smoothSample);
              (2050, Sample (withFps 10 smoothSample))] st0 = Some st /\
     emergency (withFps 10 smoothSample) = true /\
     emergencyFirings st = [(2050, emergencySettings)] /\
     settingsPublished st
     = settingsPublished st0
       ++ [(2050, emergencySettings); (2050, highRung 30 300 true)] /\
     currentSettings st = highRung 30 300 true /\
     quality (currentSettings st) = high).
Proof.
  cbv zeta. split.
  - eexists _, _. split; [by vm_compute|]. split; [by vm_compute|].
    by vm_compute.
  - eexists _, _. split; [by vm_compute|]. split; [by vm_compute|].
    by vm_compute.
Qed.

End AdaptiveRendererClaims.
(** ** The controller as a whole *)

Module AdaptiveRendererController.
Import AdaptiveRenderer AdaptiveRendererSpec AdaptiveRendererFacts.

(** X1: The feedback between [applyRenderSettings] and the subscription on
    [currentSettings$] always comes to rest: the constructor and every
    sequence of samples, visibility and blur events and forced qualities
    run to completion, with [applyRenderSettings] nested at most three
    levels deep.  Three levels are needed: on a high-tier device that has
    seen a thermally throttled sample, forcing [ultra] exhausts two. *)
Theorem feedback_settles cfg now inputs st :
  is_Some (construct cfg now) /\
  is_Some (run cfg inputs st) /\
  (forall settings, is_Some (applyRenderSettings 3 cfg now settings st)) /\
  exists cfg0 st1,
    (construct cfg0 0 ≫= run cfg0 [(1000, Sample hotSample)]) = Some st1 /\
    applyRenderSettings 2 cfg0 2000
      (getSettingsForQuality ultra (currentSettings st1)) st1 = None.
Proof.
  split; [apply construct_terminates|].
  split; [apply run_terminates|].
  split; [intros settings; apply (applyRenderSettings_terminates cfg now 0)|].
  exists {| deviceTier := tier_high; hasScale := true; hasWebGL := true |}.
  eexists. split; [by vm_compute|]. by vm_compute.
Qed.

(** *** The target frame rate *)

Lemma calculateOptimalSettings_targetFPS tier m s :
  targetFPS (calculateOptimalSettings tier m s) = targetFPS s \/
  targetFPS (calculateOptimalSettings tier m s) = 30.
Proof.
  rewrite calculateOptimalSettings_ladder.
  generalize (Qltb (fps m) fpsTargets_low), (Qltb (fps m) fpsTargets_medium),
    (Qgeb (fps m) fpsTargets_high), (Qgtb (memory m) (memoryWarning * 0.8)),
    (thermalThrottled m), (batteryLow m).
  destruct s as [q f r a p sh pp].
  intros [] [] [] [] [] []; destruct tier, q; cbv -[Z.min]; auto.
Qed.

Section TargetFPS.
Context (cfg : Config) (bound : Z) (Hbound : 30 <= bound).

Lemma applyRenderSettings_capped fuel now s st st' :
  targetFPS s <= bound -> capped bound st ->
  applyRenderSettings fuel cfg now s st = Some st' -> capped bound st'.
Proof.
  revert s st. induction fuel as [|fuel IH]; intros s st Hs Hst; cbn.
  - destruct (settings_eqb s (currentSettings st)); [|done]. by intros [= <-].
  - destruct (settings_eqb s (currentSettings st)); [by intros [= <-]|].
    unfold onCombined; cbn.
    destruct (latestThrottled st) as [m|]; [|by intros [= <-]].
    match goal with |- context [if ?b then _ else _] => destruct b end;
      [by intros [= <-]|].
    apply IH; [|done].
    destruct (calculateOptimalSettings_targetFPS (deviceTier cfg) m s) as [-> | ->];
      lia.
Qed.

Lemma onCombined_capped now st st' :
  capped bound st ->
  onCombined (applyRenderSettings depth cfg now) cfg st = Some st' ->
  capped bound st'.
Proof.
  intros Hst. unfold onCombined.
  destruct (latestThrottled st) as [m|]; [|by intros [= <-]].
  match goal with |- context [if ?b then _ else _] => destruct b end;
    [by intros [= <-]|].
  apply applyRenderSettings_capped; [|done].
  destruct (calculateOptimalSettings_targetFPS (deviceTier cfg) m
              (currentSettings st)) as [-> | ->]; [done|lia].
Qed.

Lemma step_capped now i st st' :
  capped bound st -> step cfg now i st = Some st' -> capped bound st'.
Proof.
  intros Hst. destruct i as [m| | |q]; cbn [step].
  - unfold onMetrics.
    destruct (Rx.throttleTime 1000 now _) as [pass timer].
    destruct pass.
    + destruct (onCombined _ cfg _) as [st1|] eqn:H1; [|done].
      apply onCombined_capped in H1; [|done].
      destruct (emergency m); [|by intros [= <-]].
      destruct (Rx.throttleTime 5000 now _) as [pass5 timer5].
      destruct pass5; [|by intros [= <-]].
      unfold emergencyQualityReduction.
      destruct (applyRenderSettings depth cfg now emergencySettings _)
        as [st2|] eqn:H2; [|done].
      apply applyRenderSettings_capped in H2; [|done|done].
      by intros [= <-].
    + destruct (emergency m); [|by intros [= <-]].
      destruct (Rx.throttleTime 5000 now _) as [pass5 timer5].
      destruct pass5; [|by intros [= <-]].
      unfold emergencyQualityReduction.
      destruct (applyRenderSettings depth cfg now emergencySettings _)
        as [st2|] eqn:H2; [|done].
      apply applyRenderSettings_capped in H2; [|done|done].
      by intros [= <-].
  - apply applyRenderSettings_capped; [cbn; lia|done].
  - apply applyRenderSettings_capped; [cbn; lia|done].
  - apply applyRenderSettings_capped; [|done]. by destruct q.
Qed.

Lemma run_capped inputs st st' :
  capped bound st -> run cfg inputs st = Some st' -> capped bound st'.
Proof.
  revert st. induction inputs as [|[now i] rest IH]; intros st Hst; cbn.
  - by intros [= <-].
  - destruct (step cfg now i st) as [st1|] eqn:H1; [|done].
    apply IH. by eapply step_capped.
Qed.

End TargetFPS.

(** X2: Nothing ever raises the target frame rate beyond 30: whatever samples,
    visibility and blur events and forced qualities arrive, the target
    held afterwards is at most the larger of the target held before and
    30.  A target lowered to 10 by a hidden page or to 15 by a blur never
    returns to 60. *)
Theorem targetFPS_never_restored cfg inputs st :
  exists st',
    run cfg inputs st = Some st' /\
    targetFPS (currentSettings st')
    <= Z.max (targetFPS (currentSettings st)) 30.
Proof.
  destruct (run_terminates cfg inputs st) as [st' Hrun].
  exists st'. split; [done|].
  apply (run_capped cfg (Z.max (targetFPS (currentSettings st)) 30)
           ltac:(lia) inputs st st'); [unfold AdaptiveRendererSpec.capped; lia|done].
Qed.

(** *** The emergency settings do not last *)

Lemma Qltb_below (x a b : Q) : (x < a)%Q -> (a <= b)%Q -> Qltb x b = true.
Proof. intros H1 H2. apply Qltb_lt. eapply Qlt_le_trans; eauto. Qed.

(** X3: On a mid- or high-tier device, a first sample that arrives
    1000 ms or more after the construction (so that it passes the
    one-second throttle) with fps below 20 and no thermal or battery
    condition makes three publications in the same instant: the regular
    path publishes the low rung; the emergency path then publishes the
    emergency settings, with a particle limit of 25, and announces them;
    but that publication re-enters the regular path, whose candidate for
    the sample replaces them before the call returns.  The settings held
    afterwards are the low rung with the target frame rate of the
    emergency settings and the particle limit 50. *)
Theorem emergency_limit_overridden cfg t0 t m :
  deviceTier cfg <> tier_low ->
  t0 + 1000 <= t ->
  (fps m < 20)%Q ->
  thermalThrottled m = false ->
  batteryLow m = false ->
  exists st0 st,
    construct cfg t0 = Some st0 /\
    run cfg [(t, Sample m)] st0 = Some st /\
    emergencyFirings st = [(t, emergencySettings)] /\
    particleLimit emergencySettings = 25 /\
    settingsPublished st
    = settingsPublished st0
      ++ [(t, lowRung 60); (t, emergencySettings); (t, lowRung 30)] /\
    currentSettings st = lowRung 30 /\
    particleLimit (currentSettings st) = 50.
Proof.
  intros Htier Ht Hfps Hhot Hbat.
  assert (forall s, calculateOptimalSettings (deviceTier cfg) m s
                    = ladder true (Qltb (fps m) fpsTargets_medium)
                        (Qgeb (fps m) fpsTargets_high)
                        (Qgtb (memory m) (memoryWarning * 0.8))
                        false false (deviceTier cfg) s) as Hcalc.
  { intros s. rewrite calculateOptimalSettings_ladder, Hhot, Hbat.
    by rewrite (Qltb_below (fps m) 20 fpsTargets_low Hfps). }
  assert (emergency m = true) as Hem.
  { unfold emergency. by rewrite (Qltb_below (fps m) 20 20 Hfps). }
  assert ((t <? t0 + 1000) = false) as Hthr by (apply Z.ltb_ge; lia).
  generalize dependent (Qgtb (memory m) (memoryWarning * 0.8)).
  intros memoryHigh Hcalc.
  destruct cfg as [tier hs hw]. cbn [deviceTier] in *.
  destruct (construct {| deviceTier := tier; hasScale := hs; hasWebGL := hw |} t0)
    as [st0|] eqn:H0.
  2:{ by destruct (construct_terminates
                     {| deviceTier := tier; hasScale := hs; hasWebGL := hw |} t0)
        as [? E]; rewrite E in H0. }
  exists st0.
  assert (exists st,
            run {| deviceTier := tier; hasScale := hs; hasWebGL := hw |}
              [(t, Sample m)] st0 = Some st /\
            emergencyFirings st = [(t, emergencySettings)] /\
            settingsPublished st
            = settingsPublished st0
              ++ [(t, lowRung 60); (t, emergencySettings); (t, lowRung 30)] /\
            currentSettings st = lowRung 30)
    as (st & H1 & H2 & H3 & H4).
  { destruct tier; [done| |];
      destruct memoryHigh;
      cbv -[Z.add Z.ltb] in H0; injection H0 as <-;
      unfold run, step, onMetrics;
      cbv -[calculateOptimalSettings Z.add Z.ltb emergency];
      rewrite Hthr, Hem;
      repeat first
        [ rewrite Hcalc
        | progress cbv -[calculateOptimalSettings Z.add Z.ltb emergency] ].
    all: eexists; split; [reflexivity|].
    all: split; [by destruct hs, hw|]; split; [by destruct hs, hw|reflexivity]. }
  exists st. rewrite H4. repeat split; done.
Qed.

Lemma emergency_limit_overridden_witness :
  let cfg := {| deviceTier := tier_high; hasScale := true; hasWebGL := true |} in
  let m := withFps 10 getInitialMetrics in
  deviceTier cfg <> tier_low /\
  0 + 1000 <= 1000 /\
  (fps m < 20)%Q /\
  thermalThrottled m = false /\
  batteryLow m = false /\
  exists st0 st,
    construct cfg 0 = Some st0 /\
    run cfg [(1000, Sample m)] st0 = Some st /\
    emergencyFirings st = [(1000, emergencySettings)] /\
    particleLimit emergencySettings = 25 /\
    settingsPublished st
    = settingsPublished st0
      ++ [(1000, lowRung 60); (1000, emergencySettings); (1000, lowRung 30)] /\
    currentSettings st = lowRung 30 /\
    particleLimit (currentSettings st) = 50.
Proof.
  cbv zeta. split; [discriminate|]. split; [lia|]. split; [reflexivity|].
  split; [reflexivity|]. split; [reflexivity|].
  apply emergency_limit_overridden;
    [discriminate|lia|reflexivity|reflexivity|reflexivity].
Defined.

End AdaptiveRendererController.

(** ** Claims about breakpoint classification *)

Module EnhancedResponsiveManagerClaims.
Import EnhancedResponsiveManager.

(** Width 834 on the shipped table is classified [tablet_lg]. *)
Lemma detectBreakpoint_834 : detectBreakpoint breakpoints 834 = tablet_lg.
Proof. reflexivity. Qed.

(** C5, where the code departs from it: on the shipped table the key
    [desktop_sm] (1280) is tested before [tablet_pro_xl] (1366), so a
    width of 1400 is classified [desktop_sm] although it also meets the
    larger threshold of [tablet_pro_xl]; the result is not the widest
    match. *)
Theorem detectBreakpoint_1400_not_widest :
  detectBreakpoint breakpoints 1400 = desktop_sm /\
  (breakpoints tablet_pro_xl <= 1400)%Q /\
  (breakpoints desktop_sm < breakpoints tablet_pro_xl)%Q /\
  ~ widestMatch breakpoints 1400 (detectBreakpoint breakpoints 1400).
Proof.
  split; [reflexivity|]. split; [discriminate|]. split; [reflexivity|].
  intros [_ H]. specialize (H tablet_pro_xl). cbn in H.
  apply (Qlt_not_le 1280 1366); [reflexivity|]. apply H. discriminate.
Qed.

Lemma Qle_bool_false (a b : Q) : Qle_bool a b = false -> (b < a)%Q.
Proof.
  intros H. apply Qnot_le_lt. intros X. apply Qle_bool_iff in X. congruence.
Qed.

(** Decides the outermost test of the ladder and keeps what was learnt
    as an order fact. *)
Ltac scan_step :=
  match goal with
  | |- (if Qle_bool ?a ?b then _ else _) <> _ =>
      let H := fresh "H" in
      destruct (Qle_bool a b) eqn:H;
      [apply Qle_bool_iff in H|apply Qle_bool_false in H]
  | |- widestMatch _ _ (if Qle_bool ?a ?b then _ else _) =>
      let H := fresh "H" in
      destruct (Qle_bool a b) eqn:H;
      [apply Qle_bool_iff in H|apply Qle_bool_false in H]
  end.

Ltac order_facts :=
  unfold Qle, Qlt in *; cbn [breakpoints Qnum Qden inject_Z] in *; lia.

(** No width at all is classified [tablet_pro_xl] on the shipped table:
    its test comes after the one of [desktop_sm], whose threshold is
    smaller. *)
Lemma tablet_pro_xl_unreachable width :
  detectBreakpoint breakpoints width <> tablet_pro_xl.
Proof.
  unfold detectBreakpoint, Qgeb.
  repeat (scan_step; [first [discriminate|intros _; order_facts]|]).
  discriminate.
Qed.

(** Everywhere else from 320 up, the shipped table does give the widest
    match. *)
Lemma detectBreakpoint_widest_elsewhere width :
  (320 <= width)%Q ->
  ~ ((1366 <= width)%Q /\ (width < 1440)%Q) ->
  widestMatch breakpoints width (detectBreakpoint breakpoints width).
Proof.
  intros Hmin Hgap. unfold detectBreakpoint, Qgeb.
  repeat (scan_step; [split; [|intros []]; order_facts|]).
  split; [|intros []]; order_facts.
Qed.

End EnhancedResponsiveManagerClaims.
(** ** Custom breakpoint tables and scale factors *)

Module EnhancedResponsiveManagerTables.
Import EnhancedResponsiveManager EnhancedResponsiveManagerClaims.

(** Decides the outermost test of the ladder. *)
Ltac scan :=
  match goal with
  | |- widestMatch _ _ (if Qle_bool ?a ?b then _ else _) =>
      let H := fresh "H" in
      destruct (Qle_bool a b) eqn:H;
      [apply Qle_bool_iff in H|apply Qle_bool_false in H]
  | |- (if Qle_bool ?a ?b then _ else _) = _ =>
      let H := fresh "H" in
      destruct (Qle_bool a b) eqn:H;
      [apply Qle_bool_iff in H|apply Qle_bool_false in H]
  end.

(** X4: On every table whose thresholds are ordered as the ladder tests them,
    in particular on such a table passed to the constructor, a width that
    meets the smallest threshold is classified by the widest breakpoint it
    meets; a width below the threshold of [mobile_sm] is classified
    [mobile_xs], also when it does not meet the threshold of [mobile_xs]. *)
Theorem detectBreakpoint_ordered_table bp width :
  ladderOrdered bp ->
  ((bp mobile_xs <= width)%Q ->
   widestMatch bp width (detectBreakpoint bp width)) /\
  ((width < bp mobile_sm)%Q -> detectBreakpoint bp width = mobile_xs).
Proof.
  intros (O1 & O2 & O3 & O4 & O5 & O6 & O7 & O8 & O9 & O10 & O11 & O12
          & O13 & O14).
  split.
  - intros Hmin. unfold detectBreakpoint, Qgeb.
    repeat (scan; [split; [lra|intros []; intros ?; lra]|]).
    split; [lra|intros []; intros ?; lra].
  - intros Hlow. unfold detectBreakpoint, Qgeb.
    repeat (scan; [lra|]). reflexivity.
Qed.

Lemma detectBreakpoint_ordered_table_witness :
  let bp := withCustom (fun k => match k with
                                 | tablet_pro_xl => Some 1250%Q
                                 | _ => None
                                 end) in
  ladderOrdered bp /\
  ((bp mobile_xs <= 1260)%Q ->
   widestMatch bp 1260 (detectBreakpoint bp 1260)) /\
  ((1260 < bp mobile_sm)%Q -> detectBreakpoint bp 1260 = mobile_xs) /\
  detectBreakpoint bp 1260 = tablet_pro_xl.
Proof.
  cbv zeta.
  assert (ladderOrdered
            (withCustom (fun k => match k with
                                  | tablet_pro_xl => Some 1250%Q
                                  | _ => None
                                  end))) as Hord
    by (repeat split; discriminate).
  split; [exact Hord|].
  pose proof (detectBreakpoint_ordered_table _ 1260 Hord) as [H1 H2].
  split; [exact H1|]. split; [exact H2|reflexivity].
Defined.

(** X5: On the shipped table the scale factor of a container always lies
    between 0.585 and 1.05: the base scale 1.1 listed for [tablet_pro_xl]
    is never used, because no width is classified [tablet_pro_xl]. *)
Theorem calculateScaleFactor_range width pixelRatio type :
  let breakpoint := detectBreakpoint breakpoints width in
  (0.585 <= calculateScaleFactor pixelRatio type breakpoint <= 1.05)%Q /\
  ~ (getBreakpointScale breakpoint == 1.1)%Q.
Proof.
  cbv zeta. pose proof (tablet_pro_xl_unreachable width) as Hdead.
  unfold calculateScaleFactor.
  destruct (detectBreakpoint breakpoints width); try done;
    (split; [|discriminate]);
    destruct type, (Qgtb pixelRatio 2), (Qgtb pixelRatio 1.5);
    split; discriminate.
Qed.

End EnhancedResponsiveManagerTables.

(** ** The save layer *)

Module SaveManagerFacts.
Import SaveManager.

Lemma digits36_cons fuel n acc :
  exists c rest, digits36 fuel n acc = String c rest.
Proof.
  revert n acc. induction fuel as [|fuel IH]; intros n acc; cbn.
  - by eexists _, _.
  - destruct (n / 36 =? 0); [by eexists _, _|apply IH].
Qed.

(** A checksum is never the empty string, so a stored checksum is always
    truthy. *)
Lemma toString36_truthy n : toBoolean (VStr (toString36 n)) = true.
Proof.
  unfold toString36. destruct (n <? 0); [reflexivity|].
  destruct (digits36_cons 6 n EmptyString) as (c & rest & ->). reflexivity.
Qed.

Lemma generateHash_truthy rt data hash :
  generateHash rt data = Some hash -> toBoolean (VStr hash) = true.
Proof.
  unfold generateHash. destruct (JSON_stringify rt data); [|done].
  intros [= <-]. apply toString36_truthy.
Qed.


Lemma strictEqualsString_refl s : strictEqualsString (VStr s) s = true.
Proof. cbn. apply String.eqb_refl. Qed.

Lemma nonempty_eqb s : s <> EmptyString -> String.eqb s "" = false.
Proof. intros H. by apply String.eqb_neq. Qed.




(** Whatever [Number] makes of the version, [load] hands out the [data]
    field once the integrity check has passed. *)
Lemma load_try_checked cfg rt w stored text saveData version :
  localStorage w !! storageKey cfg = Some stored ->
  stored <> EmptyString ->
  (if useCompression cfg then decompress rt stored else Some stored)
  = Some text ->
  JSON_parse rt text = Some saveData ->
  verifyIntegrity rt saveData = Some true ->
  getProp saveData "version" = Some (VStr version) ->
  exists data w',
    getProp saveData "data" = Some data /\
    load_try cfg rt w = Some (data, w').
Proof.
  intros Hstored Hne Hdec Hparse Hok Hv.
  assert (exists data, getProp saveData "data" = Some data) as [data Hd].
  { destruct saveData; cbn in Hv |- *; try done; by eexists. }
  exists data. unfold load_try.
  rewrite Hstored, (nonempty_eqb stored Hne), Hdec, Hparse, Hok, Hv.
  unfold isVersionCompatible, migrate. rewrite Hd.
  destruct (numberEquals _ _); by eexists.
Qed.


End SaveManagerFacts.

(** The save layer run on concrete data. *)

Module SaveManagerExamples.
Import SaveManager MiniJSON.

(** The checksum is the 32-bit polynomial hash with multiplier 31, printed
    in base 36; it wraps around into the negative numbers. *)
Example hashLoop_hello_world : hashLoop "hello world" 0 = 1794106052.
Proof. reflexivity. Qed.

Example hashLoop_wraps : hashLoop "polygenelubricants" 0 = - 2 ^ 31.
Proof. reflexivity. Qed.

Example toString36_values :
  toString36 96354 = "22ci" /\ toString36 0 = "0" /\
  toString36 (- 2 ^ 31) = "-zik0zk" /\ toString36 (2 ^ 31 - 1) = "zik0zj".
Proof. repeat split. Qed.

(** A stored envelope whose score was edited from 42 to 43 while its hash
    was left alone is refused. *)
Example load_refuses_edited_score :
  let edited :=
    envelope (now demoWorld)
      (VObj [("score", VNum 43); ("name", VStr "ann");
             ("items", VArr [VNum 1; VNull; VBool true; VNum (-3)])])
      demoHash in
  let w := setItem (storageKey demoConfig) (text_of edited) demoWorld in
  JSON_parse runtime (text_of edited) = Some edited /\
  verifyIntegrity runtime edited = Some false /\
  fst (load demoConfig runtime w) = VNull.
Proof.
  cbv zeta. split; [by vm_compute|]. split; [by vm_compute|].
  unfold load, load_try. cbn [localStorage setItem storageKey demoConfig].
  rewrite lookup_insert_eq. by vm_compute.
Qed.

End SaveManagerExamples.

Module SaveManagerClaims.
Import SaveManager SaveManagerFacts MiniJSON.

(** C10: when the stored envelope parses but its [hash] field is missing
    or empty (or otherwise falsy), [verifyIntegrity] answers [true]
    without looking at the data, and [load] returns the envelope's [data]
    field. *)
Theorem load_accepts_missing_hash cfg rt w stored text saveData hash version :
  localStorage w !! storageKey cfg = Some stored ->
  stored <> EmptyString ->
  (if useCompression cfg then decompress rt stored else Some stored)
  = Some text ->
  JSON_parse rt text = Some saveData ->
  getProp saveData "hash" = Some hash ->
  toBoolean hash = false ->
  getProp saveData "version" = Some (VStr version) ->
  verifyIntegrity rt saveData = Some true /\
  Some (fst (load cfg rt w)) = getProp saveData "data".
Proof.
  intros Hstored Hne Hdec Hparse Hhash Hfalsy Hversion.
  assert (verifyIntegrity rt saveData = Some true) as Hok.
  { unfold verifyIntegrity. by rewrite Hhash, Hfalsy. }
  split; [done|].
  destruct (load_try_checked cfg rt w stored text saveData version)
    as (d & w' & Hd & Hload); try done.
  unfold load. by rewrite Hload, Hd.
Qed.

Lemma load_accepts_missing_hash_witness :
  let stored := text_of demoStripped in
  localStorage demoStrippedWorld !! storageKey demoConfig = Some stored /\
  stored <> EmptyString /\
  (if useCompression demoConfig then decompress runtime stored else Some stored)
  = Some stored /\
  JSON_parse runtime stored = Some demoStripped /\
  getProp demoStripped "hash" = Some VUndefined /\
  toBoolean VUndefined = false /\
  getProp demoStripped "version" = Some (VStr getVersion) /\
  (verifyIntegrity runtime demoStripped = Some true /\
   Some (fst (load demoConfig runtime demoStrippedWorld))
   = getProp demoStripped "data").
Proof.
  cbv zeta.
  assert (localStorage demoStrippedWorld !! storageKey demoConfig
          = Some (text_of demoStripped)) as H1 by apply lookup_insert_eq.
  assert (text_of demoStripped <> EmptyString) as H2
    by (vm_compute; discriminate).
  assert (JSON_parse runtime (text_of demoStripped) = Some demoStripped) as H4
    by (vm_compute; reflexivity).
  split; [exact H1|]. split; [exact H2|]. split; [reflexivity|].
  split; [exact H4|]. split; [reflexivity|]. split; [reflexivity|].
  split; [reflexivity|].
  exact (load_accepts_missing_hash demoConfig runtime demoStrippedWorld
           (text_of demoStripped) (text_of demoStripped) demoStripped
           VUndefined getVersion H1 H2 eq_refl H4 eq_refl eq_refl eq_refl).
Defined.

End SaveManagerClaims.
(** ** The checksum and the other storage operations *)

Module SaveManagerChecksum.
Import SaveManager SaveManagerSpec.

Ltac powers :=
  change (2 ^ 32) with 4294967296 in *;
  change (2 ^ 31) with 2147483648 in *;
  change (2 ^ 5) with 32 in *.

Lemma toInt32_wraps z : exists k, toInt32 z = z + k * 2 ^ 32.
Proof.
  exists (- ((z + 2 ^ 31) / 2 ^ 32)). unfold toInt32. powers.
  pose proof (Z.div_mod (z + 2147483648) 4294967296 ltac:(lia)). lia.
Qed.

Lemma toInt32_multiple z k : toInt32 (z + k * 2 ^ 32) = toInt32 z.
Proof.
  unfold toInt32. replace (z + k * 2 ^ 32 + 2 ^ 31)
    with (z + 2 ^ 31 + k * 2 ^ 32) by lia.
  by rewrite Z_mod_plus_full.
Qed.

Lemma toInt32_range z : - 2 ^ 31 <= toInt32 z < 2 ^ 31.
Proof.
  unfold toInt32. powers.
  pose proof (Z.mod_pos_bound (z + 2147483648) 4294967296 ltac:(lia)). lia.
Qed.

Lemma toInt32_small z : - 2 ^ 31 <= z < 2 ^ 31 -> toInt32 z = z.
Proof. intros H. unfold toInt32. powers. rewrite Z.mod_small; lia. Qed.

(** The shift and subtraction of the loop multiply by 31 modulo [2^32]. *)
Lemma hashChar_times31 hash c :
  hashChar hash c = toInt32 (31 * hash + Z.of_nat (nat_of_ascii c)).
Proof.
  unfold hashChar. cbv zeta. rewrite Z.shiftl_mul_pow2 by lia.
  destruct (toInt32_wraps (hash * 2 ^ 5)) as [k ->].
  replace (hash * 2 ^ 5 + k * 2 ^ 32 - hash + Z.of_nat (nat_of_ascii c))
    with (31 * hash + Z.of_nat (nat_of_ascii c) + k * 2 ^ 32) by lia.
  apply toInt32_multiple.
Qed.

Lemma hashLoop_polynomial str hash :
  hashLoop str (toInt32 hash) = toInt32 (polynomial31 str hash).
Proof.
  revert hash. induction str as [|c rest IH]; intros hash; [done|].
  cbn [hashLoop polynomial31]. rewrite hashChar_times31.
  destruct (toInt32_wraps hash) as [k ->].
  replace (31 * (hash + k * 2 ^ 32) + Z.of_nat (nat_of_ascii c))
    with (31 * hash + Z.of_nat (nat_of_ascii c) + (31 * k) * 2 ^ 32) by lia.
  rewrite toInt32_multiple. apply IH.
Qed.

(** X6: The checksum computed by [generateHash] is the polynomial hash with
    multiplier 31 over the character codes of the JSON text, wrapped into
    the signed 32-bit range. *)
Theorem generateHash_polynomial rt data str :
  JSON_stringify rt data = Some str ->
  generateHash rt data = Some (toString36 (toInt32 (polynomial31 str 0))) /\
  - 2 ^ 31 <= hashLoop str 0 < 2 ^ 31.
Proof.
  intros Hstr. unfold generateHash. rewrite Hstr.
  change 0 with (toInt32 0) at 1 3 4. rewrite hashLoop_polynomial.
  split; [done|apply toInt32_range].
Qed.

Lemma generateHash_polynomial_witness :
  JSON_stringify MiniJSON.runtime MiniJSON.demoData
  = Some (MiniJSON.text_of MiniJSON.demoData) /\
  generateHash MiniJSON.runtime MiniJSON.demoData
  = Some (toString36
            (toInt32 (polynomial31 (MiniJSON.text_of MiniJSON.demoData) 0))) /\
  - 2 ^ 31 <= hashLoop (MiniJSON.text_of MiniJSON.demoData) 0 < 2 ^ 31.
Proof.
  split; [reflexivity|].
  apply generateHash_polynomial. reflexivity.
Defined.

(** *** A changed character changes the checksum *)








(** *** The base-36 text of a hash *)

Lemma digitValue_digit36 d : 0 <= d < 36 -> digitValue (digit36 d) = d.
Proof.
  intros Hd. assert (exists k : nat, d = Z.of_nat k /\ (k < 36)%nat) as (k & -> & Hk).
  { exists (Z.to_nat d). lia. }
  do 36 (destruct k as [|k]; [reflexivity|]). lia.
Qed.

Lemma value36_linear s v :
  value36 s v = v * 36 ^ Z.of_nat (String.length s) + value36 s 0.
Proof.
  revert v. induction s as [|c rest IH]; intros v.
  - cbn. lia.
  - cbn [value36 String.length]. rewrite IH, (IH (0 * 36 + digitValue c)).
    rewrite Nat2Z.inj_succ, Z.pow_succ_r by lia. lia.
Qed.

Lemma value36_digits36 fuel n acc :
  0 <= n < 36 ^ Z.of_nat (S fuel) ->
  value36 (digits36 fuel n acc) 0
  = n * 36 ^ Z.of_nat (String.length acc) + value36 acc 0.
Proof.
  revert n acc. induction fuel as [|fuel IH]; intros n acc Hn.
  - cbn [digits36 value36]. rewrite value36_linear.
    rewrite digitValue_digit36 by (apply Z.mod_pos_bound; lia).
    change (36 ^ Z.of_nat 1) with 36 in Hn.
    rewrite Z.mod_small by lia. lia.
  - cbn [digits36].
    assert (value36 (String (digit36 (n mod 36)) acc) 0
            = n mod 36 * 36 ^ Z.of_nat (String.length acc) + value36 acc 0)
      as Hhead.
    { cbn [value36]. rewrite value36_linear.
      rewrite digitValue_digit36 by (apply Z.mod_pos_bound; lia). lia. }
    pose proof (Z.div_mod n 36 ltac:(lia)) as Hdm.
    destruct (Z.eqb_spec (n / 36) 0) as [Hz|Hnz].
    + rewrite Hhead. f_equal. f_equal. lia.
    + rewrite IH.
      * rewrite Hhead. cbn [String.length].
        rewrite Nat2Z.inj_succ, Z.pow_succ_r by lia. lia.
      * rewrite Nat2Z.inj_succ, Z.pow_succ_r in Hn by lia.
        split; [apply Z.div_pos; lia|].
        apply Z.div_lt_upper_bound; lia.
Qed.

Lemma digits36_not_minus fuel n acc :
  0 <= n -> exists c rest, digits36 fuel n acc = String c rest /\ c <> "-"%char.
Proof.
  revert n acc. induction fuel as [|fuel IH]; intros n acc Hn; cbn [digits36].
  - exists (digit36 (n mod 36)), acc. split; [done|].
    pose proof (digitValue_digit36 (n mod 36) ltac:(apply Z.mod_pos_bound; lia)) as Hv.
    intros E. rewrite E in Hv. change (digitValue "-") with (-3) in Hv.
    pose proof (Z.mod_pos_bound n 36 ltac:(lia)). lia.
  - destruct (n / 36 =? 0).
    + exists (digit36 (n mod 36)), acc. split; [done|].
      pose proof (digitValue_digit36 (n mod 36) ltac:(apply Z.mod_pos_bound; lia)) as Hv.
      intros E. rewrite E in Hv. change (digitValue "-") with (-3) in Hv.
      pose proof (Z.mod_pos_bound n 36 ltac:(lia)). lia.
    + apply IH. apply Z.div_pos; lia.
Qed.




(** X7: The text of a hash determines the hash: reading it back in base 36
    returns the 32-bit number, so two checksums compare equal as strings
    exactly when the hashes are equal. *)
Theorem toString36_roundtrip n m :
  - 2 ^ 31 <= n < 2 ^ 31 ->
  - 2 ^ 31 <= m < 2 ^ 31 ->
  parseInt36 (toString36 n) = n /\
  (toString36 n = toString36 m <-> n = m).
Proof.
  assert (forall k, - 2 ^ 31 <= k < 2 ^ 31 -> parseInt36 (toString36 k) = k)
    as Hback.
  { intros k Hk. unfold toString36.
    destruct (Z.ltb_spec k 0) as [Hneg|Hpos].
    - cbn [parseInt36].
      rewrite value36_digits36 by (change (36 ^ Z.of_nat 7) with 78364164096; lia).
      cbn. lia.
    - destruct (digits36_not_minus 6 k EmptyString Hpos) as (c & rest & E & Hc).
      assert (parseInt36 (digits36 6 k EmptyString)
              = value36 (digits36 6 k EmptyString) 0) as ->.
      { rewrite E. unfold parseInt36.
        destruct c as [[] [] [] [] [] [] [] []]; try reflexivity.
        by destruct Hc. }
      rewrite value36_digits36 by (change (36 ^ Z.of_nat 7) with 78364164096; lia).
      cbn. lia. }
  intros Hn Hm. split; [by apply Hback|]. split; [|by intros ->].
  intros E. rewrite <- (Hback n Hn), <- (Hback m Hm). by rewrite E.
Qed.

Lemma toString36_roundtrip_witness :
  - 2 ^ 31 <= - 2 ^ 31 < 2 ^ 31 /\
  - 2 ^ 31 <= 96354 < 2 ^ 31 /\
  parseInt36 (toString36 (- 2 ^ 31)) = - 2 ^ 31 /\
  (toString36 (- 2 ^ 31) = toString36 96354 <-> - 2 ^ 31 = 96354).
Proof.
  split; [lia|]. split; [lia|].
  apply toString36_roundtrip; lia.
Defined.

End SaveManagerChecksum.

Module SaveManagerStorage.
Import SaveManager SaveManagerFacts.

Lemma load_of_stored cfg cfg' rt w w' :
  localStorage w' !! storageKey cfg' = localStorage w !! storageKey cfg ->
  useCompression cfg' = useCompression cfg ->
  fst (load cfg' rt w') = fst (load cfg rt w).
Proof.
  intros Hstored Hc. unfold load, load_try. rewrite Hstored, Hc.
  destruct (localStorage w !! storageKey cfg) as [stored|]; [|done].
  destruct (String.eqb stored ""); [done|].
  destruct (if useCompression cfg then decompress rt stored else Some stored)
    as [text|]; [|done].
  destruct (JSON_parse rt text) as [saveData|]; [|done].
  destruct (verifyIntegrity rt saveData) as [[]|]; [|done|done].
  destruct (getProp saveData "version") as [version|]; [|done].
  destruct (isVersionCompatible rt version) as [[]|]; [| |done].
  - by destruct (getProp saveData "data").
  - by destruct (migrate saveData).
Qed.

(** X8: After a successful [save] the slot exists; [delete] empties it, after
    which [exists] is false and [load] answers null, and no other key of
    the storage is touched by either. *)
Theorem save_exists_delete cfg rt data w w1 :
  save cfg rt data w = (true, w1) ->
  exists_ cfg w1 = true /\
  fst (delete cfg w1) = true /\
  exists_ cfg (snd (delete cfg w1)) = false /\
  load cfg rt (snd (delete cfg w1)) = (VNull, snd (delete cfg w1)) /\
  forall key, key <> storageKey cfg ->
    localStorage (snd (delete cfg w1)) !! key = localStorage w !! key.
Proof.
  unfold save, save_try.
  destruct (generateHash rt data) as [hash|]; [|done].
  destruct (JSON_stringify rt _) as [text|]; [|done].
  destruct (if useCompression cfg then compress rt text else Some text)
    as [stored|]; [|done].
  intros [= <-]. unfold exists_, delete, load, load_try; cbn.
  rewrite lookup_insert_eq, lookup_delete_eq.
  repeat split; try done.
  intros key Hkey. by rewrite lookup_delete_ne, lookup_insert_ne.
Qed.

Lemma save_exists_delete_witness :
  exists w1,
    save MiniJSON.demoConfig MiniJSON.runtime MiniJSON.demoData MiniJSON.demoWorld
    = (true, w1) /\
    exists_ MiniJSON.demoConfig w1 = true /\
    fst (delete MiniJSON.demoConfig w1) = true /\
    exists_ MiniJSON.demoConfig (snd (delete MiniJSON.demoConfig w1)) = false /\
    load MiniJSON.demoConfig MiniJSON.runtime (snd (delete MiniJSON.demoConfig w1))
    = (VNull, snd (delete MiniJSON.demoConfig w1)) /\
    forall key, key <> storageKey MiniJSON.demoConfig ->
      localStorage (snd (delete MiniJSON.demoConfig w1)) !! key
      = localStorage MiniJSON.demoWorld !! key.
Proof.
  eexists. split; [reflexivity|].
  apply (save_exists_delete MiniJSON.demoConfig MiniJSON.runtime
           MiniJSON.demoData MiniJSON.demoWorld).
  reflexivity.
Defined.

(** X9: Export and import carry a save from one manager to another: when the
    text exported by the first is imported by a second with the same
    compression setting (under whatever key), [load] of the second returns
    what [load] of the first returns.  The import itself checks nothing:
    it reports success for any text. *)
Theorem export_import_roundtrip cfg cfg' rt w w' text :
  exportSave cfg w = Some text ->
  useCompression cfg' = useCompression cfg ->
  fst (importSave cfg' (Some text) w') = true /\
  fst (load cfg' rt (snd (importSave cfg' (Some text) w')))
  = fst (load cfg rt w).
Proof.
  intros Hexport Hc. split; [done|].
  apply load_of_stored; [|done]. cbn. rewrite lookup_insert_eq.
  unfold exportSave in Hexport.
  destruct (localStorage w !! storageKey cfg) as [stored|]; [|done].
  by destruct (String.eqb stored "").
Qed.

Lemma export_import_roundtrip_witness :
  let other := {| storageKey := "slot-2"; useCompression := false |} in
  let w := snd (save MiniJSON.demoConfig MiniJSON.runtime MiniJSON.demoData
                  MiniJSON.demoWorld) in
  let text := MiniJSON.text_of
                (envelope (now MiniJSON.demoWorld) MiniJSON.demoData
                   MiniJSON.demoHash) in
  exportSave MiniJSON.demoConfig w = Some text /\
  useCompression other = useCompression MiniJSON.demoConfig /\
  fst (importSave other (Some text) MiniJSON.demoWorld) = true /\
  fst (load other MiniJSON.runtime
         (snd (importSave other (Some text) MiniJSON.demoWorld)))
  = fst (load MiniJSON.demoConfig MiniJSON.runtime w).
Proof.
  cbv zeta.
  assert (exportSave MiniJSON.demoConfig
            (snd (save MiniJSON.demoConfig MiniJSON.runtime MiniJSON.demoData
                    MiniJSON.demoWorld))
          = Some (MiniJSON.text_of
                    (envelope (now MiniJSON.demoWorld) MiniJSON.demoData
                       MiniJSON.demoHash))) as H.
  { unfold exportSave. cbn -[MiniJSON.text_of String.eqb].
    rewrite lookup_insert_eq. by vm_compute. }
  split; [exact H|]. split; [reflexivity|].
  apply (export_import_roundtrip MiniJSON.demoConfig _ MiniJSON.runtime _ _ _ H).
  reflexivity.
Defined.

(** X10: The checksum protects the [data] field only: an envelope that parses
    with the original data and hash is accepted, and its data returned,
    whatever its [timestamp] and whatever version string it carries (an
    incompatible version goes through [migrate], which returns the data as
    well). *)
Theorem load_ignores_timestamp_and_version cfg rt w stored text
    version timestamp data hash :
  localStorage w !! storageKey cfg = Some stored ->
  stored <> EmptyString ->
  (if useCompression cfg then decompress rt stored else Some stored)
  = Some text ->
  JSON_parse rt text
  = Some (VObj [("version", VStr version); ("timestamp", timestamp);
                ("data", data); ("hash", VStr hash)]) ->
  generateHash rt data = Some hash ->
  fst (load cfg rt w) = data.
Proof.
  intros Hstored Hne Hdec Hparse Hhash.
  destruct (load_try_checked cfg rt w stored text _ version Hstored Hne Hdec Hparse)
    as (d & w' & Hd & Hload).
  - unfold verifyIntegrity. cbn [getProp lookupField String.eqb Ascii.eqb Bool.eqb].
    rewrite (generateHash_truthy rt data hash Hhash); cbn [negb].
    by rewrite Hhash, strictEqualsString_refl.
  - reflexivity.
  - unfold load. rewrite Hload. cbn in Hd |- *. congruence.
Qed.

Lemma load_ignores_timestamp_and_version_witness :
  let forged :=
    VObj [("version", VStr "7.3.0"); ("timestamp", VNum 5);
          ("data", MiniJSON.demoData); ("hash", VStr MiniJSON.demoHash)] in
  let stored := MiniJSON.text_of forged in
  let w := setItem (storageKey MiniJSON.demoConfig) stored MiniJSON.demoWorld in
  localStorage w !! storageKey MiniJSON.demoConfig = Some stored /\
  stored <> EmptyString /\
  JSON_parse MiniJSON.runtime stored = Some forged /\
  generateHash MiniJSON.runtime MiniJSON.demoData = Some MiniJSON.demoHash /\
  fst (load MiniJSON.demoConfig MiniJSON.runtime w) = MiniJSON.demoData.
Proof.
  cbv zeta.
  set (forged := VObj [("version", VStr "7.3.0"); ("timestamp", VNum 5);
          ("data", MiniJSON.demoData); ("hash", VStr MiniJSON.demoHash)]).
  assert (localStorage (setItem (storageKey MiniJSON.demoConfig)
                          (MiniJSON.text_of forged) MiniJSON.demoWorld)
          !! storageKey MiniJSON.demoConfig
          = Some (MiniJSON.text_of forged)) as H1 by apply lookup_insert_eq.
  assert (MiniJSON.text_of forged <> EmptyString) as H2
    by (vm_compute; discriminate).
  assert (JSON_parse MiniJSON.runtime (MiniJSON.text_of forged) = Some forged)
    as H3 by (vm_compute; reflexivity).
  assert (generateHash MiniJSON.runtime MiniJSON.demoData
          = Some MiniJSON.demoHash) as H4 by (vm_compute; reflexivity).
  split; [exact H1|]. split; [exact H2|]. split; [exact H3|]. split; [exact H4|].
  exact (load_ignores_timestamp_and_version MiniJSON.demoConfig MiniJSON.runtime
           _ _ _ "7.3.0" (VNum 5) MiniJSON.demoData MiniJSON.demoHash
           H1 H2 eq_refl H3 H4).
Defined.

End SaveManagerStorage.
(** ** The round trip through [save] and [load] *)

Module SaveManagerRoundTrip.
Import SaveManager SaveManagerSpec SaveManagerFacts SaveManagerChecksum MiniJSON.






End SaveManagerRoundTrip.

(** ** Buffers cut at fixed window boundaries *)

Module RxBufferFacts.
Import Rx.

Lemma div_between (x span q : Z) :
  0 < span -> q * span <= x < (q + 1) * span -> x / span = q.
Proof.
  intros Hs Hx. symmetry. apply (Z.div_unique x span q (x - q * span)); lia.
Qed.

Lemma bufferTime_advance_early {A} span now (st : BufferTime A) :
  now < bufferDue st -> bufferTime_advance span now st = ([], st).
Proof.
  intros H. unfold bufferTime_advance.
  destruct (Z.ltb_spec now (bufferDue st)); [done|lia].
Qed.

(** Every buffer emitted while time advances is the open one or empty. *)
Lemma bufferTime_advance_buffers {A} span now (st : BufferTime A) t b :
  In (t, b) (fst (bufferTime_advance span now st)) ->
  (t = bufferDue st /\ b = buffer st) \/ b = [].
Proof.
  unfold bufferTime_advance. destruct (now <? bufferDue st); cbn; [done|].
  intros [[= <- <-]|Hin]; [by left|right].
  apply in_map_iff in Hin as (i & [= _ <-] & _). done.
Qed.

(** After the advance the open buffer is the one of the window that
    contains [now]. *)
Lemma bufferTime_advance_window {A} span start j k now (st : BufferTime A) :
  0 < span ->
  bufferDue st = start + (j + 1) * span ->
  j <= k ->
  start + k * span <= now < start + (k + 1) * span ->
  let st' := snd (bufferTime_advance span now st) in
  bufferDue st' = start + (k + 1) * span /\
  (j = k -> bufferTime_advance span now st = ([], st)) /\
  (j < k -> buffer st' = []).
Proof.
  intros Hs Hdue Hjk Hnow. unfold bufferTime_advance.
  destruct (Z.ltb_spec now (bufferDue st)) as [Hlt|Hge]; cbn.
  - assert (j = k) as -> by nia. repeat split; [done|lia].
  - assert (j < k) by nia.
    rewrite (div_between (now - bufferDue st) span (k - j - 1)) by nia.
    repeat split; [nia|lia].
Qed.

End RxBufferFacts.

(** ** The double-click detector *)

Module ReactiveEventBusFacts.
Import Rx RxBufferFacts ReactiveEventBus ReactiveEventBusSpec.

Section DoubleClick.
Context {A : Type}.
Implicit Types (st : BufferTime A) (events : list (Z * A)).

Lemma derive_cons t (b : list A) rest :
  derive ((t, b) :: rest)
  = match secondOfTwo b with Some x => [(t, x)] | None => [] end
    ++ derive rest.
Proof. unfold derive; cbn. by destruct (secondOfTwo b). Qed.

Lemma derive_empty_buffers (buffers : list (Z * list A)) :
  Forall (fun tb => snd tb = []) buffers -> derive buffers = [].
Proof.
  induction 1 as [|[t b] rest Hb _ IH]; [done|].
  cbn in Hb; subst. by rewrite derive_cons, IH.
Qed.

(** An advance that emits the open buffer derives at most one event, from
    that buffer. *)
Lemma doubleClick_advance_due timeWindow now st :
  bufferDue st <= now ->
  fst (doubleClick_advance timeWindow now st)
  = match secondOfTwo (buffer st) with
    | Some x => [(bufferDue st, x)]
    | None => []
    end.
Proof.
  intros Hdue. unfold doubleClick_advance, bufferTime_advance.
  destruct (Z.ltb_spec now (bufferDue st)); [lia|]. cbn [fst].
  rewrite derive_cons, derive_empty_buffers; [by rewrite app_nil_r|].
  apply Forall_forall. intros tb (i & <- & _)%list_elem_of_In%in_map_iff. done.
Qed.

Lemma doubleClick_advance_early timeWindow now st :
  now < bufferDue st -> doubleClick_advance timeWindow now st = ([], st).
Proof.
  intros H. unfold doubleClick_advance.
  by rewrite bufferTime_advance_early.
Qed.

End DoubleClick.

(** *** Runs over events in the order of their time stamps *)

Lemma omap_agree {X Y} (f g : X -> option Y) (l : list X) :
  (forall x, In x l -> f x = g x) -> omap f l = omap g l.
Proof.
  induction l as [|x l IH]; intros H; [done|]. cbn.
  rewrite (H x) by (by left). rewrite IH; [done|].
  intros y Hy. apply H. by right.
Qed.

Lemma omap_nothing {X Y} (f : X -> option Y) (l : list X) :
  (forall x, In x l -> f x = None) -> omap f l = [].
Proof.
  induction l as [|x l IH]; intros H; [done|]. cbn.
  rewrite (H x) by (by left). apply IH. intros y Hy. apply H. by right.
Qed.

Lemma in_seqZ m n k : In k (seqZ m n) <-> m <= k < m + n.
Proof. rewrite <- list_elem_of_In. apply elem_of_seqZ. Qed.

Section Windows.
Context {A : Type} (name : string) (W start : Z) (HW : 0 < W).
Implicit Types (st : BufferTime A) (events : list (Z * (string * A))).

Lemma secondOfTwo_collapse (l : list A) : secondOfTwo l = collapse l.
Proof. by destruct l as [|a [|b [|c l]]]. Qed.

Lemma windowOf_spec t k :
  windowOf W start t = k <-> start + k * W <= t < start + (k + 1) * W.
Proof.
  unfold windowOf. split.
  - intros <-. pose proof (Z.div_mod (t - start) W).
    pose proof (Z.mod_pos_bound (t - start) W). nia.
  - intros H. apply div_between; [done|]. lia.
Qed.

Lemma arrivals_cons k t n x events :
  arrivals name W start k ((t, (n, x)) :: events)
  = if String.eqb n name && (windowOf W start t =? k)
    then x :: arrivals name W start k events
    else arrivals name W start k events.
Proof.
  unfold arrivals; cbn.
  by destruct (String.eqb n name && (windowOf W start t =? k)).
Qed.

Lemma arrivals_none k events :
  Forall (fun e => windowOf W start (fst e) <> k) events ->
  arrivals name W start k events = [].
Proof.
  induction 1 as [|[t [n x]] rest Hx _ IH]; [done|].
  rewrite arrivals_cons. cbn in Hx.
  destruct (Z.eqb_spec (windowOf W start t) k); [done|].
  by rewrite andb_false_r.
Qed.

Lemma pending_subscribe now k :
  pending (doubleClick_subscribe (A := A) W now) 0 k = [].
Proof. unfold pending. by destruct (k =? 0). Qed.

(** The emission of one advance. *)
Lemma doubleClick_advance_spec now st j :
  bufferDue st = closeOf W start j ->
  start + j * W <= now ->
  let k := windowOf W start now in
  let r := doubleClick_advance W now st in
  j <= k /\
  bufferDue (snd r) = closeOf W start k /\
  buffer (snd r) = pending st j k /\
  fst r = omap (fun i => pair (closeOf W start i)
                           <$> secondOfTwo (pending st j i))
            (seqZ j (k - j)).
Proof.
  intros Hdue Hnow k r. subst r. unfold pending.
  assert (start + k * W <= now < start + (k + 1) * W) as Hk
    by (by apply windowOf_spec).
  assert (j <= k) as Hjk by (unfold closeOf in *; nia).
  split; [done|].
  destruct (Z.eqb_spec k j) as [->|Hne].
  - rewrite doubleClick_advance_early by (unfold closeOf in *; lia).
    by rewrite Z.sub_diag.
  - destruct (bufferTime_advance_window W start j k now st HW Hdue Hjk Hk)
      as (Hd & _ & Hb).
    rewrite doubleClick_advance_due by (unfold closeOf in *; nia).
    unfold doubleClick_advance.
    destruct (bufferTime_advance W now st) as [buffers st1]. cbn [snd] in *.
    rewrite Hdue. split; [done|]. split; [apply Hb; lia|].
    rewrite seqZ_cons by lia. cbn. rewrite Z.eqb_refl.
    rewrite (omap_nothing _ (seqZ _ _)).
    + by destruct (secondOfTwo (buffer st)).
    + intros i Hi%in_seqZ. by destruct (Z.eqb_spec i j); [lia|].
Qed.

(** A run that starts with the buffer of window [j] open ends with the
    buffer of some window [j'] open and has emitted for the windows from
    [j] up to [j']. *)
Lemma doubleClick_run_windows events :
  forall st j,
    bufferDue st = closeOf W start j ->
    Forall (fun e => start + j * W <= fst e) events ->
    StronglySorted (fun a b => fst a <= fst b) events ->
    let r := doubleClick_run name W events st in
    exists j',
      j <= j' /\
      bufferDue (snd r) = closeOf W start j' /\
      buffer (snd r) = pending st j j' ++ arrivals name W start j' events /\
      Forall (fun e => fst e < closeOf W start j') events /\
      (j' = j \/ exists e, In e events /\ start + j' * W <= fst e) /\
      fst r
      = omap (fun k => pair (closeOf W start k)
                         <$> secondOfTwo (pending st j k
                                          ++ arrivals name W start k events))
          (seqZ j (j' - j)).
Proof.
  induction events as [|[t [n x]] rest IH]; intros st j Hdue Hfrom Hsorted r.
  - exists j. subst r; cbn. unfold pending.
    rewrite Z.eqb_refl, app_nil_r, Z.sub_diag.
    split; [lia|]. split; [done|]. split; [done|]. split; [constructor|].
    split; [by left|done].
  - apply Forall_cons in Hfrom as [Ht Hrest]. cbn [fst] in Ht.
    apply StronglySorted_inv in Hsorted as [Hsorted Hle].
    subst r. cbn [doubleClick_run]. unfold doubleClick_emit. cbn [fst snd].
    destruct (doubleClick_advance_spec t st j Hdue Ht)
      as (Hj1 & Hdue1 & Hbuf1 & Hout1).
    assert (start + windowOf W start t * W <= t
            < start + (windowOf W start t + 1) * W) as Hwin
      by (by apply windowOf_spec).
    remember (windowOf W start t) as j1 eqn:Ej1.
    destruct (doubleClick_advance W t st) as [out1 st1]. cbn [fst snd] in *.
    set (st2 := if String.eqb n name then bufferTime_next x st1 else st1).
    assert (bufferDue st2 = closeOf W start j1) as Hdue2
      by (subst st2; by destruct (String.eqb n name)).
    assert (buffer st2
            = pending st j j1 ++ if String.eqb n name then [x] else []) as Hbuf2.
    { subst st2. destruct (String.eqb n name); cbn; rewrite Hbuf1; [done|].
      by rewrite app_nil_r. }
    destruct (IH st2 j1) as (j' & Hj' & Hdue' & Hbuf' & Hbefore & Hlast & Hout');
      [exact Hdue2| |exact Hsorted|].
    { rewrite Forall_forall in Hle |- *. intros e He.
      specialize (Hle e He). cbn in Hle. lia. }
    destruct (doubleClick_run name W rest st2) as [out' st'] eqn:Hrun.
    cbn [fst snd] in *.
    assert (forall k, k < j1 ->
              arrivals name W start k ((t, (n, x)) :: rest) = []) as Hempty.
    { intros k Hk. apply arrivals_none. apply Forall_cons. split.
      - cbn. lia.
      - rewrite Forall_forall in Hle |- *. intros e He Hwe.
        specialize (Hle e He). cbn in Hle.
        apply windowOf_spec in Hwe. nia. }
    assert (forall k, j1 <= k ->
              pending st j k ++ arrivals name W start k ((t, (n, x)) :: rest)
              = pending st2 j1 k ++ arrivals name W start k rest) as Hshift.
    { intros k Hk. rewrite arrivals_cons, <- Ej1. unfold pending at 2.
      rewrite Hbuf2. unfold pending.
      destruct (Z.eqb_spec k j1) as [E1|N1].
      - rewrite E1, Z.eqb_refl, andb_true_r.
        destruct (String.eqb n name); by rewrite <- app_assoc.
      - destruct (Z.eqb_spec j1 k); [lia|]. rewrite andb_false_r.
        destruct (Z.eqb_spec k j); [lia|done]. }
    exists j'. split; [lia|]. split; [exact Hdue'|]. split; [|split; [|split]].
    + rewrite Hbuf'. symmetry. by apply Hshift.
    + apply Forall_cons. split; [cbn; unfold closeOf; nia|exact Hbefore].
    + destruct Hlast as [E|(e & He & Hge)].
      * destruct (Z.eq_dec j1 j) as [E'|?]; [left; lia|right].
        exists (t, (n, x)). split; [by left|cbn; rewrite E; lia].
      * right. exists e. split; [by right|done].
    + replace (j' - j) with ((j1 - j) + (j' - j1)) by lia.
      rewrite seqZ_app, omap_app by lia. f_equal.
      * rewrite Hout1. apply omap_agree. intros k Hk%in_seqZ.
        by rewrite Hempty, app_nil_r by lia.
      * rewrite Hout'. replace (j + (j1 - j)) with j1 by lia.
        apply omap_agree. intros k Hk%in_seqZ. by rewrite Hshift by lia.
Qed.

End Windows.

End ReactiveEventBusFacts.
Module ReactiveEventBusClaims.
Import Rx ReactiveEventBus ReactiveEventBusSpec ReactiveEventBusFacts.

(** C9 does not hold as stated.  The detector subscribed at time 0 with
    the default window of 300 ms emits nothing for two clicks 20 ms apart
    that straddle the boundary at 300; a third click inside a window does
    not leave the emission of the first two alone but removes it; and four
    clicks in a row without any gap produce two emissions, because the
    window restarts at 300 regardless of the clicks. *)
Lemma doubleClick_windows_are_fixed :
  doubleClick "click" 300 0 (clicks "click" [290; 310]) 1000 = [] /\
  doubleClick "click" 300 0 (clicks "click" [10; 20]) 1000 = [(300, 20)] /\
  doubleClick "click" 300 0 (clicks "click" [10; 20; 30]) 1000 = [] /\
  doubleClick "click" 300 0 (clicks "click" [280; 290; 310; 320]) 1000
  = [(300, 290); (600, 320)].
Proof. vm_compute. repeat split. Qed.

(** C9, amended: time is cut into consecutive windows of [timeWindow] ms
    counted from the subscription, whether or not events arrive.  For
    events emitted in the order of their time stamps between the
    subscription and [horizon], the detector has emitted by [horizon], in
    order, exactly one derived event for every closed window during which
    exactly two events of the channel arrived (the second of them, at
    the close of the window) and nothing for any other window; so a window
    with three or more events, or with one, emits nothing, and events of
    other channels do not count. *)
Theorem doubleClick_fixed_windows {A} name timeWindow start
    (events : list (Z * (string * A))) horizon :
  0 < timeWindow ->
  start <= horizon ->
  StronglySorted (fun a b => fst a <= fst b) events ->
  Forall (fun e => start <= fst e <= horizon) events ->
  doubleClick name timeWindow start events horizon
  = fixedWindows name timeWindow start events horizon.
Proof.
  intros HW Hh Hsorted Hall. unfold doubleClick, fixedWindows.
  destruct (doubleClick_run_windows name timeWindow start HW events
              (doubleClick_subscribe timeWindow start) 0)
    as (j' & Hj' & Hdue' & Hbuf' & Hbefore & Hlast & Hout');
    [unfold closeOf; cbn; lia| |exact Hsorted|].
  { eapply Forall_impl; [exact Hall|]. cbn. lia. }
  destruct (doubleClick_run name timeWindow events
              (doubleClick_subscribe timeWindow start)) as [out st'].
  cbn [fst snd] in *.
  rewrite pending_subscribe in Hbuf'. cbn [app] in Hbuf'.
  assert (start + j' * timeWindow <= horizon) as Hreach.
  { destruct Hlast as [->|(e & He & Hge)]; [lia|].
    pose proof (proj1 (List.Forall_forall _ _) Hall e He) as Hin.
    cbn in Hin. lia. }
  destruct (doubleClick_advance_spec timeWindow start HW horizon st' j' Hdue' Hreach)
    as (Hk & _ & _ & Hfinal).
  set (n := windowOf timeWindow start horizon) in *.
  rewrite Hout', Hfinal.
  replace n with ((j' - 0) + (n - j')) at 2 by lia.
  rewrite seqZ_app, omap_app by lia. f_equal.
  - apply omap_agree. intros k _.
    by rewrite pending_subscribe, secondOfTwo_collapse.
  - replace (0 + (j' - 0)) with j' by lia.
    apply omap_agree. intros k Hk'%in_seqZ. unfold pending.
    destruct (Z.eqb_spec k j') as [->|Hne].
    + by rewrite Hbuf', secondOfTwo_collapse.
    + rewrite (arrivals_none name timeWindow start k events); [done|].
      rewrite Forall_forall in Hbefore |- *. intros e He Hwe.
      specialize (Hbefore e He). cbn in Hbefore.
      apply windowOf_spec in Hwe; [|done]. unfold closeOf in Hbefore. nia.
Qed.

Lemma doubleClick_fixed_windows_witness :
  let events := clicks "click" [280; 290; 310; 320; 700; 710; 720] in
  0 < 300 /\ 0 <= 1000 /\
  StronglySorted (fun a b => fst a <= fst b) events /\
  Forall (fun e => 0 <= fst e <= 1000) events /\
  doubleClick "click" 300 0 events 1000 = fixedWindows "click" 300 0 events 1000 /\
  fixedWindows "click" 300 0 events 1000 = [(300, 290); (600, 320)].
Proof.
  cbv zeta.
  assert (StronglySorted (fun a b : Z * (string * Z) => fst a <= fst b)
            (clicks "click" [280; 290; 310; 320; 700; 710; 720])) as Hsorted
    by (repeat (constructor; [|repeat (constructor; [cbn; lia|])]); constructor).
  assert (Forall (fun e : Z * (string * Z) => 0 <= fst e <= 1000)
            (clicks "click" [280; 290; 310; 320; 700; 710; 720])) as Hall
    by (repeat (constructor; [cbn; lia|]); constructor).
  split; [lia|]. split; [lia|]. split; [exact Hsorted|]. split; [exact Hall|].
  split; [|by vm_compute].
  apply doubleClick_fixed_windows; [lia|lia|exact Hsorted|exact Hall].
Defined.

End ReactiveEventBusClaims.
(** ** The other reactive patterns of the event bus *)

Module ReactiveEventBusPatternsFacts.
Import Rx ReactiveEventBusPatterns ReactiveEventBusPatternsSpec.

Section Patterns.
Context {A : Type}.
Implicit Types (values : list (Z * A)).

(** *** Throttling *)

(** A run of [throttleTime] whose timer was started by a value at [t0]. *)
Lemma throttleTime_run_started interval values :
  forall t0,
    StronglySorted (fun a b => fst a <= fst b) values ->
    Forall (fun v => t0 <= fst v) values ->
    let out := throttleTime_run interval values (Some (t0 + interval)) in
    sublist out values /\
    Forall (fun o => t0 + interval <= fst o) out /\
    StronglySorted (fun a b => fst a + interval <= fst b) out /\
    Forall (fun v => In v out
                     \/ (exists o, In o out /\ fst o <= fst v < fst o + interval)
                     \/ t0 <= fst v < t0 + interval) values.
Proof.
  induction values as [|[t x] rest IH]; intros t0 Hsorted Hfrom; cbn.
  - repeat split; constructor.
  - apply StronglySorted_inv in Hsorted as [Hsorted Hle].
    apply Forall_cons in Hfrom as [Ht Hrest]. cbn in Ht.
    destruct (Z.ltb_spec t (t0 + interval)) as [Hclosed|Hopen]; cbn.
    + destruct (IH t0 Hsorted Hrest) as (Hsub & Hafter & Hspaced & Hcover).
      split; [by apply sublist_cons|]. split; [done|]. split; [done|].
      apply Forall_cons. split; [right; right; cbn; lia|done].
    + assert (Forall (fun v => t <= fst v) rest) as Hrest'.
      { eapply Forall_impl; [exact Hle|]. by cbn. }
      destruct (IH t Hsorted Hrest') as (Hsub & Hafter & Hspaced & Hcover).
      split; [by apply sublist_skip|].
      split.
      { apply Forall_cons. split; [cbn; lia|].
        eapply Forall_impl; [exact Hafter|]. cbn. lia. }
      split; [by constructor|].
      apply Forall_cons. split; [left; by left|].
      eapply Forall_impl; [exact Hcover|]. cbn.
      intros v [Hin|[(o & Ho & Hw)|Hw]].
      * left. by right.
      * right. left. exists o. split; [by right|done].
      * right. left. exists (t, x). split; [by left|done].
Qed.

(** *** Debouncing *)

Lemma timer_advance_fires now (pending : option (A * Z)) :
  option_list (fst (timer_advance now pending))
  = match pending with
    | Some (x, due) => if due <=? now then [(due, x)] else []
    | None => []
    end.
Proof.
  destruct pending as [[x due]|]; [|done]. cbn.
  destruct (Z.ltb_spec now due), (Z.leb_spec due now); try lia; done.
Qed.

Lemma debounceTime_run_lookahead delay horizon values :
  forall pending,
    fst (debounceTime_run delay values pending)
    ++ option_list
         (fst (timer_advance horizon
                 (snd (debounceTime_run delay values pending))))
    = match pending with
      | Some (x, due) =>
          if due <=? nextTime values horizon then [(due, x)] else []
      | None => []
      end
      ++ followedByPause delay horizon values.
Proof.
  induction values as [|[t x] rest IH]; intros pending.
  - cbn. by rewrite timer_advance_fires, app_nil_r.
  - cbn [debounceTime_run followedByPause nextTime].
    pose proof (timer_advance_fires t pending) as Hfired.
    destruct (timer_advance t pending) as [fired p'].
    specialize (IH (Some (x, t + delay))).
    destruct (debounceTime_run delay rest (Some (x, t + delay))) as [out p''].
    cbn [fst snd] in *. rewrite <- app_assoc, IH, Hfired. done.
Qed.

(** *** Long presses *)

Lemma longPress_run_lookahead duration horizon
    (values : list (Z * Press (A := A))) :
  forall timer,
    fst (longPress_run duration values timer)
    ++ option_list
         (fst (timer_advance horizon
                 (snd (longPress_run duration values timer))))
    = match timer with
      | Some (x, due) =>
          if due <=? nextTime values horizon then [(due, x)] else []
      | None => []
      end
      ++ heldFor duration horizon values.
Proof.
  induction values as [|[t p] rest IH]; intros timer.
  - cbn. by rewrite timer_advance_fires, app_nil_r.
  - cbn [longPress_run nextTime].
    pose proof (timer_advance_fires t timer) as Hfired.
    destruct (timer_advance t timer) as [fired timer'].
    cbn [fst] in Hfired.
    destruct p as [data|].
    + specialize (IH (Some (data, t + duration))).
      destruct (longPress_run duration rest (Some (data, t + duration)))
        as [out timer''].
      cbn [fst snd heldFor] in *. by rewrite <- app_assoc, IH, Hfired.
    + specialize (IH None).
      destruct (longPress_run duration rest None) as [out timer''].
      cbn [fst snd heldFor] in *. by rewrite <- app_assoc, IH, Hfired.
Qed.

(** *** Streaks *)

Lemma streak_run_counts streakLength values :
  forall streak previous,
    match previous with Some p => p <= streak | None => True end ->
    let first := Z.max streakLength (streak + 1) in
    let out := streak_run streakLength values streak previous in
    map snd out
    = seqZ first (streak + Z.of_nat (length values) - first + 1) /\
    map fst out = drop (Z.to_nat (first - (streak + 1))) (map fst values).
Proof.
  induction values as [|[t x] rest IH]; intros streak previous Hprev; cbn zeta.
  - cbn. split; [by rewrite seqZ_nil by lia|by rewrite drop_nil].
  - cbn [streak_run length map].
    destruct (Z.leb_spec streakLength (streak + 1)) as [Hreached|Hshort].
    + assert ((match previous with
               | Some p => p =? streak + 1
               | None => false
               end) = false) as ->.
      { destruct previous as [p|]; [|done]. apply Z.eqb_neq. lia. }
      destruct (IH (streak + 1) (Some (streak + 1)) ltac:(cbn; lia)) as [Hc Ht].
      replace (Z.max streakLength (streak + 1)) with (streak + 1) by lia.
      replace (Z.max streakLength (streak + 1 + 1)) with (streak + 1 + 1)
        in Hc, Ht by lia.
      cbn [map fst snd]. rewrite Hc, Ht.
      replace (streak + 1 + 1 - (streak + 1 + 1)) with 0 by lia.
      replace (streak + 1 - (streak + 1)) with 0 by lia.
      split; [|done].
      rewrite (seqZ_cons (streak + 1)) by lia. f_equal. f_equal; lia.
    + destruct (IH (streak + 1) previous) as [Hc Ht].
      { destruct previous; [lia|done]. }
      replace (Z.max streakLength (streak + 1)) with streakLength by lia.
      replace (Z.max streakLength (streak + 1 + 1)) with streakLength
        in Hc, Ht by lia.
      rewrite Hc, Ht. split; [f_equal; lia|].
      replace (Z.to_nat (streakLength - (streak + 1)))
        with (S (Z.to_nat (streakLength - (streak + 1 + 1)))) by lia.
      done.
Qed.

End Patterns.

(** *** Swipes on the bus *)

Lemma swipeGesture_run_bound values :
  forall inner,
    (length (swipeGesture_run values inner)
     <= match inner with Some _ => 1 | None => 0 end
        + length (List.filter isStart values))%nat /\
    Forall (fun o => exists e, In (fst o, touch_end e) values)
      (swipeGesture_run values inner).
Proof.
  induction values as [|[t [e|e]] rest IH]; intros inner.
  - cbn. split; [lia|constructor].
  - cbn [swipeGesture_run List.filter isStart snd length].
    destruct (IH (Some e)) as [Hlen Hin]. split; [destruct inner; lia|].
    eapply Forall_impl; [exact Hin|]. cbn. intros o (e' & He').
    exists e'. by right.
  - cbn [swipeGesture_run List.filter isStart snd].
    destruct (IH None) as [Hlen Hin].
    assert (Forall (fun o => exists e0, In (o.1, touch_end e0) ((t, touch_end e) :: rest))
              (swipeGesture_run rest None)) as Hin'.
    { eapply Forall_impl; [exact Hin|]. cbn. intros o (e' & He').
      exists e'. by right. }
    destruct inner as [s|]; [|by split; [lia|]].
    destruct (calculateSwipe s e); cbn; [|by split; [lia|]].
    split; [lia|]. apply Forall_cons. split; [|done].
    exists e. by left.
Qed.

(** *** Combos *)

Lemma matches_spec eventNames sequence :
  matches eventNames sequence = true <-> sequence = eventNames.
Proof.
  unfold matches. rewrite andb_true_iff, Nat.eqb_eq, forallb_forall. split.
  - intros [Hlen Hall]. apply list_eq. intros i.
    destruct (eventNames !! i) as [n|] eqn:Hn.
    + specialize (Hall (i, n)). cbn in Hall.
      assert (In (i, n) (imap pair eventNames)) as Hin.
      { apply list_elem_of_In, list_elem_of_lookup. exists i.
        by rewrite list_lookup_imap, Hn. }
      specialize (Hall Hin). destruct (sequence !! i) as [s|]; [|done].
      apply String.eqb_eq in Hall. by subst.
    + apply lookup_ge_None in Hn. apply lookup_ge_None. lia.
  - intros ->. split; [done|]. intros [i n] Hin.
    apply list_elem_of_In, list_elem_of_lookup in Hin as [j Hj].
    rewrite list_lookup_imap in Hj.
    destruct (eventNames !! j) as [n'|] eqn:Hn; [|done].
    injection Hj as <- <-. cbn. rewrite Hn. apply String.eqb_refl.
Qed.

(** Without a reset the buffer only grows. *)
Lemma combo_run_open eventNames timeWindow events :
  forall st,
    resetDue st = None ->
    Forall (fun e => snd e <> comboReset) events ->
    combo_run eventNames timeWindow events st
    = ([], {| sequence :=
                sequence st
                ++ flat_map (fun e => repeat (snd e)
                                        (count_occ string_dec eventNames (snd e)))
                     events;
              resetDue := None |}).
Proof.
  induction events as [|[t n] rest IH]; intros st Hopen Hnames.
  - cbn. rewrite app_nil_r. destruct st; cbn in *; by subst.
  - apply Forall_cons in Hnames as [Hn Hrest]. cbn in Hn.
    cbn [combo_run]. unfold combo_emit, combo_advance. rewrite Hopen.
    assert (String.eqb n comboReset = false) as -> by by apply String.eqb_neq.
    rewrite IH by done. cbn. by rewrite <- app_assoc.
Qed.

Lemma flat_map_combine_snd {B} (f : string -> list B) (times : list Z)
    (names : list string) :
  length times = length names ->
  flat_map (fun e => f (snd e)) (combine times names) = flat_map f names.
Proof.
  revert times. induction names as [|n names IH]; intros [|t times] Hlen;
    try done.
  cbn. f_equal. apply IH. by injection Hlen.
Qed.

Lemma flat_map_repeat_names (names entered : list string) :
  List.NoDup names -> Forall (fun n => In n names) entered ->
  flat_map (fun n => repeat n (count_occ string_dec names n)) entered = entered.
Proof.
  intros Hnd. induction 1 as [|n rest Hn _ IH]; [done|]. cbn.
  assert (count_occ string_dec names n = 1%nat) as ->.
  { pose proof (proj1 (List.NoDup_count_occ string_dec names) Hnd n).
    pose proof (proj1 (count_occ_In string_dec names n) Hn). lia. }
  cbn. by rewrite IH.
Qed.

Lemma flat_map_repeat_length (names entered : list string) :
  Forall (fun n => In n names) entered ->
  (length entered
   <= length (flat_map (fun n => repeat n (count_occ string_dec names n))
                entered))%nat /\
  (forall n, In n entered -> (2 <= count_occ string_dec names n)%nat ->
     (length entered
      < length (flat_map (fun n => repeat n (count_occ string_dec names n))
                  entered))%nat).
Proof.
  induction 1 as [|n rest Hn _ [IH1 IH2]]; [by split; [|intros ? []]|].
  pose proof (proj1 (count_occ_In string_dec names n) Hn) as Hpos.
  cbn [flat_map]. rewrite !length_app, !repeat_length. cbn [length].
  split; [lia|].
  intros n' [<-|Hin] Htwice; [lia|].
  specialize (IH2 n' Hin Htwice). lia.
Qed.

End ReactiveEventBusPatternsFacts.

Module ReactiveEventBusPatternsProperties.
Import Rx ReactiveEventBusPatterns ReactiveEventBusPatternsSpec.
Import ReactiveEventBusPatternsFacts.

(** X11: [throttledInput] lets the first event of its channel through and
    drops exactly the events that arrive less than [interval] ms after
    the last one it let through: what comes out is a selection of the
    input, in order, any two of its events are at least [interval] ms
    apart, and every dropped event follows such an event by less than
    [interval] ms. *)
Theorem throttledInput_spacing {A} eventName interval
    (events : list (Z * (string * A))) :
  StronglySorted (fun a b => fst a <= fst b) (stream eventName events) ->
  let values := stream eventName events in
  let out := throttledInput eventName interval events in
  sublist out values /\
  hd_error out = hd_error values /\
  StronglySorted (fun a b => fst a + interval <= fst b) out /\
  Forall (fun v => In v out
                   \/ exists o, In o out /\ fst o <= fst v < fst o + interval)
    values.
Proof.
  intros Hsorted. cbv zeta. unfold throttledInput.
  destruct (stream eventName events) as [|[t x] rest]; cbn.
  - repeat split; constructor.
  - apply StronglySorted_inv in Hsorted as [Hsorted Hle].
    assert (Forall (fun v => t <= fst v) rest) as Hrest.
    { eapply Forall_impl; [exact Hle|]. by cbn. }
    destruct (throttleTime_run_started interval rest t Hsorted Hrest)
      as (Hsub & Hafter & Hspaced & Hcover).
    split; [by apply sublist_skip|]. split; [done|].
    split; [by constructor|].
    apply Forall_cons. split; [left; by left|].
    eapply Forall_impl; [exact Hcover|]. cbn.
    intros v [Hin|[(o & Ho & Hw)|Hw]].
    + left. by right.
    + right. exists o. split; [by right|done].
    + right. exists (t, x). split; [by left|done].
Qed.

Lemma throttledInput_spacing_witness :
  let events := [(0, ("fire", 1)); (40, ("fire", 2)); (50, ("jump", 3));
                 (120, ("fire", 4)); (130, ("fire", 5))] in
  StronglySorted (fun a b => fst a <= fst b) (stream "fire" events) /\
  throttledInput "fire" 100 events = [(0, 1); (120, 4)] /\
  let values := stream "fire" events in
  let out := throttledInput "fire" 100 events in
  sublist out values /\
  hd_error out = hd_error values /\
  StronglySorted (fun a b => fst a + 100 <= fst b) out /\
  Forall (fun v => In v out
                   \/ exists o, In o out /\ fst o <= fst v < fst o + 100)
    values.
Proof.
  cbv zeta.
  assert (StronglySorted (fun a b : Z * Z => fst a <= fst b)
            (stream "fire" [(0, ("fire", 1)); (40, ("fire", 2));
                            (50, ("jump", 3)); (120, ("fire", 4));
                            (130, ("fire", 5))])) as Hsorted
    by (repeat (constructor; [|repeat (constructor; [cbn; lia|])]); constructor).
  split; [exact Hsorted|]. split; [reflexivity|].
  exact (throttledInput_spacing "fire" 100 _ Hsorted).
Defined.

(** X12: [debouncedInput] delivers exactly the events of its channel that are
    followed by a pause: an event at time [t] is delivered, at [t + delay],
    when the next event of the channel comes at [t + delay] or later (or
    none comes up to then), and is dropped otherwise. *)
Theorem debouncedInput_pauses {A} eventName delay
    (events : list (Z * (string * A))) horizon :
  debouncedInput eventName delay events horizon
  = followedByPause delay horizon (stream eventName events).
Proof.
  unfold debouncedInput.
  pose proof (debounceTime_run_lookahead delay horizon
                (stream eventName events) None) as H.
  by destruct (debounceTime_run delay (stream eventName events) None).
Qed.

(** X13: [longPress] reports exactly the presses that last: a start at time [t]
    is reported, at [t + duration] and with the data of the start, when no
    end and no further start of the same name comes before [t + duration];
    ends without a pending start are ignored. *)
Theorem longPress_held {A} eventName duration
    (events : list (Z * (string * A))) horizon :
  longPress eventName duration events horizon
  = heldFor duration horizon (presses eventName events).
Proof.
  unfold longPress.
  pose proof (longPress_run_lookahead duration horizon
                (presses eventName events) None) as H.
  by destruct (longPress_run duration (presses eventName events) None).
Qed.

(** X14: [createStreakDetector] is a counter that never resets: it emits the
    running count at every event of its channel from the
    [streakLength]-th on (from the first when [streakLength] is below 1),
    and [distinctUntilChanged] never holds anything back. *)
Theorem createStreakDetector_counts {A} eventName streakLength
    (events : list (Z * (string * A))) :
  let values := stream eventName events in
  let first := Z.max streakLength 1 in
  let out := createStreakDetector eventName streakLength events in
  map snd out = seqZ first (Z.of_nat (length values) - first + 1) /\
  map fst out = drop (Z.to_nat (first - 1)) (map fst values).
Proof.
  cbv zeta. unfold createStreakDetector.
  destruct (streak_run_counts streakLength (stream eventName events) 0 None I)
    as [Hc Ht].
  split; [exact Hc|exact Ht].
Qed.

(** X15: [swipeGesture] looks at the first touch end after a touch start only:
    it emits at most one swipe per touch start, each at the time of a
    touch end. *)
Theorem swipeGesture_once_per_start events :
  (length (swipeGesture events)
   <= length (List.filter isStart (touching events)))%nat /\
  Forall (fun o => exists e, In (fst o, touch_end e) (touching events))
    (swipeGesture events).
Proof. apply (swipeGesture_run_bound (touching events) None). Qed.

(** X16: [calculateSwipe] has no minimum distance or duration: a touch end
    with the time stamp of the touch start is always accepted as a swipe,
    and when nothing moved either, it is reported as a swipe [up]. *)
Theorem calculateSwipe_zero_duration start end_ :
  timestamp end_ = timestamp start ->
  calculateSwipe start end_ <> None /\
  (x end_ = x start -> y end_ = y start ->
   calculateSwipe start end_ = Some up).
Proof.
  intros Ht. unfold calculateSwipe, velocityBelowHalf. rewrite Ht, Z.sub_diag.
  cbn [Z.ltb Z.compare]. split.
  - by destruct (_ <? _).
  - intros -> ->. by rewrite !Z.sub_diag.
Qed.

Lemma calculateSwipe_zero_duration_witness :
  let p := {| x := 40; y := 60; timestamp := 1000 |} in
  timestamp p = timestamp p /\
  calculateSwipe p p <> None /\
  (x p = x p -> y p = y p -> calculateSwipe p p = Some up).
Proof.
  cbv zeta. split; [reflexivity|].
  apply calculateSwipe_zero_duration. reflexivity.
Defined.

(** X17: [combo] measures its time window on the ['combo-reset'] stream and on
    nothing else: as long as nobody emits ['combo-reset'], it never emits,
    whatever events arrive and however long one waits. *)
Theorem combo_needs_reset eventNames timeWindow events horizon :
  eventNames <> [] ->
  Forall (fun e => snd e <> comboReset) events ->
  combo eventNames timeWindow events horizon = [].
Proof.
  intros _ Hnames. unfold combo.
  by rewrite combo_run_open.
Qed.

Lemma combo_needs_reset_witness :
  let events := [(0, "punch"); (100, "kick")] in
  ["punch"; "kick"] <> [] /\
  Forall (fun e => snd e <> comboReset) events /\
  combo ["punch"; "kick"] 1000 events 60000 = [].
Proof.
  cbv zeta.
  assert (Forall (fun e : Z * string => snd e <> comboReset)
            [(0, "punch"); (100, "kick")]) as H
    by (repeat constructor; discriminate).
  split; [discriminate|]. split; [exact H|].
  by apply combo_needs_reset.
Defined.

(** X18: Entering the events of a combo in order and then ['combo-reset']
    completes it, [timeWindow] ms after the reset, exactly when no name
    occurs twice in the combo: a repeated name is subscribed once per
    occurrence, so each of its events enters the buffer several times and
    the sequence can no longer match. *)
Theorem combo_entered eventNames timeWindow times reset horizon :
  eventNames <> [] ->
  ~ In comboReset eventNames ->
  length times = length eventNames ->
  reset + timeWindow <= horizon ->
  combo eventNames timeWindow
    (combine times eventNames ++ [(reset, comboReset)]) horizon
  = if decide (NoDup eventNames) then [(reset + timeWindow, eventNames)]
    else [].
Proof.
  intros _ Hreset Hlen Hh. unfold combo.
  assert (forall st, resetDue st = None ->
            combo_run eventNames timeWindow
              (combine times eventNames ++ [(reset, comboReset)]) st
            = ([], {| sequence :=
                        sequence st
                        ++ flat_map
                             (fun n => repeat n
                                         (count_occ string_dec eventNames n))
                             eventNames;
                      resetDue := Some (reset + timeWindow) |})) as Hrun.
  { assert (forall evs st rest,
              combo_run eventNames timeWindow (evs ++ rest) st
              = let '(out, st) := combo_run eventNames timeWindow evs st in
                let '(out', st) := combo_run eventNames timeWindow rest st in
                (out ++ out', st)) as Happ.
    { induction evs as [|[t n] evs IH]; intros st rest.
      - cbn. by destruct (combo_run eventNames timeWindow rest st).
      - cbn [combo_run app]. destruct (combo_emit _ _ t n st) as [o st1].
        rewrite IH.
        destruct (combo_run eventNames timeWindow evs st1) as [o1 st2].
        destruct (combo_run eventNames timeWindow rest st2) as [o2 st3].
        by rewrite app_assoc. }
    intros st Hopen. rewrite Happ, combo_run_open; [|done|].
    2:{ apply Forall_forall. intros [t n] Hin%list_elem_of_In E. cbn in E.
        apply in_combine_r in Hin. by subst. }
    cbn. unfold combo_emit, combo_advance; cbn.
    assert (count_occ string_dec eventNames comboReset = 0%nat) as ->
      by by apply count_occ_not_In.
    cbn. rewrite app_nil_r. f_equal. f_equal. f_equal.
    by apply (flat_map_combine_snd
                (fun n => repeat n (count_occ string_dec eventNames n))). }
  rewrite Hrun by done. cbn [sequence app]. unfold combo_advance. cbn.
  destruct (Z.ltb_spec horizon (reset + timeWindow)); [lia|]. cbn.
  assert (Forall (fun n => In n eventNames) eventNames) as Hself
    by by apply Forall_forall; intros n Hn%list_elem_of_In.
  destruct (decide (NoDup eventNames)) as [Hnd|Hdup].
  - apply NoDup_ListNoDup in Hnd.
    rewrite flat_map_repeat_names by done.
    by rewrite (proj2 (matches_spec eventNames eventNames) eq_refl).
  - destruct (matches eventNames _) eqn:Hm; [|done].
    apply matches_spec in Hm.
    destruct (flat_map_repeat_length eventNames eventNames Hself) as [_ Hlong].
    assert (exists n, In n eventNames
                      /\ (2 <= count_occ string_dec eventNames n)%nat)
      as (n & Hn & Htwice).
    { destruct (List.Forall_Exists_dec
                  (fun n => (count_occ string_dec eventNames n <= 1)%nat)
                  (fun n => le_dec _ 1) eventNames) as [Hall|Hex].
      - destruct Hdup. apply NoDup_ListNoDup.
        apply (List.NoDup_count_occ string_dec). intros n.
        destruct (in_dec string_dec n eventNames) as [Hin|Hout].
        + by apply (proj1 (List.Forall_forall _ _) Hall).
        + apply (count_occ_not_In string_dec) in Hout. lia.
      - apply List.Exists_exists in Hex as (n & Hn & Hc). exists n.
        split; [done|lia]. }
    specialize (Hlong n Hn Htwice). rewrite Hm in Hlong. lia.
Qed.

Lemma combo_entered_witness :
  ["punch"; "kick"] <> [] /\
  ~ In comboReset ["punch"; "kick"] /\
  length [0; 100] = length ["punch"; "kick"] /\
  500 + 1000 <= 60000 /\
  combo ["punch"; "kick"] 1000
    (combine [0; 100] ["punch"; "kick"] ++ [(500, comboReset)]) 60000
  = [(500 + 1000, ["punch"; "kick"])] /\
  combo ["punch"; "kick"; "punch"] 1000
    (combine [0; 100; 200] ["punch"; "kick"; "punch"] ++ [(500, comboReset)])
    60000 = [].
Proof.
  assert (~ In comboReset ["punch"; "kick"]) as H1
    by (intros [E|[E|[]]]; discriminate).
  split; [discriminate|].
  split; [exact H1|]. split; [reflexivity|]. split; [lia|].
  split; [|reflexivity].
  rewrite (combo_entered ["punch"; "kick"] 1000 [0; 100] 500 60000
             ltac:(discriminate) H1 eq_refl ltac:(lia)).
  reflexivity.
Defined.

End ReactiveEventBusPatternsProperties.
(** ** The performance monitor at a steady frame rate *)

Module ReactiveEventBusMonitorFacts.
Import ReactiveEventBusMonitor.

Lemma frames_run_app (front back : list (Z * option Z)) (st : Monitor) :
  frames_run (front ++ back) st =
  let '(out1, st1) := frames_run front st in
  let '(out2, st2) := frames_run back st1 in
  (out1 ++ out2, st2).
Proof.
  revert st; induction front as [|[t h] front IH]; intros st; cbn [frames_run app].
  - by destruct (frames_run back st).
  - destruct (measureFrame t h st) as [report st1].
    rewrite IH.
    destruct (frames_run front st1) as [out1 st2].
    destruct (frames_run back st2) as [out2 st3].
    by rewrite <- List.app_assoc.
Qed.

(** Frames less than a second after the last report only count. *)
Lemma frames_run_quiet (T d : Z) (heap : option Z) (j a : nat) (c : Z) :
  0 < d ->
  (Z.of_nat (a + j) - 1) * d < 1000 ->
  frames_run (map (fun i => (T + Z.of_nat i * d, heap)) (seq a j))
             {| lastTime := T; frameCount := c |} =
  ([], {| lastTime := T; frameCount := c + Z.of_nat j |}).
Proof.
  intros Hd; revert a c; induction j as [|j IH]; intros a c Hlast.
  - cbn. do 2 f_equal. lia.
  - cbn [seq map frames_run]. unfold measureFrame. cbn [lastTime frameCount].
    destruct (Z.leb_spec 1000 (T + Z.of_nat a * d - T)) as [Hle|_]; [nia|].
    rewrite IH by (replace (S a + j)%nat with (a + S j)%nat by lia; exact Hlast).
    cbn. do 2 f_equal. lia.
Qed.

Lemma steady_S (T d : Z) (heap : option Z) (k : nat) :
  steady T d heap (S k) =
  steady T d heap k ++ [(T + Z.of_nat (S k) * d, heap)].
Proof. unfold steady. by rewrite seq_S, map_app. Qed.

Lemma steady_add (T d : Z) (heap : option Z) (m k : nat) :
  steady T d heap (m + k) =
  steady T d heap m ++ steady (T + Z.of_nat m * d) d heap k.
Proof.
  unfold steady. rewrite seq_app, map_app. f_equal.
  replace (1 + m)%nat with (m + 1)%nat by lia.
  rewrite <- (fmap_add_seq m 1 k).
  rewrite <- list_fmap_compose. apply map_ext; intros i; cbn.
  f_equal. lia.
Qed.

(** One window: the [k]-th frame is the first one a second or more after
    the last report, and reports every frame counted since. *)
Lemma frames_run_window (T d : Z) (heap : option Z) (k : nat) (c : Z) :
  0 < d ->
  (Z.of_nat k - 1) * d < 1000 <= Z.of_nat k * d ->
  frames_run (steady T d heap k) {| lastTime := T; frameCount := c |} =
  ([(T + Z.of_nat k * d,
     (roundDiv ((c + Z.of_nat k) * 1000) (Z.of_nat k * d), memoryMB heap))],
   {| lastTime := T + Z.of_nat k * d; frameCount := 0 |}).
Proof.
  intros Hd [Hbefore Hat].
  destruct k as [|k]; [cbn in Hat; lia|].
  rewrite steady_S, frames_run_app.
  unfold steady at 1.
  rewrite frames_run_quiet by (try done; replace (1 + k)%nat with (S k) by lia; lia).
  cbn [frames_run]. unfold measureFrame. cbn [lastTime frameCount].
  destruct (Z.leb_spec 1000 (T + Z.of_nat (S k) * d - T)) as [_|Hlt]; [|nia].
  cbn [app].
  replace (c + Z.of_nat k + 1) with (c + Z.of_nat (S k)) by lia.
  replace (T + Z.of_nat (S k) * d - T) with (Z.of_nat (S k) * d) by lia.
  reflexivity.
Qed.

Lemma roundDiv_scale (k a b : Z) :
  0 < k -> 0 < b -> roundDiv (k * a) (k * b) = roundDiv a b.
Proof.
  intros Hk Hb. unfold roundDiv.
  replace (2 * (k * a) + k * b) with (k * (2 * a + b)) by lia.
  replace (2 * (k * b)) with (k * (2 * b)) by lia.
  apply Z.div_mul_cancel_l; lia.
Qed.

End ReactiveEventBusMonitorFacts.

Module ReactiveEventBusMonitorProperties.
Import ReactiveEventBusMonitor ReactiveEventBusMonitorFacts.

(** X28: with one animation frame every [d] ms after the subscription,
    the monitor reports every [k]-th frame, where the [k]-th frame is the
    first one a second or more after the start.  The first report counts
    [k + 1] frames in [k * d] ms, one more than were drawn in that time,
    since the call made on subscribing is counted as a frame; every later
    report gives [1000 / d] rounded to the nearest whole number. *)
Theorem createPerformanceMonitor_steady_frames
    (T d : Z) (heap : option Z) (k n : nat) :
  0 < d ->
  (Z.of_nat k - 1) * d < 1000 <= Z.of_nat k * d ->
  fst (frames_run (steady T d heap (n * k)) (subscribe T)) =
  map (fun j =>
         (T + Z.of_nat (j * k) * d,
          (if (j =? 1)%nat
           then roundDiv ((Z.of_nat k + 1) * 1000) (Z.of_nat k * d)
           else roundDiv 1000 d,
           memoryMB heap)))
      (seq 1 n).
Proof.
  intros Hd Hk.
  assert (Hpos : (0 < k)%nat) by (destruct k; [cbn in Hk|]; lia).
  destruct n as [|n]; [done|].
  enough (Hrun :
    frames_run (steady T d heap (S n * k)) (subscribe T) =
    (map (fun j =>
            (T + Z.of_nat (j * k) * d,
             (if (j =? 1)%nat
              then roundDiv ((Z.of_nat k + 1) * 1000) (Z.of_nat k * d)
              else roundDiv 1000 d,
              memoryMB heap)))
         (seq 1 (S n)),
     {| lastTime := T + Z.of_nat (S n * k) * d; frameCount := 0 |}))
    by (by rewrite Hrun).
  induction n as [|n IH].
  - replace (1 * k)%nat with k by lia.
    unfold subscribe. rewrite frames_run_window by done.
    cbn [seq map Nat.eqb].
    replace (1 + Z.of_nat k) with (Z.of_nat k + 1) by lia.
    by replace (1 * k)%nat with k by lia.
  - replace (S (S n) * k)%nat with (S n * k + k)%nat by lia.
    rewrite steady_add, frames_run_app, IH.
    rewrite frames_run_window by done.
    rewrite (seq_S (S n)), map_app. cbn [map].
    replace (1 + S n)%nat with (S (S n)) by lia.
    replace (S (S n) =? 1)%nat with false by done.
    replace (T + Z.of_nat (S n * k) * d + Z.of_nat k * d)
      with (T + Z.of_nat (S n * k + k) * d) by lia.
    replace ((0 + Z.of_nat k) * 1000) with (Z.of_nat k * 1000) by lia.
    rewrite roundDiv_scale by lia.
    by replace (S (S n) * k)%nat with (S n * k + k)%nat by lia.
Qed.

(** Frames every 20 ms: the first report says 51, the next one 50. *)
Lemma createPerformanceMonitor_steady_frames_witness :
  fst (frames_run (steady 5000 20 None (2 * 50)) (subscribe 5000)) =
  [(6000, (51, 0)); (7000, (50, 0))].
Proof.
  rewrite (createPerformanceMonitor_steady_frames 5000 20 None 50 2);
    [reflexivity | lia | lia].
Defined.

End ReactiveEventBusMonitorProperties.

(** ** The gesture recognizer *)

Module GestureManagerFacts.
Import Rx GestureManager.

Lemma in_insertByTime g h l : In g (insertByTime h l) <-> g = h \/ In g l.
Proof.
  induction l as [|a l IH]; cbn.
  - intuition congruence.
  - destruct (emitted h <? emitted a); cbn; [intuition congruence|].
    rewrite IH. intuition congruence.
Qed.

Lemma in_byTime g l : In g (byTime l) <-> In g l.
Proof.
  induction l as [|a l IH]; cbn; [done|].
  rewrite in_insertByTime, IH. intuition congruence.
Qed.

Lemma run_app cfg rect l1 l2 st :
  run cfg rect (l1 ++ l2) st
  = let '(out1, st1) := run cfg rect l1 st in
    let '(out2, st2) := run cfg rect l2 st1 in
    (out1 ++ out2, st2).
Proof.
  revert st. induction l1 as [|e l1 IH]; intros st; cbn.
  - by destruct (run cfg rect l2 st).
  - destruct (onEvent cfg rect e st) as [out st'].
    rewrite IH. destruct (run cfg rect l1 st') as [out1 st1].
    destruct (run cfg rect l2 st1) as [out2 st2]. by rewrite app_assoc.
Qed.

Lemma doubleTapGesture_type now taps g :
  doubleTapGesture now taps = Some g -> type g = double_tap /\ emitted g = now.
Proof.
  unfold doubleTapGesture.
  destruct taps as [|t0 [|t1 [|? ?]]]; try done.
  destruct (distanceBelow _ _ _); [|done]. by intros [= <-].
Qed.

(** *** The long-press timer *)

(** A long press comes out of [advance] only when its timer was due. *)
Lemma advance_long_press cfg now st g :
  In g (fst (advance cfg now st)) -> type g = long_press ->
  exists startTouch due,
    longPressTimer st = Some (startTouch, due) /\ due <= now /\ emitted g = due.
Proof.
  unfold advance.
  destruct (timer_advance now (tapTimer st)) as [tapFired tapTimer'].
  destruct (bufferTime_advance _ now (tapBuffer st)) as [buffers tapBuffer'].
  destruct (timer_advance now (longPressTimer st)) as [fired timer'] eqn:Hlp.
  cbn [fst]. rewrite in_byTime, !in_app_iff.
  intros [Htap|[Hdouble|Hlong]] Htype.
  - destruct tapFired as [[due tapData]|]; [|done].
    destruct Htap as [<-|[]]; done.
  - apply list_elem_of_In, list_elem_of_omap in Hdouble
      as ([due taps] & _ & Hg).
    apply doubleTapGesture_type in Hg as [Hg _]. congruence.
  - destruct fired as [[due startTouch]|]; [|done].
    destruct Hlong as [<-|[]].
    unfold timer_advance in Hlp.
    destruct (longPressTimer st) as [[tp due']|]; [|done].
    destruct (Z.ltb_spec now due'); [done|].
    injection Hlp as <- <- _. by eexists _, _.
Qed.

Lemma advance_longPressTimer cfg now st :
  longPressTimer (snd (advance cfg now st))
  = match longPressTimer st with
    | Some (startTouch, due) =>
        if now <? due then Some (startTouch, due) else None
    | None => None
    end.
Proof.
  unfold advance.
  destruct (timer_advance now (tapTimer st)) as [tapFired tapTimer'].
  destruct (bufferTime_advance _ now (tapBuffer st)) as [buffers tapBuffer'].
  unfold timer_advance at 1.
  destruct (longPressTimer st) as [[tp due]|]; [|done].
  by destruct (now <? due).
Qed.

(** The state of the long-press timer after an event, and where a long
    press in its output comes from. *)
Lemma onEvent_long_press cfg rect e st g :
  In g (fst (onEvent cfg rect e st)) -> type g = long_press ->
  exists startTouch due,
    longPressTimer st = Some (startTouch, due) /\
    due <= timeStamp e /\ emitted g = due.
Proof.
  unfold onEvent.
  pose proof (advance_long_press cfg (timeStamp e) st g) as Hadv.
  destruct (advance cfg (timeStamp e) st) as [fired st1]. cbn [fst] in Hadv.
  destruct e as [t t0 [|]|t t0 others|t ts c0]; cbn [fst]; try exact Hadv.
  destruct (onEnd cfg rect _ c0 st1) as [swipes st2] eqn:Hend. cbn [fst].
  rewrite in_app_iff. intros [Hin|Hin]; [by apply Hadv|].
  unfold onEnd in Hend. injection Hend as <- _.
  intros Htype. exfalso.
  match type of Hin with
  | In g (match ?s with Some _ => _ | None => _ end) =>
      destruct s as [[[? ?] ?]|]; [|done]
  end.
  destruct (negb _); [|done]. destruct Hin as [<-|[]]. done.
Qed.

Lemma onEvent_longPressTimer cfg rect e st :
  longPressTimer (snd (onEvent cfg rect e st))
  = let pending := longPressTimer (snd (advance cfg (timeStamp e) st)) in
    match e with
    | touchstart now touch0 [] =>
        Some (getTouchPoint rect now touch0, now + longPressDelay cfg)
    | touchstart _ _ (_ :: _) => pending
    | touchmove now touch0 _ =>
        match pending with
        | Some (startTouch, due) =>
            if distanceAbove startTouch (getTouchPoint rect now touch0) 10
            then None else pending
        | None => None
        end
    | touchend _ _ _ => None
    end.
Proof.
  unfold onEvent.
  destruct (advance cfg (timeStamp e) st) as [fired st1]. cbn [snd].
  destruct e as [t t0 [|]|t t0 others|t ts c0]; cbn [snd]; try done.
  - unfold onMove. destruct (longPressTimer st1) as [[tp due]|] eqn:E; [|done].
    cbn [timeStamp]. by destruct (distanceAbove _ _ _).
Qed.

(** While no finger is put down alone, an idle long-press timer stays
    idle and no long press is emitted. *)
Lemma run_idle cfg rect events st :
  longPressTimer st = None ->
  Forall (fun e => isSingleStart e = false) events ->
  longPressTimer (snd (run cfg rect events st)) = None /\
  Forall (fun g => type g <> long_press) (fst (run cfg rect events st)).
Proof.
  intros Hidle Hall. revert st Hidle.
  induction Hall as [|e rest He _ IH]; intros st Hidle; cbn; [done|].
  pose proof (onEvent_longPressTimer cfg rect e st) as Ht.
  pose proof (fun g => onEvent_long_press cfg rect e st g) as Hg.
  destruct (onEvent cfg rect e st) as [out st1]. cbn [fst snd] in Ht, Hg.
  rewrite advance_longPressTimer, Hidle in Ht.
  assert (longPressTimer st1 = None) as Hidle1.
  { rewrite Ht. by destruct e as [t t0 [|]|t t0 others|t ts c0]. }
  destruct (IH st1 Hidle1) as [IH1 IH2].
  destruct (run cfg rect rest st1) as [out' st2]. cbn [fst snd] in *.
  split; [done|]. apply Forall_app. split; [|done].
  apply Forall_forall. intros g Hin%list_elem_of_In Htype.
  destruct (Hg g Hin Htype) as (? & ? & Hsome & _). congruence.
Qed.

(** While the timer started at [T] is pending and no finger is put down
    alone, it stays pending or is cancelled, and no long press is
    emitted. *)
Lemma run_pending cfg rect events st startTouch due :
  longPressTimer st = None \/ longPressTimer st = Some (startTouch, due) ->
  Forall (fun e => timeStamp e < due) events ->
  Forall (fun e => isSingleStart e = false) events ->
  let st' := snd (run cfg rect events st) in
  (longPressTimer st' = None \/ longPressTimer st' = Some (startTouch, due)) /\
  Forall (fun g => type g <> long_press) (fst (run cfg rect events st)).
Proof.
  intros Hst Htimes Hall. revert st Hst Hall.
  induction Htimes as [|e rest He _ IH]; intros st Hst Hall; cbn; [done|].
  apply Forall_cons in Hall as [Hns Hall].
  pose proof (onEvent_longPressTimer cfg rect e st) as Ht.
  pose proof (fun g => onEvent_long_press cfg rect e st g) as Hg.
  destruct (onEvent cfg rect e st) as [out st1]. cbn [fst snd] in Ht, Hg.
  rewrite advance_longPressTimer in Ht.
  assert (longPressTimer st1 = None
          \/ longPressTimer st1 = Some (startTouch, due)) as Hst1.
  { rewrite Ht. destruct Hst as [->| ->].
    - left. by destruct e as [t t0 [|]|t t0 others|t ts c0].
    - destruct (Z.ltb_spec (timeStamp e) due); [|lia].
      destruct e as [t t0 [|]|t t0 others|t ts c0]; try done; auto.
      destruct (distanceAbove _ _ _); auto. }
  destruct (IH st1 Hst1 Hall) as [IH1 IH2].
  destruct (run cfg rect rest st1) as [out' st2]. cbn [fst snd] in *.
  split; [done|]. apply Forall_app. split; [|done].
  apply Forall_forall. intros g Hin%list_elem_of_In Htype.
  destruct (Hg g Hin Htype) as (tp & due' & Hsome & Hdue & _).
  destruct Hst as [Hst|Hst]; rewrite Hst in Hsome; [done|].
  injection Hsome as <- <-. lia.
Qed.

End GestureManagerFacts.

Module GestureManagerLongPress.
Import Rx GestureManager GestureManagerFacts.

(** From the touch start at [T] up to the disqualifying event: whatever
    long press is emitted was due at [T] or before, and the timer ends up
    cancelled. *)
Lemma run_contact_cancelled cfg rect st T touch0 mid d :
  Forall (fun e => timeStamp e < T + longPressDelay cfg) (mid ++ [d]) ->
  Forall (fun e => isSingleStart e = false) mid ->
  disqualifies rect (getTouchPoint rect T touch0) d = true ->
  let result := run cfg rect (touchstart T touch0 [] :: mid ++ [d]) st in
  longPressTimer (snd result) = None /\
  Forall (fun g => type g = long_press -> emitted g <= T) (fst result).
Proof.
  intros Htimes Hmid Hd. cbn zeta.
  apply Forall_app in Htimes as [Htmid Htd%Forall_inv].
  set (startTouch := getTouchPoint rect T touch0) in *.
  set (due := T + longPressDelay cfg) in *.
  cbn [run].
  pose proof (onEvent_longPressTimer cfg rect (touchstart T touch0 []) st) as Ht1.
  pose proof (fun g => onEvent_long_press cfg rect (touchstart T touch0 []) st g)
    as Hg1.
  destruct (onEvent cfg rect (touchstart T touch0 []) st) as [out1 st1].
  cbn [fst snd timeStamp] in Ht1, Hg1. fold startTouch due in Ht1.
  rewrite run_app.
  destruct (run_pending cfg rect mid st1 startTouch due (or_intror Ht1)
              Htmid Hmid) as [Ht2 Hg2].
  destruct (run cfg rect mid st1) as [out2 st2]. cbn [fst snd] in Ht2, Hg2.
  cbn [run].
  pose proof (onEvent_longPressTimer cfg rect d st2) as Ht3.
  pose proof (fun g => onEvent_long_press cfg rect d st2 g) as Hg3.
  destruct (onEvent cfg rect d st2) as [out3 st3].
  cbn [fst snd] in Ht3, Hg3 |- *.
  rewrite advance_longPressTimer in Ht3.
  split.
  - rewrite Ht3. destruct d as [t t0 others|t t0 others|t ts c0]; try done.
    cbn [disqualifies] in Hd. cbn [timeStamp] in Htd |- *.
    destruct Ht2 as [->| ->]; [done|].
    destruct (Z.ltb_spec t due); [|lia]. by rewrite Hd.
  - rewrite app_nil_r. apply Forall_app. split; [|apply Forall_app; split].
    + apply Forall_forall. intros g Hin%list_elem_of_In Htype.
      destruct (Hg1 g Hin Htype) as (? & ? & _ & Hle & ->). done.
    + eapply Forall_impl; [exact Hg2|]. cbn. done.
    + apply Forall_forall. intros g Hin%list_elem_of_In Htype.
      destruct (Hg3 g Hin Htype) as (tp & due' & Hsome & Hle & _).
      destruct Ht2 as [Ht2|Ht2]; rewrite Ht2 in Hsome; [done|].
      injection Hsome as <- <-. lia.
Qed.

(** C7: a finger is put down alone at time [T]; before
    [T + longPressDelay] (500 ms) a pointer-up, or a move further than
    10 px from the start position, occurs.  Then the long-press timer of
    that contact is cancelled when the event arrives, and as long as no
    other finger is put down alone, the only long-press events ever
    observed are those that were due at [T] or earlier (from an earlier
    contact): the long press of this contact, due at [T + longPressDelay],
    is never emitted. *)
Theorem long_press_cancelled cfg rect st T touch0 mid d post horizon :
  Forall (fun e => timeStamp e < T + longPressDelay cfg) (mid ++ [d]) ->
  Forall (fun e => isSingleStart e = false) (mid ++ post) ->
  disqualifies rect (getTouchPoint rect T touch0) d = true ->
  longPressTimer
    (snd (run cfg rect (touchstart T touch0 [] :: mid ++ [d]) st)) = None /\
  forall g,
    In g (observe cfg rect (touchstart T touch0 [] :: mid ++ d :: post)
            horizon st) ->
    type g = long_press -> emitted g <= T.
Proof.
  intros Htimes Hall Hd. apply Forall_app in Hall as [Hmid Hpost].
  destruct (run_contact_cancelled cfg rect st T touch0 mid d Htimes Hmid Hd)
    as [Hidle Hout].
  split; [exact Hidle|].
  unfold observe.
  replace (touchstart T touch0 [] :: mid ++ d :: post)
    with ((touchstart T touch0 [] :: mid ++ [d]) ++ post)
    by (cbn; by rewrite <- app_assoc).
  rewrite run_app.
  destruct (run cfg rect (touchstart T touch0 [] :: mid ++ [d]) st)
    as [out1 st1]. cbn [fst snd] in Hidle, Hout.
  destruct (run_idle cfg rect post st1 Hidle Hpost) as [Hidle2 Hout2].
  destruct (run cfg rect post st1) as [out2 st2]. cbn [fst snd] in Hidle2, Hout2.
  intros g. rewrite !in_app_iff. intros [[Hin|Hin]|Hin] Htype.
  - rewrite Forall_forall in Hout. apply Hout; [|done]. by apply list_elem_of_In.
  - rewrite Forall_forall in Hout2. exfalso.
    apply (Hout2 g); [|done]. by apply list_elem_of_In.
  - destruct (advance_long_press cfg horizon st2 g Hin Htype)
      as (? & ? & Hsome & _). congruence.
Qed.

Lemma long_press_cancelled_witness :
  let rect := {| rect_left := 0; rect_top := 0 |} in
  let finger := {| identifier := 0; clientX := 100; clientY := 100 |} in
  let moved := {| identifier := 0; clientX := 103; clientY := 100 |} in
  let mid := [touchmove 1100 moved []] in
  let d := touchend 1400 [] moved in
  let post := [touchmove 1450 moved []] in
  let st := construct config 0 in
  Forall (fun e => timeStamp e < 1000 + longPressDelay config) (mid ++ [d]) /\
  Forall (fun e => isSingleStart e = false) (mid ++ post) /\
  disqualifies rect (getTouchPoint rect 1000 finger) d = true /\
  (longPressTimer
     (snd (run config rect (touchstart 1000 finger [] :: mid ++ [d]) st))
   = None /\
   forall g,
     In g (observe config rect (touchstart 1000 finger [] :: mid ++ d :: post)
             5000 st) ->
     type g = long_press -> emitted g <= 1000).
Proof.
  cbv zeta.
  assert (Forall (fun e => timeStamp e < 1000 + longPressDelay config)
            ([touchmove 1100 {| identifier := 0; clientX := 103; clientY := 100 |} []]
             ++ [touchend 1400 [] {| identifier := 0; clientX := 103; clientY := 100 |}]))
    as H1 by (repeat constructor; cbn; lia).
  assert (Forall (fun e => isSingleStart e = false)
            ([touchmove 1100 {| identifier := 0; clientX := 103; clientY := 100 |} []]
             ++ [touchmove 1450 {| identifier := 0; clientX := 103; clientY := 100 |} []]))
    as H2 by (repeat constructor).
  split; [exact H1|]. split; [exact H2|]. split; [reflexivity|].
  exact (long_press_cancelled config {| rect_left := 0; rect_top := 0 |}
           (construct config 0) 1000
           {| identifier := 0; clientX := 100; clientY := 100 |} _ _ _ 5000
           H1 H2 eq_refl).
Defined.

End GestureManagerLongPress.

Module GestureManagerTaps.
Import Rx GestureManager GestureManagerFacts.

(** *** Symbolic runs of the recognizer *)

Lemma doubleTaps_of_advance span now (bst : BufferTime TapData) :
  omap (fun '(due, taps) => doubleTapGesture due taps)
    (fst (bufferTime_advance span now bst))
  = if now <? bufferDue bst then []
    else match doubleTapGesture (bufferDue bst) (buffer bst) with
         | Some g => [g]
         | None => []
         end.
Proof.
  unfold bufferTime_advance. destruct (now <? bufferDue bst); [done|].
  cbn [fst omap list_omap].
  assert (forall l : list nat,
            omap (fun '(due, taps) => doubleTapGesture due taps)
              (map (fun i => (bufferDue bst + (Z.of_nat i + 1) * span, @nil TapData)) l)
            = []) as ->.
  { induction l as [|i l IH]; [done|]. cbn. exact IH. }
  by destruct (doubleTapGesture _ _).
Qed.

(** [advance] in closed form. *)
Lemma advance_eq cfg now st :
  advance cfg now st
  = (byTime
       (match tapTimer st with
        | Some (tapData, due) =>
            if now <? due then [] else [tapGesture due tapData]
        | None => []
        end
        ++ (if now <? bufferDue (tapBuffer st) then []
            else match doubleTapGesture (bufferDue (tapBuffer st))
                         (buffer (tapBuffer st)) with
                 | Some g => [g]
                 | None => []
                 end)
        ++ match longPressTimer st with
           | Some (touch, due) =>
               if now <? due then [] else [longPressGesture cfg due touch]
           | None => []
           end),
     {| tapInner :=
          match tapInner st with
          | Some (_, due) => if now <? due then tapInner st else None
          | None => None
          end;
        tapTimer :=
          match tapTimer st with
          | Some (_, due) => if now <? due then tapTimer st else None
          | None => None
          end;
        tapBuffer :=
          if now <? bufferDue (tapBuffer st) then tapBuffer st
          else {| buffer := [];
                  bufferDue :=
                    bufferDue (tapBuffer st)
                    + ((now - bufferDue (tapBuffer st)) / doubleTapInterval cfg + 1)
                      * doubleTapInterval cfg |};
        swipeInner :=
          match swipeInner st with
          | Some (_, _, due) => if now <? due then swipeInner st else None
          | None => None
          end;
        longPressTimer :=
          match longPressTimer st with
          | Some (_, due) => if now <? due then longPressTimer st else None
          | None => None
          end |}).
Proof.
  unfold advance.
  pose proof (doubleTaps_of_advance (doubleTapInterval cfg) now (tapBuffer st)) as Hd.
  destruct (bufferTime_advance _ now (tapBuffer st)) as [buffers tapBuffer'] eqn:Hb.
  cbn [fst] in Hd. rewrite Hd.
  assert (tapBuffer' = if now <? bufferDue (tapBuffer st) then tapBuffer st
          else {| buffer := [];
                  bufferDue :=
                    bufferDue (tapBuffer st)
                    + ((now - bufferDue (tapBuffer st)) / doubleTapInterval cfg + 1)
                      * doubleTapInterval cfg |}) as ->.
  { unfold bufferTime_advance in Hb.
    destruct (now <? bufferDue (tapBuffer st)); by injection Hb as _ <-. }
  unfold timer_advance.
  destruct (tapTimer st) as [[tapData due]|], (longPressTimer st) as [[tp due']|];
    repeat match goal with |- context [if ?b then _ else _] => destruct b end;
    reflexivity.
Qed.

Lemma displacement_timestamps rect s e e' p q bound :
  distanceBelow (getTouchPoint rect s p) (getTouchPoint rect e q) bound
  = distanceBelow (getTouchPoint rect e' p) (getTouchPoint rect e q) bound.
Proof. reflexivity. Qed.

Lemma distanceBelow_weaken a b small large :
  0 < small <= large ->
  distanceBelow a b small = true -> distanceBelow a b large = true.
Proof.
  unfold distanceBelow. intros Hb [_ Hd%Z.ltb_lt]%andb_prop.
  apply andb_true_intro. split; [apply Z.ltb_lt; lia|apply Z.ltb_lt; nia].
Qed.

Lemma run_cons cfg rect e rest st :
  run cfg rect (e :: rest) st
  = let '(out, st) := onEvent cfg rect e st in
    let '(out', st) := run cfg rect rest st in
    (out ++ out', st).
Proof. reflexivity. Qed.

Ltac zlia := Z.to_euclidean_division_equations; lia.

(** Decides the comparisons of the goal from the hypotheses, splitting
    on those that are open. *)
Ltac decide_ltb :=
  match goal with
  | |- context [?a <? ?b] =>
      first
        [ replace (a <? b) with true by (symmetry; apply Z.ltb_lt; zlia)
        | replace (a <? b) with false by (symmetry; apply Z.ltb_ge; zlia)
        | destruct (Z.ltb_spec a b) ]
  end.

Ltac settle tac :=
  repeat (first [tac | decide_ltb]; cbn -[distanceBelow advance run]).

Ltac step tac :=
  first [rewrite run_cons; unfold onEvent at 1 | cbn [run]];
  rewrite advance_eq; cbn -[distanceBelow advance run]; settle tac.

(** *** Move events before a touch end

    Only the long press listens to [touchmove], and a touch end cancels
    it in any case: while no timer with a subscriber is due, the move
    events of a contact leave no trace once the finger is lifted. *)

Lemma advance_quiet t e st :
  t <= e -> quiet e st ->
  fst (advance config t st) = [] /\ quiet e (snd (advance config t st)).
Proof.
  intros Ht (Htap & Hbuf & Hlong). rewrite advance_eq. unfold quiet.
  destruct st as [ti tt [buf due] si lp]. cbn in Htap, Hbuf, Hlong.
  cbn -[distanceBelow advance].
  destruct tt as [[td d2]|], lp as [[lpp d4]|], Hbuf as [->|Hbuf];
    cbn -[distanceBelow advance]; settle fail;
    repeat split; first [done | lia | by left | right; zlia | left; reflexivity].
Qed.

Lemma advance_advance t e st :
  t <= e -> quiet e st ->
  advance config e (snd (advance config t st)) = advance config e st.
Proof.
  intros Ht Hq.
  destruct (advance_quiet t e st Ht Hq) as [_ Hq1].
  destruct (advance_quiet e e st ltac:(lia) Hq) as [Hout _].
  destruct (advance_quiet e e _ ltac:(lia) Hq1) as [Hout1 _].
  rewrite (surjective_pairing (advance config e (snd (advance config t st)))).
  rewrite (surjective_pairing (advance config e st)).
  rewrite Hout, Hout1. f_equal.
  destruct Hq as (Htap & Hbuf & Hlong).
  rewrite !advance_eq.
  destruct st as [ti tt [buf due] si lp]. cbn in Htap, Hbuf, Hlong.
  cbn -[distanceBelow advance]. f_equal.
  - destruct ti as [[ev d]|]; [|done]. settle fail; reflexivity.
  - destruct tt as [[td d]|]; [|done]. settle fail; reflexivity.
  - clear Hout Hout1 Hq1.
    destruct Hbuf as [->|Hbuf]; destruct (Z.ltb_spec t due);
      cbn -[distanceBelow advance]; settle fail; cbn in *;
      first [reflexivity | f_equal; zlia | exfalso; zlia].
  - destruct si as [[[sp st0] d]|]; [|done]. settle fail; reflexivity.
  - destruct lp as [[lpp d]|]; [|done]. settle fail; reflexivity.
Qed.

Lemma advance_cancelLongPress e st :
  quiet e st ->
  advance config e (cancelLongPress st)
  = (fst (advance config e st), cancelLongPress (snd (advance config e st))).
Proof.
  intros (Htap & Hbuf & Hlong). rewrite !advance_eq.
  destruct st as [ti tt [buf due] si lp]. cbn in Htap, Hbuf, Hlong.
  unfold cancelLongPress. cbn -[distanceBelow advance].
  destruct lp as [[lpp d]|]; [|reflexivity].
  replace (e <? d) with true by (symmetry; apply Z.ltb_lt; lia).
  reflexivity.
Qed.

Lemma onEnd_cancelLongPress cfg rect ev changed0 st :
  onEnd cfg rect ev changed0 (cancelLongPress st)
  = onEnd cfg rect ev changed0 st.
Proof.
  destruct st as [ti tt tb si lp].
  unfold onEnd, cancelLongPress, onTap; cbn -[distanceBelow].
  destruct ti as [[startEvent due]|]; [|reflexivity].
  by destruct (distanceBelow _ _ 10).
Qed.

Lemma onMove_cases rect ev touch0 st :
  onMove rect ev touch0 st = st \/
  onMove rect ev touch0 st = cancelLongPress st.
Proof.
  unfold onMove. destruct (longPressTimer st) as [[startTouch due]|]; [|by left].
  destruct (distanceAbove _ _ 10); [by right|by left].
Qed.

Lemma quiet_cancelLongPress e st : quiet e st -> quiet e (cancelLongPress st).
Proof. by intros (Htap & Hbuf & _). Qed.

Lemma move_then_end rect t touch0 others e ts q st :
  t <= e -> quiet e st ->
  exists st1,
    onEvent config rect (touchmove t touch0 others) st = ([], st1) /\
    quiet e st1 /\
    onEvent config rect (touchend e ts q) st1
    = onEvent config rect (touchend e ts q) st.
Proof.
  intros Ht Hq. unfold onEvent. cbn [timeStamp].
  destruct (advance_quiet t e st Ht Hq) as [Hout Hq1].
  pose proof (advance_advance t e st Ht Hq) as Hadv.
  destruct (advance config t st) as [fired st0]. cbn [fst snd] in *. subst fired.
  destruct (onMove_cases rect (touchmove t touch0 others) touch0 st0) as [-> | ->].
  - exists st0. split; [done|]. split; [done|]. by rewrite Hadv.
  - exists (cancelLongPress st0). split; [done|].
    split; [by apply quiet_cancelLongPress|].
    rewrite (advance_cancelLongPress e st0 Hq1), Hadv.
    destruct (advance config e st) as [fired st2]. cbn [fst snd].
    by rewrite onEnd_cancelLongPress.
Qed.

(** The move events of a contact can be left out of a run. *)
Lemma moves_before_end rect moves lo e ts q rest st :
  movesBetween lo e moves -> quiet e st ->
  run config rect (moves ++ touchend e ts q :: rest) st
  = run config rect (touchend e ts q :: rest) st.
Proof.
  intros Hmoves. revert st.
  induction Hmoves as [|m moves [Hm [_ Ht]] _ IH]; intros st Hq; [done|].
  destruct m as [? ? ?|t touch0 others|? ? ?]; try done. cbn [timeStamp] in Ht.
  destruct (move_then_end rect t touch0 others e ts q st Ht Hq)
    as (st1 & Hmove & Hq1 & Hend).
  cbn [app]. rewrite run_cons, Hmove, (IH st1 Hq1), !run_cons, Hend.
  by destruct (onEvent config rect (touchend e ts q) st) as [out st2],
       (run config rect rest st2).
Qed.

Ltac nothing_due :=
  unfold quiet; cbn -[distanceBelow advance run];
  split; [|split]; first [done | zlia | left; reflexivity | right; zlia].

Lemma isolated_tap rect start s e p q moves horizon :
  e - s < tapTimeout config ->
  movesBetween s e moves ->
  distanceBelow (getTouchPoint rect s p) (getTouchPoint rect e q) 10 = true ->
  e + doubleTapInterval config <= horizon ->
  recognize config rect start (contactMoving s e p q moves) horizon
  = [tapGesture (e + doubleTapInterval config)
       {| startEvent := touchstart s p []; endEvent := touchend e [] q;
          touch := getTouchPoint rect e q |}].
Proof.
  intros Hdur Hmoves Hdist Hh.
  pose proof (distanceBelow_weaken _ _ 10 50 ltac:(lia) Hdist) as Hswipe.
  rewrite (displacement_timestamps rect s e e) in Hdist.
  unfold recognize, observe, contactMoving.
  cbn in Hdur, Hh.
  step fail.
  all: rewrite (moves_before_end rect moves s e [] q [] _ Hmoves) by nothing_due.
  all: do 2 (step ltac:(first [rewrite Hdist | rewrite Hswipe])).
  all: reflexivity.
Qed.

Lemma tap_pair rect start k s1 e1 s2 e2 p1 q1 p2 q2 moves1 moves2 horizon :
  0 <= k -> s1 <= e1 <= s2 -> s2 <= e2 ->
  e1 - s1 < tapTimeout config -> e2 - s2 < tapTimeout config ->
  movesBetween s1 e1 moves1 -> movesBetween s2 e2 moves2 ->
  distanceBelow (getTouchPoint rect s1 p1) (getTouchPoint rect e1 q1) 10 = true ->
  distanceBelow (getTouchPoint rect s2 p2) (getTouchPoint rect e2 q2) 10 = true ->
  start + k * doubleTapInterval config <= e1 ->
  e2 < start + (k + 1) * doubleTapInterval config ->
  distanceBelow (getTouchPoint rect e1 q1) (getTouchPoint rect e2 q2) 50 = true ->
  e2 + doubleTapInterval config <= horizon ->
  let tap1 := {| startEvent := touchstart s1 p1 []; endEvent := touchend e1 [] q1;
                 touch := getTouchPoint rect e1 q1 |} in
  let tap2 := {| startEvent := touchstart s2 p2 []; endEvent := touchend e2 [] q2;
                 touch := getTouchPoint rect e2 q2 |} in
  recognize config rect start
    (contactMoving s1 e1 p1 q1 moves1 ++ contactMoving s2 e2 p2 q2 moves2) horizon
  = [emitGesture (start + (k + 1) * doubleTapInterval config) double_tap
       (DoubleTapInfo (touch tap2) (e2 - e1)) [touch tap2];
     tapGesture (e2 + doubleTapInterval config) tap2].
Proof.
  intros Hk Ho1 Ho2 Hd1 Hd2 Hm1 Hm2 Hdist1 Hdist2 Hw1 Hw2 Hnear Hh.
  pose proof (distanceBelow_weaken _ _ 10 50 ltac:(lia) Hdist1) as Hswipe1.
  pose proof (distanceBelow_weaken _ _ 10 50 ltac:(lia) Hdist2) as Hswipe2.
  rewrite (displacement_timestamps rect s1 e1 e1) in Hdist1.
  rewrite (displacement_timestamps rect s2 e2 e2) in Hdist2.
  unfold recognize, observe, contactMoving. cbn [app].
  rewrite <- app_assoc. cbn [app].
  cbn in Hd1, Hd2, Hw1, Hw2, Hh.
  step fail.
  all: rewrite (moves_before_end rect moves1 s1 e1 [] q1 _ _ Hm1) by nothing_due.
  all: do 2 (step ltac:(first [rewrite Hdist1 | rewrite Hswipe1])).
  all: rewrite (moves_before_end rect moves2 s2 e2 [] q2 [] _ Hm2) by nothing_due.
  all: do 2 (step ltac:(first [rewrite Hdist2 | rewrite Hswipe2 | rewrite Hnear])).
  all: match goal with
       | |- [emitGesture ?t _ _ _; _] = [emitGesture ?t' _ _ _; _] =>
           replace t with t' by zlia; reflexivity
       end.
Qed.

(** C4 does not hold as stated.  With the manager constructed at time 0,
    two qualifying taps 100 ms apart at the same place yield a double-tap
    (when the buffer closes at 1200) and, 300 ms after the second tap, a
    tap as well; two such taps on either side of the boundary at 1200 yield
    a single tap and no double-tap, so the first of them has no event at
    all. *)
Lemma double_tap_also_emits_tap :
  let rect := {| rect_left := 0; rect_top := 0 |} in
  let p := {| identifier := 0; clientX := 10; clientY := 10 |} in
  let q := {| identifier := 0; clientX := 12; clientY := 11 |} in
  let shape g := (type g, emitted g) in
  map shape (recognize config rect 0
               (contact 1000 1050 p q ++ contact 1100 1150 p q) 5000)
  = [(double_tap, 1200); (tap, 1450)] /\
  map shape (recognize config rect 0
               (contact 1100 1150 p q ++ contact 1210 1250 p q) 5000)
  = [(tap, 1550)].
Proof. vm_compute. split; reflexivity. Qed.

(** C4, amended.  A single-contact touch sequence that ends less than
    [tapTimeout] (300 ms, so in particular less than 200 ms) after it
    started, less than 10 px away, and that is the only contact, yields
    exactly one gesture event: a tap, emitted 300 ms after the touch end;
    no double-tap, no swipe, no long press.  Two such contacts whose ends
    fall into the same 300 ms buffer window (window number [k] counted
    from the construction of the manager), less than 50 px apart, yield
    exactly one double-tap, at the close of that window; no tap is emitted
    for the first contact, and no swipe or long press at all: any other
    event observed is the tap of the second contact.  The contacts may
    come with any [touchmove] events between their start and their end. *)
Theorem tap_and_double_tap rect start :
  (forall s e p q moves horizon,
     e - s < tapTimeout config ->
     movesBetween s e moves ->
     distanceBelow (getTouchPoint rect s p) (getTouchPoint rect e q) 10 = true ->
     e + doubleTapInterval config <= horizon ->
     recognize config rect start (contactMoving s e p q moves) horizon
     = [tapGesture (e + doubleTapInterval config)
          {| startEvent := touchstart s p []; endEvent := touchend e [] q;
             touch := getTouchPoint rect e q |}]) /\
  (forall k s1 e1 s2 e2 p1 q1 p2 q2 moves1 moves2 horizon,
     0 <= k -> s1 <= e1 <= s2 -> s2 <= e2 ->
     e1 - s1 < tapTimeout config -> e2 - s2 < tapTimeout config ->
     movesBetween s1 e1 moves1 -> movesBetween s2 e2 moves2 ->
     distanceBelow (getTouchPoint rect s1 p1) (getTouchPoint rect e1 q1) 10
     = true ->
     distanceBelow (getTouchPoint rect s2 p2) (getTouchPoint rect e2 q2) 10
     = true ->
     start + k * doubleTapInterval config <= e1 ->
     e2 < start + (k + 1) * doubleTapInterval config ->
     distanceBelow (getTouchPoint rect e1 q1) (getTouchPoint rect e2 q2) 50
     = true ->
     e2 + doubleTapInterval config <= horizon ->
     let tap2 := {| startEvent := touchstart s2 p2 [];
                    endEvent := touchend e2 [] q2;
                    touch := getTouchPoint rect e2 q2 |} in
     let out := recognize config rect start
                  (contactMoving s1 e1 p1 q1 moves1
                   ++ contactMoving s2 e2 p2 q2 moves2) horizon in
     ofType double_tap out
     = [emitGesture (start + (k + 1) * doubleTapInterval config) double_tap
          (DoubleTapInfo (touch tap2) (e2 - e1)) [touch tap2]] /\
     forall g, In g out ->
               type g = double_tap \/
               g = tapGesture (e2 + doubleTapInterval config) tap2).
Proof.
  split.
  - intros. by apply isolated_tap.
  - intros k s1 e1 s2 e2 p1 q1 p2 q2 moves1 moves2 horizon Hk Ho1 Ho2 Hd1 Hd2
      Hm1 Hm2 Hdist1 Hdist2 Hw1 Hw2 Hnear Hh tap2 out. subst out.
    rewrite (tap_pair rect start k s1 e1 s2 e2 p1 q1 p2 q2 moves1 moves2 horizon)
      by done.
    split; [reflexivity|].
    intros g [<-|[<-|[]]]; [by left|by right].
Qed.

(** Two taps in the window from 900 to 1200, the finger wandering 40 px
    off and back during the first and sliding a little during the
    second. *)
Lemma tap_and_double_tap_witness :
  let rect := {| rect_left := 0; rect_top := 0 |} in
  let p := {| identifier := 0; clientX := 10; clientY := 10 |} in
  let q := {| identifier := 0; clientX := 12; clientY := 11 |} in
  let far := {| identifier := 0; clientX := 50; clientY := 10 |} in
  let moves1 := [touchmove 1010 far []; touchmove 1030 q []] in
  let moves2 := [touchmove 1120 q []] in
  (1050 - 1000 < tapTimeout config /\
   movesBetween 1000 1050 moves1 /\
   distanceBelow (getTouchPoint rect 1000 p) (getTouchPoint rect 1050 q) 10
   = true /\
   1050 + doubleTapInterval config <= 5000 /\
   recognize config rect 0 (contactMoving 1000 1050 p q moves1) 5000
   = [tapGesture (1050 + doubleTapInterval config)
        {| startEvent := touchstart 1000 p []; endEvent := touchend 1050 [] q;
           touch := getTouchPoint rect 1050 q |}]) /\
  (0 <= 3 /\ 1000 <= 1050 <= 1100 /\ 1100 <= 1150 /\
   1050 - 1000 < tapTimeout config /\ 1150 - 1100 < tapTimeout config /\
   movesBetween 1000 1050 moves1 /\ movesBetween 1100 1150 moves2 /\
   distanceBelow (getTouchPoint rect 1000 p) (getTouchPoint rect 1050 q) 10
   = true /\
   distanceBelow (getTouchPoint rect 1100 p) (getTouchPoint rect 1150 q) 10
   = true /\
   0 + 3 * doubleTapInterval config <= 1050 /\
   1150 < 0 + (3 + 1) * doubleTapInterval config /\
   distanceBelow (getTouchPoint rect 1050 q) (getTouchPoint rect 1150 q) 50
   = true /\
   1150 + doubleTapInterval config <= 5000 /\
   let tap2 := {| startEvent := touchstart 1100 p [];
                  endEvent := touchend 1150 [] q;
                  touch := getTouchPoint rect 1150 q |} in
   let out := recognize config rect 0
                (contactMoving 1000 1050 p q moves1
                 ++ contactMoving 1100 1150 p q moves2) 5000 in
   ofType double_tap out
   = [emitGesture (0 + (3 + 1) * doubleTapInterval config) double_tap
        (DoubleTapInfo (touch tap2) (1150 - 1050)) [touch tap2]] /\
   forall g, In g out ->
             type g = double_tap \/
             g = tapGesture (1150 + doubleTapInterval config) tap2).
Proof.
  cbv zeta.
  destruct (tap_and_double_tap {| rect_left := 0; rect_top := 0 |} 0)
    as [Hone Htwo].
  assert (movesBetween 1000 1050
            [touchmove 1010 {| identifier := 0; clientX := 50; clientY := 10 |} [];
             touchmove 1030 {| identifier := 0; clientX := 12; clientY := 11 |} []])
    as Hm1 by (repeat constructor; discriminate).
  assert (movesBetween 1100 1150
            [touchmove 1120 {| identifier := 0; clientX := 12; clientY := 11 |} []])
    as Hm2 by (repeat constructor; discriminate).
  split.
  - split; [reflexivity|]. split; [exact Hm1|]. split; [reflexivity|].
    split; [discriminate|].
    apply Hone; [reflexivity|exact Hm1|reflexivity|discriminate].
  - split; [discriminate|]. split; [split; discriminate|].
    split; [discriminate|]. split; [reflexivity|]. split; [reflexivity|].
    split; [exact Hm1|]. split; [exact Hm2|].
    split; [reflexivity|]. split; [reflexivity|]. split; [discriminate|].
    split; [reflexivity|]. split; [reflexivity|]. split; [discriminate|].
    apply Htwo;
      first [exact Hm1 | exact Hm2 | reflexivity | discriminate
            | split; discriminate].
Defined.

End GestureManagerTaps.
(** *** Single contacts: swipe, long press, and the contacts that yield
    nothing *)

Module GestureManagerContacts.
Import Rx GestureManager GestureManagerFacts GestureManagerTaps.

Lemma distanceBelow_not_weaken a b small large :
  0 < small <= large ->
  distanceBelow a b large = false -> distanceBelow a b small = false.
Proof.
  intros Hb Hl. destruct (distanceBelow a b small) eqn:Hs; [|done].
  by rewrite (distanceBelow_weaken a b small large Hb Hs) in Hl.
Qed.

(** X19: A finger lifted less than [swipeMaxTime] after it was put down, at
    least [swipeMinDistance] px away, yields one swipe, at the time of the
    touch end, and nothing else: no tap, no double-tap, no long press,
    whatever [touchmove] events come in between. *)
Theorem swipe_only rect start s e p q moves horizon :
  e - s < swipeMaxTime config ->
  movesBetween s e moves ->
  distanceBelow (getTouchPoint rect s p) (getTouchPoint rect e q)
    (swipeMinDistance config) = false ->
  e <= horizon ->
  recognize config rect start (contactMoving s e p q moves) horizon
  = [swipeGesture e (getTouchPoint rect s p) (getTouchPoint rect e q) (e - s)].
Proof.
  intros Hdur Hmoves Hfar Hh.
  pose proof (distanceBelow_not_weaken _ _ 10 50 ltac:(lia) Hfar) as Htap.
  rewrite (displacement_timestamps rect s e e) in Htap.
  unfold recognize, observe, contactMoving.
  cbn in Hdur. change (swipeMinDistance config) with 50 in Hfar.
  step fail.
  all: rewrite (moves_before_end rect moves s e [] q [] _ Hmoves) by nothing_due.
  all: do 2 (step ltac:(first [rewrite Htap | rewrite Hfar])).
  all: reflexivity.
Qed.

(** A swipe to the right with four move events on the way. *)
Lemma swipe_only_witness :
  let rect := {| rect_left := 0; rect_top := 0 |} in
  let p := {| identifier := 0; clientX := 10; clientY := 10 |} in
  let q := {| identifier := 0; clientX := 90; clientY := 40 |} in
  let at_ x y := {| identifier := 0; clientX := x; clientY := y |} in
  let moves := [touchmove 1020 (at_ 25 14) []; touchmove 1050 (at_ 45 22) [];
                touchmove 1080 (at_ 66 31) []; touchmove 1110 (at_ 88 40) []] in
  1120 - 1000 < swipeMaxTime config /\
  movesBetween 1000 1120 moves /\
  distanceBelow (getTouchPoint rect 1000 p) (getTouchPoint rect 1120 q)
    (swipeMinDistance config) = false /\
  1120 <= 5000 /\
  recognize config rect 0 (contactMoving 1000 1120 p q moves) 5000
  = [swipeGesture 1120 (getTouchPoint rect 1000 p) (getTouchPoint rect 1120 q)
       (1120 - 1000)].
Proof.
  cbv zeta.
  assert (movesBetween 1000 1120
            [touchmove 1020 {| identifier := 0; clientX := 25; clientY := 14 |} [];
             touchmove 1050 {| identifier := 0; clientX := 45; clientY := 22 |} [];
             touchmove 1080 {| identifier := 0; clientX := 66; clientY := 31 |} [];
             touchmove 1110 {| identifier := 0; clientX := 88; clientY := 40 |} []])
    as Hmoves by (repeat constructor; discriminate).
  split; [cbn; lia|]. split; [exact Hmoves|]. split; [reflexivity|].
  split; [lia|].
  apply swipe_only; [cbn; lia|exact Hmoves|reflexivity|lia].
Defined.

(** X20: A finger held for [longPressDelay] or longer, without any move event,
    yields one long press, [longPressDelay] after the touch start and at
    the start position, and nothing else, wherever it is lifted. *)
Theorem long_press_only rect start s e p q horizon :
  s + longPressDelay config <= e ->
  e <= horizon ->
  recognize config rect start (contact s e p q) horizon
  = [longPressGesture config (s + longPressDelay config)
       (getTouchPoint rect s p)].
Proof.
  intros Hheld Hh.
  unfold recognize, observe, contact.
  cbn in Hheld.
  do 3 (step fail).
  all: reflexivity.
Qed.

Lemma long_press_only_witness :
  let rect := {| rect_left := 0; rect_top := 0 |} in
  let p := {| identifier := 0; clientX := 10; clientY := 10 |} in
  let q := {| identifier := 0; clientX := 200; clientY := 10 |} in
  1000 + longPressDelay config <= 1700 /\
  1700 <= 5000 /\
  recognize config rect 0 (contact 1000 1700 p q) 5000
  = [longPressGesture config (1000 + longPressDelay config)
       (getTouchPoint rect 1000 p)].
Proof.
  cbv zeta. split; [cbn; lia|]. split; [lia|].
  apply long_press_only; [cbn; lia|lia].
Defined.

(** X21: Contacts without any gesture: a finger lifted after [tapTimeout] but
    before [longPressDelay] yields nothing, wherever it is lifted; and so
    does a quick contact whose displacement is 10 px or more but below
    [swipeMinDistance].  This holds whatever [touchmove] events come
    between the touch start and the touch end. *)
Theorem contact_without_gesture rect start s e p q moves horizon :
  movesBetween s e moves ->
  (tapTimeout config <= e - s /\ swipeMaxTime config <= e - s
   /\ e - s < longPressDelay config)
  \/ (e - s < longPressDelay config
      /\ distanceBelow (getTouchPoint rect s p) (getTouchPoint rect e q) 10
         = false
      /\ distanceBelow (getTouchPoint rect s p) (getTouchPoint rect e q)
           (swipeMinDistance config) = true) ->
  recognize config rect start (contactMoving s e p q moves) horizon = [].
Proof.
  intros Hmoves [(Htap & Hswipe & Hpress)|(Hpress & Hmoved & Hnear)];
    unfold recognize, observe, contactMoving.
  - cbn in Htap, Hswipe, Hpress. step fail.
    all: rewrite (moves_before_end rect moves s e [] q [] _ Hmoves) by nothing_due.
    all: do 2 (step fail).
    all: reflexivity.
  - cbn in Hpress. change (swipeMinDistance config) with 50 in Hnear.
    rewrite (displacement_timestamps rect s e e) in Hmoved.
    step fail.
    all: rewrite (moves_before_end rect moves s e [] q [] _ Hmoves) by nothing_due.
    all: do 2 (step ltac:(first [rewrite Hmoved | rewrite Hnear])).
    all: reflexivity.
Qed.

(** A finger that slides 20 px in 100 ms. *)
Lemma contact_without_gesture_witness :
  let rect := {| rect_left := 0; rect_top := 0 |} in
  let p := {| identifier := 0; clientX := 10; clientY := 10 |} in
  let q := {| identifier := 0; clientX := 30; clientY := 10 |} in
  let moves := [touchmove 1030 {| identifier := 0; clientX := 16; clientY := 10 |} [];
                touchmove 1070 {| identifier := 0; clientX := 24; clientY := 10 |} []] in
  movesBetween 1000 1100 moves /\
  ((tapTimeout config <= 1100 - 1000 /\ swipeMaxTime config <= 1100 - 1000
    /\ 1100 - 1000 < longPressDelay config)
   \/ (1100 - 1000 < longPressDelay config
       /\ distanceBelow (getTouchPoint rect 1000 p) (getTouchPoint rect 1100 q) 10
          = false
       /\ distanceBelow (getTouchPoint rect 1000 p) (getTouchPoint rect 1100 q)
            (swipeMinDistance config) = true)) /\
  recognize config rect 0 (contactMoving 1000 1100 p q moves) 5000 = [].
Proof.
  cbv zeta.
  assert (movesBetween 1000 1100
            [touchmove 1030 {| identifier := 0; clientX := 16; clientY := 10 |} [];
             touchmove 1070 {| identifier := 0; clientX := 24; clientY := 10 |} []])
    as Hmoves by (repeat constructor; discriminate).
  assert (1100 - 1000 < longPressDelay config
          /\ distanceBelow
               (getTouchPoint {| rect_left := 0; rect_top := 0 |} 1000
                  {| identifier := 0; clientX := 10; clientY := 10 |})
               (getTouchPoint {| rect_left := 0; rect_top := 0 |} 1100
                  {| identifier := 0; clientX := 30; clientY := 10 |}) 10
             = false
          /\ distanceBelow
               (getTouchPoint {| rect_left := 0; rect_top := 0 |} 1000
                  {| identifier := 0; clientX := 10; clientY := 10 |})
               (getTouchPoint {| rect_left := 0; rect_top := 0 |} 1100
                  {| identifier := 0; clientX := 30; clientY := 10 |})
               (swipeMinDistance config) = true) as H
    by (split; [cbn; lia|split; reflexivity]).
  split; [exact Hmoves|]. split; [right; exact H|].
  apply contact_without_gesture; [exact Hmoves|]. right. exact H.
Defined.

(** X22: A second finger put down while the first is held does not cancel the
    pending long press: starts with more than one touch pass none of the
    single-finger filters, and nothing else listens to them here. *)
Theorem second_finger_keeps_long_press rect start s s2 p p' p2 more horizon :
  s <= s2 ->
  s + longPressDelay config <= horizon ->
  s2 <= horizon ->
  recognize config rect start
    [touchstart s p []; touchstart s2 p' (p2 :: more)] horizon
  = [longPressGesture config (s + longPressDelay config)
       (getTouchPoint rect s p)].
Proof.
  intros Hs Hh Hh2.
  unfold recognize, observe.
  cbn in Hh.
  do 3 (step fail).
  all: reflexivity.
Qed.

Lemma second_finger_keeps_long_press_witness :
  let rect := {| rect_left := 0; rect_top := 0 |} in
  let p := {| identifier := 0; clientX := 10; clientY := 10 |} in
  let p2 := {| identifier := 1; clientX := 200; clientY := 10 |} in
  1000 <= 1100 /\ 1000 + longPressDelay config <= 5000 /\ 1100 <= 5000 /\
  recognize config rect 0 [touchstart 1000 p []; touchstart 1100 p [p2]] 5000
  = [longPressGesture config (1000 + longPressDelay config)
       (getTouchPoint rect 1000 p)].
Proof.
  cbv zeta. split; [lia|]. split; [cbn; lia|]. split; [lia|].
  apply second_finger_keeps_long_press; [lia|cbn; lia|lia].
Defined.

End GestureManagerContacts.
(** *** What the recognizer never reports *)

Module GestureManagerSound.
Import Rx GestureManager GestureManagerFacts GestureManagerTaps.

Lemma doubleTapGesture_sound cfg now taps g :
  doubleTapGesture now taps = Some g -> sound cfg g.
Proof.
  unfold doubleTapGesture.
  destruct taps as [|t0 [|t1 [|? ?]]]; try done.
  destruct (distanceBelow _ _ _); [|done]. by intros [= <-].
Qed.

Lemma advance_sound cfg now st :
  timersSet cfg st ->
  Forall (sound cfg) (fst (advance cfg now st))
  /\ timersSet cfg (snd (advance cfg now st))
  /\ inTime now (snd (advance cfg now st)).
Proof.
  intros (Htap & Htimer & Hbuffer & Hswipe). rewrite advance_eq. cbn [fst snd].
  split; [|split].
  - apply List.Forall_forall. intros g Hg.
    apply (proj1 (in_byTime _ _)) in Hg. rewrite !in_app_iff in Hg. destruct Hg as [Hg|[Hg|Hg]].
    + destruct (tapTimer st) as [[tapData due]|] eqn:E; [|done].
      destruct (now <? due); [done|]. destruct Hg as [<-|[]].
      split; [done|]. by apply (Htimer tapData due).
    + destruct (now <? bufferDue (tapBuffer st)); [done|].
      destruct (doubleTapGesture _ _) as [g'|] eqn:E; [|done].
      destruct Hg as [<-|[]]. by eapply doubleTapGesture_sound.
    + destruct (longPressTimer st) as [[touch due]|]; [|done].
      destruct (now <? due); [done|]. by destruct Hg as [<-|[]].
  - unfold timersSet; cbn. split; [|split; [|split]].
    + intros e due. destruct (tapInner st) as [[e' due']|] eqn:E; [|done].
      destruct (now <? due'); [|done]. intros [= -> ->]. by apply Htap.
    + intros tapData due.
      destruct (tapTimer st) as [[tapData' due']|] eqn:E; [|done].
      destruct (now <? due'); [|done]. intros [= -> ->].
      by apply (Htimer tapData due).
    + destruct (now <? bufferDue (tapBuffer st)); [done|]. constructor.
    + intros p t due.
      destruct (swipeInner st) as [[[p' t'] due']|] eqn:E; [|done].
      destruct (now <? due'); [|done]. intros [= -> -> ->]. by eapply Hswipe.
  - unfold inTime; cbn. split.
    + intros e due. destruct (tapInner st) as [[e' due']|] eqn:E; [|done].
      destruct (Z.ltb_spec now due'); [|done]. by intros [= -> ->].
    + intros p t due.
      destruct (swipeInner st) as [[[p' t'] due']|] eqn:E; [|done].
      destruct (Z.ltb_spec now due'); [|done]. by intros [= -> -> ->].
Qed.

Lemma onEnd_sound cfg rect e changed0 st :
  timersSet cfg st -> inTime (timeStamp e) st ->
  Forall (sound cfg) (fst (onEnd cfg rect e changed0 st))
  /\ timersSet cfg (snd (onEnd cfg rect e changed0 st)).
Proof.
  intros Hst Hin. unfold onEnd. cbv zeta.
  set (st1 := match tapInner st with
              | Some (startEvent, _) =>
                  if distanceBelow _ _ 10 then onTap cfg _ _ st else st
              | None => st
              end).
  assert (timersSet cfg st1 /\ swipeInner st1 = swipeInner st) as [Hst1 Hsw].
  { subst st1. destruct (tapInner st) as [[startEvent due]|] eqn:E;
      [|by split].
    destruct (distanceBelow _ _ 10); [|by split].
    split; [|done].
    destruct Hst as (H1 & H2 & H3 & H4). destruct Hin as [Hin _].
    unfold timersSet, onTap; cbn.
    split; [exact H1|]. split; [|split; [|exact H4]].
    - intros ? ? [= <- _]. unfold shortTap; cbn.
      specialize (H1 _ _ E). specialize (Hin _ _ E). lia.
    - apply Forall_app. split; [done|]. constructor; [|constructor].
      unfold shortTap; cbn.
      specialize (H1 _ _ E). specialize (Hin _ _ E). lia. }
  cbn [fst snd]. split; [|exact Hst1].
  rewrite Hsw. destruct Hst as (_ & _ & _ & Hswipe). destruct Hin as [_ Hin].
  destruct (swipeInner st) as [[[startTouch startTime] due]|] eqn:E;
    [|constructor].
  destruct (distanceBelow startTouch _ _) eqn:Hd; cbn; [constructor|].
  repeat constructor; cbn.
  - specialize (Hswipe _ _ _ eq_refl). specialize (Hin _ _ _ eq_refl). lia.
  - intros Hpos. unfold distanceBelow in Hd.
    apply andb_false_iff in Hd as [Hd|Hd].
    + apply Z.ltb_ge in Hd. lia.
    + apply Z.ltb_ge in Hd. unfold distance2 in Hd. exact Hd.
Qed.

Lemma onEvent_sound cfg rect e st :
  timersSet cfg st ->
  Forall (sound cfg) (fst (onEvent cfg rect e st))
  /\ timersSet cfg (snd (onEvent cfg rect e st)).
Proof.
  intros Hst. unfold onEvent.
  destruct (advance_sound cfg (timeStamp e) st Hst) as (Hout & Hst1 & Hin).
  destruct (advance cfg (timeStamp e) st) as [fired st1]. cbn [fst snd] in *.
  destruct e as [t touch0 [|? ?]|t touch0 others|t touches changed0].
  - split; [done|]. destruct Hst1 as (H1 & H2 & H3 & H4).
    unfold timersSet, onSingleStart; cbn.
    split; [by intros ? ? [= <- <-]|]. split; [done|]. split; [done|].
    by intros ? ? ? [= _ <- <-].
  - by split.
  - split; [done|]. unfold onMove.
    destruct (longPressTimer st1) as [[startTouch due]|]; [|done].
    by destruct (distanceAbove _ _ _).
  - destruct (onEnd_sound cfg rect (touchend t touches changed0) changed0 st1
                Hst1 Hin) as [Hswipes Hst2].
    destruct (onEnd cfg rect _ changed0 st1) as [swipes st2].
    cbn [fst snd] in *. split; [|done]. by apply Forall_app.
Qed.

Lemma run_sound cfg rect events :
  forall st,
    timersSet cfg st ->
    Forall (sound cfg) (fst (run cfg rect events st))
    /\ timersSet cfg (snd (run cfg rect events st)).
Proof.
  induction events as [|e rest IH]; intros st Hst; [by split|].
  cbn [run].
  destruct (onEvent_sound cfg rect e st Hst) as [Hout Hst1].
  destruct (onEvent cfg rect e st) as [out st1]. cbn [fst snd] in *.
  destruct (IH st1 Hst1) as [Hout' Hst2].
  destruct (run cfg rect rest st1) as [out' st2]. cbn [fst snd] in *.
  split; [by apply Forall_app|done].
Qed.

(** X23: Whatever touch events arrive, in whatever order, every gesture the
    recognizer reports is backed by its data: a tap lasted less than
    [tapTimeout], a swipe lasted less than [swipeMaxTime] and covered at
    least [swipeMinDistance], and a long press carries the configured
    delay. *)
Theorem recognize_sound cfg rect start events horizon :
  Forall (sound cfg) (recognize cfg rect start events horizon).
Proof.
  unfold recognize, observe.
  assert (timersSet cfg (construct cfg start)) as H0.
  { unfold timersSet, construct; cbn.
    split; [done|]. split; [done|]. split; [constructor|done]. }
  destruct (run_sound cfg rect events _ H0) as [Hout Hst].
  destruct (run cfg rect events (construct cfg start)) as [out st].
  cbn [fst snd] in *. apply Forall_app. split; [done|].
  by destruct (advance_sound cfg horizon st Hst) as (H & _ & _).
Qed.

End GestureManagerSound.
(** ** The global game state *)

Module GameStateManagerFacts.
Import GameStateManager GameStateManagerSpec.

Lemma state_updateState u m : state (updateState u m) = mergeState (state m) u.
Proof. reflexivity. Qed.

Lemma emitted_updateState u m :
  emitted (updateState u m)
  = emitted m ++ reactions (mergeState (state m) u)
    ++ [state_updated (state m) (mergeState (state m) u)].
Proof. unfold updateState, emit, next; cbn. by rewrite <- app_assoc. Qed.

(** Every action only adds to the record of emitted events. *)
Lemma emitted_step a m :
  emitted (step a m) = emitted m ++ emittedBy a m.
Proof.
  unfold emittedBy.
  assert (exists new, emitted (step a m) = emitted m ++ new) as [new ->].
  { destruct a; cbn [step];
      unfold showModal, hideModal, addNotification, removeNotification,
        changeScene, changeScene_loaded, pauseGame, resumeGame,
        updatePlayerHealth, updatePlayerMana, updatePlayerPosition,
        addExperience, unlockAchievement, updateScore, onPerformance,
        onOrientationChange, reset;
      repeat match goal with
             | |- context [if ?b then _ else _] => destruct b
             end;
      cbn [emit emitted next state];
      rewrite ?emitted_updateState, <- ?app_assoc;
      try (by eexists); by exists []; rewrite app_nil_r. }
  by rewrite drop_app_length.
Qed.

Lemma wellFormed_initial hasTouch : wellFormed (getInitialState hasTouch).
Proof.
  unfold wellFormed; cbn.
  repeat split; first [lia | by vm_compute | apply NoDup_nil_2].
Qed.

Lemma includes_false l s : includes l s = false -> ~ s ∈ l.
Proof.
  unfold includes. intros H Hin%list_elem_of_In.
  assert (existsb (String.eqb s) l = true) as E; [|congruence].
  apply existsb_exists. exists s. split; [done|apply String.eqb_refl].
Qed.

Lemma step_wellFormed a m :
  wellFormed (state m) -> wellFormed (state (step a m)).
Proof.
  intros (Hh & Hm & Hl & He & Hs0 & Hs & Hnd).
  destruct a; cbn [step];
    unfold showModal, hideModal, addNotification, removeNotification,
      changeScene, changeScene_loaded, pauseGame, resumeGame,
      updatePlayerHealth, updatePlayerMana, updatePlayerPosition,
      addExperience, unlockAchievement, updateScore, onPerformance,
      onOrientationChange, reset;
    repeat match goal with
           | |- context [if ?b then _ else _] => destruct b eqn:?
           end;
    cbn [emit state next updateState mergeState default updateUI updatePlayer
         updateProgress updatePaused scene' loading' paused' player'
         progress' ui' performance' mobile'];
    try (unfold wellFormed; cbn; repeat split; first [lia|done]).
  - unfold wellFormed; cbn. repeat split; try lia; try done.
    apply NoDup_app. split; [done|]. split; [|apply NoDup_singleton].
    intros s Hs' ->%list_elem_of_singleton.
    apply negb_true_iff, includes_false in Heqb. done.
  - apply wellFormed_initial.
Qed.

Lemma run_snoc actions a m : run (actions ++ [a]) m = step a (run actions m).
Proof. unfold run. by rewrite foldl_app. Qed.

(** *** Announcements *)











End GameStateManagerFacts.

Module GameStateManagerProperties.
Import GameStateManager GameStateManagerSpec GameStateManagerFacts.

(** X24: Whatever actions are taken on a new manager, in any order and with
    any arguments, the player's health stays between 0 and the maximum
    and so does the mana, the level is at least 1 and at least the level
    that the experience gives, the high score is at least the score, and
    no achievement is listed twice. *)
Theorem actions_keep_state_wellFormed hasTouch actions :
  wellFormed (state (run actions (construct hasTouch))).
Proof.
  induction actions as [|a actions IH] using rev_ind.
  - apply wellFormed_initial.
  - rewrite run_snoc. by apply step_wellFormed.
Qed.



(** X26: Notifications are identified by the millisecond in which they were
    added: two notifications added within the same millisecond share
    their id, and removing that id removes both (and every older
    notification with that id), leaving the others in place. *)
Theorem notifications_same_millisecond now type1 message1 type2 message2 m :
  let id := ("notif_" ++ MiniJSON.printZ now)%string in
  let m2 := addNotification now type2 message2
              (addNotification now type1 message1 m) in
  map notificationId (notifications (ui (state m2)))
  = map notificationId (notifications (ui (state m))) ++ [id; id]
  /\ notifications (ui (state (removeNotification id m2)))
     = List.filter (fun n => negb (String.eqb (notificationId n) id))
         (notifications (ui (state m))).
Proof.
  cbv zeta. cbn. rewrite !map_app, <- !app_assoc. split; [done|].
  rewrite !List.filter_app. cbn. rewrite String.eqb_refl. cbn.
  by rewrite !app_nil_r.
Qed.

(** X27: The two reactions to a published state are not deduplicated: every
    action that publishes a state emits ['game:autoSave'] once, whatever
    it changed, and emits ['player:healthCritical'] once whenever the
    health is at most a fifth of the maximum afterwards, also when the
    health did not change. *)
Theorem reactions_on_every_publication a m :
  publishes a m = true ->
  length (autoSaves (emittedBy a m)) = 1%nat /\
  length (healthAlarms (emittedBy a m))
  = if healthCritical (player (state (step a m))) then 1%nat else 0%nat.
Proof.
  intros Hp. unfold emittedBy.
  destruct a; cbn [step publishes] in *;
    unfold showModal, hideModal, addNotification, removeNotification,
      changeScene, changeScene_loaded, pauseGame, resumeGame,
      updatePlayerHealth, updatePlayerMana, updatePlayerPosition,
      addExperience, unlockAchievement, updateScore, onPerformance,
      onOrientationChange, reset;
    rewrite ?Hp;
    try match goal with
        | H : match ?o with Some _ => _ | None => _ end = true |- _ =>
            destruct o; [apply negb_true_iff in H; rewrite H|]
        end;
    repeat match goal with
           | |- context [if (?a <? ?b) then _ else _] => destruct (a <? b)
           end;
    cbn [emit emitted next state];
    rewrite ?emitted_updateState, <- ?app_assoc, ?drop_app_length;
    unfold reactions, autoSaves, healthAlarms;
    cbn [state updateState next emit mergeState];
    match goal with
    | |- context [if healthCritical ?p then _ else _] =>
        destruct (healthCritical p)
    end; done.
Qed.

Lemma reactions_on_every_publication_witness :
  let m := updatePlayerHealth 15 (construct true) in
  publishes (ShowModal "pause") m = true /\
  length (autoSaves (emittedBy (ShowModal "pause") m)) = 1%nat /\
  length (healthAlarms (emittedBy (ShowModal "pause") m))
  = (if healthCritical (player (state (step (ShowModal "pause") m)))
     then 1%nat else 0%nat) /\
  healthCritical (player (state (step (ShowModal "pause") m))) = true.
Proof.
  cbv zeta. split; [reflexivity|].
  pose proof (reactions_on_every_publication (ShowModal "pause")
                (updatePlayerHealth 15 (construct true)) eq_refl) as [H1 H2].
  split; [exact H1|]. split; [exact H2|reflexivity].
Defined.

End GameStateManagerProperties.
(** ** The demo scene: which taps count as double taps *)

Module GestureSceneTaps.
Import GestureScene.

Ltac settled t :=
  lazymatch t with
  | context [runTimeouts] => fail
  | context [if _ then _ else _] => fail
  | _ => idtac
  end.

Ltac compare_times :=
  repeat first
    [ progress cbn -[Z.leb Z.ltb Z.add Z.sub]
    | match goal with
      | |- context [?a <=? ?b] =>
          settled a; settled b; destruct (Z.leb_spec a b); try lia
      | |- context [?a <? ?b] =>
          settled a; settled b; destruct (Z.ltb_spec a b); try lia
      end ].

(** X29: of two taps on a new scene the second is reported as a double
    tap exactly when it comes less than 300 ms after the first.  From
    300 ms on the timeout of the first tap has already reported it as a
    single tap and cleared the count, so both are single taps: the
    500 ms of the comparison in [detectTap] never decides. *)
Theorem detectTap_double_within_300
    (t1 t2 horizon : Z) (p1 p2 : TouchPoint) :
  t1 <= t2 ->
  t2 + 300 <= horizon ->
  taps [(t1, p1); (t2, p2)] horizon =
  if t2 - t1 <? 300
  then [(t2, DoubleTap p2)]
  else [(t1 + 300, SingleTap p1); (t2 + 300, SingleTap p2)].
Proof.
  intros Horder Hhorizon.
  unfold taps, detectTap, advance, initial.
  compare_times; reflexivity.
Qed.

(** Two taps 400 ms apart, inside the 500 ms of the comparison, are two
    single taps. *)
Lemma detectTap_double_within_300_witness :
  let p1 := {| id := 1; x := 100; y := 100; startX := 100; startY := 100;
               time := 950 |} in
  let p2 := {| id := 1; x := 104; y := 98; startX := 104; startY := 98;
               time := 1350 |} in
  taps [(1000, p1); (1400, p2)] 2000 =
  [(1300, SingleTap p1); (1700, SingleTap p2)].
Proof.
  intros p1 p2.
  rewrite (detectTap_double_within_300 1000 1400 2000 p1 p2); [reflexivity | lia | lia].
Defined.

(** X30: the timeout of a first tap is never cancelled.  When a third
    tap follows a double tap before that timeout is due, the timeout
    finds the count at 1 again and reports the first tap, already half of
    the double tap, as a single tap; it also clears the count, so the
    third tap is reported neither as a single nor as a double tap. *)
Theorem detectTap_stale_timeout
    (t1 t2 t3 horizon : Z) (p1 p2 p3 : TouchPoint) :
  t1 <= t2 <= t3 ->
  t3 < t1 + 300 ->
  t3 + 300 <= horizon ->
  taps [(t1, p1); (t2, p2); (t3, p3)] horizon =
  [(t2, DoubleTap p2); (t1 + 300, SingleTap p1)].
Proof.
  intros [H12 H23] Hdue Hhorizon.
  unfold taps, detectTap, advance, initial.
  compare_times; reflexivity.
Qed.

Lemma detectTap_stale_timeout_witness :
  let p1 := {| id := 1; x := 100; y := 100; startX := 100; startY := 100;
               time := 950 |} in
  let p2 := {| id := 1; x := 104; y := 98; startX := 104; startY := 98;
               time := 1050 |} in
  let p3 := {| id := 1; x := 300; y := 210; startX := 300; startY := 210;
               time := 1150 |} in
  taps [(1000, p1); (1100, p2); (1200, p3)] 2000 =
  [(1100, DoubleTap p2); (1300, SingleTap p1)].
Proof.
  intros p1 p2 p3.
  rewrite (detectTap_stale_timeout 1000 1100 1200 2000 p1 p2 p3);
    [reflexivity | lia | lia | lia].
Defined.

End GestureSceneTaps.
